(** * Ed-room backend: response cache, moderation, language bridge, chat endpoint

    A shallow embedding of the request-orchestration core of the Ed-room
    backend (backend_cache.py, Content_Moderation_Agent.py,
    Language_Bridge_Agent.py and the chat endpoint of api_server.py),
    followed by the properties proved about it.

    Conventions of the embedding.
    - A Python [str] is a list of Unicode code points ([N]); [len], slicing
      and the regular-expression character classes of the source all count
      code points.
    - Python numbers are carried by their exact rational value ([Q]); the
      constants written as float literals in the source are the rational
      value of the double the literal denotes when the comparison is made
      on stored numbers, see [decision_threshold].
    - A Python [dict] used as a record is a [gmap string pyval]; the cache
      store, whose iteration order matters, is an insertion-ordered
      association list.
    - Exceptions are explicit: a computation returns an [outcome] next to
      the state it leaves behind, so that a [try]/[except] sees the
      mutations done before the exception.
    - Library code outside the repository that cannot be written down here
      ([str.lower] over all of Unicode, [hashlib.md5]) is a field of the
      class [PyRuntime]; an instance on ASCII text with a real MD5 is
      given for evaluation. *)

From Stdlib Require Import ZArith NArith QArith Qabs List String Ascii Bool Lia Lqa Sorted.
From stdpp Require Import base option list gmap strings pretty.

Local Open Scope Z_scope.
Set Warnings "-register-all".
Set Default Proof Using "Type*".

(* ===================================================================== *)
(** * Part I: the embedding                                               *)
(* ===================================================================== *)

(** ** Text *)

Definition char := N.
Definition str := list char.

(** An ASCII literal of the source as a [str]. *)
Definition lit (s : string) : str :=
  List.map N_of_ascii (list_ascii_of_string s).

(** [str.isspace] on one code point: the set used by [str.strip],
    [str.split] without argument, and by [\s] in a [str] pattern. *)
Definition is_space (c : char) : bool :=
  ((9 <=? c) && (c <=? 13) || (28 <=? c) && (c <=? 32) || (c =? 133)
   || (c =? 160) || (c =? 5760) || (8192 <=? c) && (c <=? 8202)
   || (c =? 8232) || (c =? 8233) || (c =? 8239) || (c =? 8287)
   || (c =? 12288))%N.

Definition NL : char := 10%N.
Definition CR : char := 13%N.
Definition SP : char := 32%N.
Definition STAR : char := 42%N.
Definition QUOTE : char := 34%N.

Fixpoint lstrip (s : str) : str :=
  match s with
  | c :: s' => if is_space c then lstrip s' else s
  | [] => []
  end.

Definition rstrip (s : str) : str := rev (lstrip (rev s)).

(** [s.strip()] *)
Definition strip (s : str) : str := rstrip (lstrip s).

(** [s.replace(old, new)] for a one-character [old]. *)
Definition replace_char (old : char) (new : str) (s : str) : str :=
  flat_map (fun c => if (c =? old)%N then new else [c]) s.

(** [s.split()]: the maximal runs of non-whitespace, in order. [cur] is the
    run being read, reversed. *)
Fixpoint split_from (cur : str) (s : str) : list str :=
  match s with
  | [] => match cur with [] => [] | _ => [rev cur] end
  | c :: s' =>
      if is_space c
      then match cur with
           | [] => split_from [] s'
           | _ => rev cur :: split_from [] s'
           end
      else split_from (c :: cur) s'
  end.

Definition split (s : str) : list str := split_from [] s.

(** [sep.join(parts)] *)
Fixpoint join (sep : str) (parts : list str) : str :=
  match parts with
  | [] => []
  | [p] => p
  | p :: ps => p ++ sep ++ join sep ps
  end.

(** [s.startswith(p)] *)
Fixpoint startswith (p s : str) : bool :=
  match p, s with
  | [], _ => true
  | a :: p', b :: s' => (a =? b)%N && startswith p' s'
  | _ :: _, [] => false
  end.

(** Truth value of a [str]: [not s] is [negb (truthy_str s)]. *)
Definition truthy_str (s : str) : bool :=
  match s with [] => false | _ => true end.

(** [str.lower] restricted to ASCII: the letters A-Z go to a-z. *)
Definition ascii_lower_char (c : char) : char :=
  if ((65 <=? c) && (c <=? 90))%N then (c + 32)%N else c.

Definition ascii_lower (s : str) : str := List.map ascii_lower_char s.

Definition is_ascii (s : str) : Prop := Forall (fun c => (c < 128)%N) s.

(** ** MD5 (RFC 1321), on the UTF-8 encoding of a string

    An executable instance of [hashlib.md5(s.encode()).hexdigest()], used
    to evaluate the cache on concrete messages. *)

Module MD5.

Definition wrap32 (x : Z) : Z := x mod 4294967296.
Definition not32 (x : Z) : Z := 4294967295 - x.
Definition rotl32 (x : Z) (c : Z) : Z :=
  wrap32 (Z.lor (Z.shiftl x c) (Z.shiftr x (32 - c))).

Definition shifts : list Z :=
  [7;12;17;22;7;12;17;22;7;12;17;22;7;12;17;22;
   5;9;14;20;5;9;14;20;5;9;14;20;5;9;14;20;
   4;11;16;23;4;11;16;23;4;11;16;23;4;11;16;23;
   6;10;15;21;6;10;15;21;6;10;15;21;6;10;15;21].

Definition sines : list Z :=
  [0xd76aa478;0xe8c7b756;0x242070db;0xc1bdceee;0xf57c0faf;0x4787c62a;0xa8304613;0xfd469501;
   0x698098d8;0x8b44f7af;0xffff5bb1;0x895cd7be;0x6b901122;0xfd987193;0xa679438e;0x49b40821;
   0xf61e2562;0xc040b340;0x265e5a51;0xe9b6c7aa;0xd62f105d;0x02441453;0xd8a1e681;0xe7d3fbc8;
   0x21e1cde6;0xc33707d6;0xf4d50d87;0x455a14ed;0xa9e3e905;0xfcefa3f8;0x676f02d9;0x8d2a4c8a;
   0xfffa3942;0x8771f681;0x6d9d6122;0xfde5380c;0xa4beea44;0x4bdecfa9;0xf6bb4b60;0xbebfbc70;
   0x289b7ec6;0xeaa127fa;0xd4ef3085;0x04881d05;0xd9d4d039;0xe6db99e5;0x1fa27cf8;0xc4ac5665;
   0xf4292244;0x432aff97;0xab9423a7;0xfc93a039;0x655b59c3;0x8f0ccc92;0xffeff47d;0x85845dd1;
   0x6fa87e4f;0xfe2ce6e0;0xa3014314;0x4e0811a1;0xf7537e82;0xbd3af235;0x2ad7d2bb;0xeb86d391].

(** UTF-8 encoding of one code point. *)
Definition utf8_char (c : char) : list Z :=
  let z := Z.of_N c in
  if z <? 128 then [z]
  else if z <? 2048 then [192 + z / 64; 128 + z mod 64]
  else if z <? 65536 then [224 + z / 4096; 128 + (z / 64) mod 64; 128 + z mod 64]
  else [240 + z / 262144; 128 + (z / 4096) mod 64; 128 + (z / 64) mod 64; 128 + z mod 64].

Definition utf8 (s : str) : list Z := flat_map utf8_char s.

(** Little-endian bytes of the low [n] bytes of [x]. *)
Fixpoint le_bytes (n : nat) (x : Z) : list Z :=
  match n with
  | O => []
  | S n' => x mod 256 :: le_bytes n' (x / 256)
  end.

Definition pad (msg : list Z) : list Z :=
  let len := Z.of_nat (length msg) in
  let zeros := Z.to_nat ((55 - len) mod 64) in
  msg ++ [128] ++ List.repeat 0 zeros ++ le_bytes 8 (8 * len).

Fixpoint le_word (bs : list Z) : Z :=
  match bs with
  | [] => 0
  | b :: bs' => b + 256 * le_word bs'
  end.

(** The sixteen 32-bit words of a 64-byte block. *)
Fixpoint words (n : nat) (block : list Z) : list Z :=
  match n with
  | O => []
  | S n' => le_word (List.firstn 4 block) :: words n' (List.skipn 4 block)
  end.

Definition round (m : list Z) (st : Z * Z * Z * Z) (i : nat) : Z * Z * Z * Z :=
  let '(a, b, c, d) := st in
  let iz := Z.of_nat i in
  let '(f, g) :=
    if iz <? 16 then (Z.lor (Z.land b c) (Z.land (not32 b) d), iz)
    else if iz <? 32 then (Z.lor (Z.land d b) (Z.land (not32 d) c), (5 * iz + 1) mod 16)
    else if iz <? 48 then (Z.lxor b (Z.lxor c d), (3 * iz + 5) mod 16)
    else (Z.lxor c (Z.lor b (not32 d)), (7 * iz) mod 16) in
  let f' := wrap32 (f + a + List.nth i sines 0 + List.nth (Z.to_nat g) m 0) in
  (d, wrap32 (b + rotl32 f' (List.nth i shifts 0)), b, c).

Definition compress (st : Z * Z * Z * Z) (block : list Z) : Z * Z * Z * Z :=
  let m := words 16 block in
  let '(a0, b0, c0, d0) := st in
  let '(a, b, c, d) := List.fold_left (round m) (seq 0 64) st in
  (wrap32 (a0 + a), wrap32 (b0 + b), wrap32 (c0 + c), wrap32 (d0 + d)).

Fixpoint blocks (n : nat) (bs : list Z) : list (list Z) :=
  match n with
  | O => []
  | S n' => List.firstn 64 bs :: blocks n' (List.skipn 64 bs)
  end.

Definition digest (msg : list Z) : list Z :=
  let p := pad msg in
  let '(a, b, c, d) :=
    List.fold_left compress (blocks (length p / 64) p)
      (0x67452301, 0xefcdab89, 0x98badcfe, 0x10325476) in
  le_bytes 4 a ++ le_bytes 4 b ++ le_bytes 4 c ++ le_bytes 4 d.

Definition hex_digit (x : Z) : char :=
  if x <? 10 then Z.to_N (48 + x) else Z.to_N (87 + x).

Definition hex (bs : list Z) : str :=
  flat_map (fun b => [hex_digit (b / 16); hex_digit (b mod 16)]) bs.

Definition hexdigest (s : str) : str := hex (digest (utf8 s)).

End MD5.

(** ** Python values *)

Inductive pyval :=
| VNone
| VBool (b : bool)
| VNum (x : Q)
| VNaN
| VInf (negative : bool)
| VStr (s : str)
| VList (l : list pyval)
| VDict (d : list (string * pyval)).

(** A response payload: a [dict] with string keys. *)
Abbreviation payload := (gmap string pyval).

(** [d.get(k, dflt)] *)
Definition dict_get (d : payload) (k : string) (dflt : pyval) : pyval :=
  default dflt (d !! k).

(** ** Outcomes and stateful computations *)

Inductive exn :=
| IndexError
| KeyError
| TypeError
| ValueError
| AttributeError
| ZeroDivisionError
| ServiceError (msg : str).

Inductive outcome (A : Type) :=
| Ret (a : A)
| Raise (e : exn).
Arguments Ret {A} a.
Arguments Raise {A} e.

(** Library functions of the Python runtime that the embedding takes as
    given:
    - [str.lower], a Unicode table, known here on ASCII text;
    - the hexadecimal MD5 digest of the UTF-8 encoding of a string,
      [hashlib.md5(s.encode()).hexdigest()];
    - [str()] of a value that is not itself a [str];
    - [json.dumps(v, indent=2)], which raises on a value it cannot
      serialise, and [json.loads], [None] standing for [JSONDecodeError];
    - [datetime.isoformat] of a clock reading. *)
Class PyRuntime := {
  lower : str -> str;
  lower_ascii : forall s, is_ascii s -> lower s = ascii_lower s;
  md5_hexdigest : str -> str;
  str_of_value : pyval -> str;
  json_dumps : pyval -> outcome str;
  json_loads : str -> option pyval;
  isoformat : Q -> str;
  (** [float(s)] of a string and [f"{x:.1f}"] of a number *)
  float_of_str : str -> outcome pyval;
  format_1f : pyval -> str
}.

(** [f"{v}"] *)
Definition format_value `{PyRuntime} (v : pyval) : str :=
  match v with
  | VStr s => s
  | _ => str_of_value v
  end.

(** A computation over a mutable state [S]: the state it leaves is
    returned also when it raises. *)
Definition M (S A : Type) := S -> outcome A * S.

Definition ret {S A} (a : A) : M S A := fun s => (Ret a, s).
Definition raise {S A} (e : exn) : M S A := fun s => (Raise e, s).
Definition bind {S A B} (m : M S A) (k : A -> M S B) : M S B :=
  fun s => match m s with
           | (Ret a, s') => k a s'
           | (Raise e, s') => (Raise e, s')
           end.
Definition get_state {S} : M S S := fun s => (Ret s, s).
Definition modify {S} (f : S -> S) : M S unit := fun s => (Ret tt, f s).

(** [try: body except Exception as e: handler e] *)
Definition try_except {S A} (body : M S A) (handler : exn -> M S A) : M S A :=
  fun s => match body s with
           | (Ret a, s') => (Ret a, s')
           | (Raise e, s') => handler e s'
           end.

Declare Scope m_scope.
Delimit Scope m_scope with M.
Notation "'let!' x ':=' m 'in' k" := (bind m (fun x => k))
  (at level 10, x name, m at level 100, k at level 200) : m_scope.
Notation "'run!' m 'in' k" := (bind m (fun _ => k))
  (at level 10, m at level 100, k at level 200) : m_scope.

(** [for x in xs: body x] *)
Fixpoint for_each {S A} (xs : list A) (body : A -> M S unit) : M S unit :=
  match xs with
  | [] => ret tt
  | x :: xs' => bind (body x) (fun _ => for_each xs' body)
  end.

(** ** backend_cache.py *)

Module Cache.

(** One cache entry, the dict [{value, timestamp, ttl, original_message}].
    [original_message] is optional because [_find_similar_cached_response]
    tests for the key. *)
Record entry := {
  value : payload;
  timestamp : Q;
  ttl : Q;
  original_message : option str
}.

(** The store [self.cache]: a Python dict in insertion order. *)
Definition store := list (str * entry).

Definition keys (d : store) : list str := List.map fst d.

(** [k in d] *)
Definition contains (k : str) (d : store) : bool :=
  bool_decide (k ∈ keys d).

(** [d[k]] *)
Fixpoint lookup (k : str) (d : store) : option entry :=
  match d with
  | [] => None
  | (k', e) :: d' => if decide (k = k') then Some e else lookup k d'
  end.

(** [d[k] = e]: an existing key keeps its position, a new key goes last. *)
Fixpoint setitem (k : str) (e : entry) (d : store) : store :=
  match d with
  | [] => [(k, e)]
  | (k', e') :: d' =>
      if decide (k = k') then (k, e) :: d' else (k', e') :: setitem k e d'
  end.

(** The store after [del d[k]] *)
Fixpoint remove (k : str) (d : store) : store :=
  match d with
  | [] => []
  | (k', e') :: d' =>
      if decide (k = k') then d' else (k', e') :: remove k d'
  end.

(** A Python dict holds each key once. *)
Definition wf (d : store) : Prop := NoDup (keys d).

Record BackendCache := {
  max_entries : Z;
  default_ttl : Q;
  cache : store
}.

(** [BackendCache(max_entries, default_ttl)] *)
Definition init (max_entries : Z) (default_ttl : Q) : BackendCache :=
  {| max_entries := max_entries; default_ttl := default_ttl; cache := [] |}.

(** [cache_instance = BackendCache()] *)
Definition cache_instance : BackendCache := init 200 3600.

Definition set_cache (d : store) (self : BackendCache) : BackendCache :=
  {| max_entries := max_entries self; default_ttl := default_ttl self;
     cache := d |}.

(** [del self.cache[key]], raising [KeyError] on a missing key. *)
Definition delitem (k : str) : M BackendCache unit :=
  fun self =>
    if contains k (cache self)
    then (Ret tt, set_cache (remove k (cache self)) self)
    else (Raise KeyError, self).

Section WithRuntime.
Context `{PyRuntime}.

Definition _normalize_key (text : str) : str :=
  if negb (truthy_str text) then []
  else replace_char CR [] (replace_char NL [SP] (strip (lower text))).

(** [f"{has_pdf}"] *)
Definition str_of_bool (b : bool) : str :=
  if b then lit "True" else lit "False".

Definition _generate_key (user_message : str) (has_pdf : bool) : str :=
  let normalized := _normalize_key user_message in
  let key_data := normalized ++ lit "|pdf:" ++ str_of_bool has_pdf in
  take 16 (md5_hexdigest key_data).

End WithRuntime.

(** [current_time - entry['timestamp'] > entry['ttl']] *)
Definition expired (now : Q) (e : entry) : bool :=
  negb (Qle_bool (now - timestamp e) (ttl e)).

(** [_cleanup_expired], with [now] the value read from [time.time()]. *)
Definition _cleanup_expired (now : Q) : M BackendCache unit :=
  (let! self := get_state in
   let expired_keys :=
     List.map fst (List.filter (fun ke => expired now (snd ke)) (cache self)) in
   for_each expired_keys delitem)%M.

(** [sorted(items, key=lambda x: x[1]['timestamp'])]: a stable sort. *)
Fixpoint insert_by_timestamp (x : str * entry) (l : list (str * entry))
  : list (str * entry) :=
  match l with
  | [] => [x]
  | y :: l' =>
      if Qle_bool (timestamp (snd x)) (timestamp (snd y))
      then x :: y :: l'
      else y :: insert_by_timestamp x l'
  end.

Definition sorted_by_timestamp (l : list (str * entry)) : list (str * entry) :=
  List.fold_right insert_by_timestamp [] l.

(** [sorted_items[i][0]] *)
Definition item_key (sorted_items : list (str * entry)) (i : nat)
  : M BackendCache str :=
  match List.nth_error sorted_items i with
  | Some ke => ret (fst ke)
  | None => raise IndexError
  end.

Definition _enforce_size_limit : M BackendCache unit :=
  (let! self := get_state in
   if Z.of_nat (length (cache self)) <=? max_entries self then ret tt
   else
     let sorted_items := sorted_by_timestamp (cache self) in
     let entries_to_remove := Z.of_nat (length (cache self)) - max_entries self in
     for_each (seq 0 (Z.to_nat entries_to_remove))
       (fun i => let! key := item_key sorted_items i in delitem key))%M.

(** The minimal payload [put] stores. *)
Definition cached_response_of (response_data : payload) : payload :=
  <["bot_response" := dict_get response_data "bot_response" (VStr [])]>
  (<["translation_info" := dict_get response_data "translation_info" VNone]>
  (<["explanation_result" := dict_get response_data "explanation_result" VNone]>
  (<["final_approved" := dict_get response_data "final_approved" (VBool true)]>
  (<["success" := dict_get response_data "success" (VBool true)]> ∅)))).

(** [ttl or self.default_ttl]: [None] and a zero [ttl] are both falsy. *)
Definition ttl_or_default (ttl : option Q) (self : BackendCache) : Q :=
  match ttl with
  | Some t => if Qeq_bool t 0 then default_ttl self else t
  | None => default_ttl self
  end.

Section Operations.
Context `{PyRuntime}.

(** [put]. [now] is the [time.time()] read for the entry's timestamp and
    [now'] the one read by [_cleanup_expired]. *)
Definition put (user_message : str) (response_data : payload)
    (has_pdf : bool) (ttl : option Q) (now now' : Q) : M BackendCache unit :=
  try_except
    (let! self := get_state in
     let key := _generate_key user_message has_pdf in
     let cache_ttl := ttl_or_default ttl self in
     let cached_response := cached_response_of response_data in
     run! modify (fun self =>
       set_cache (setitem key
         {| value := cached_response; timestamp := now; ttl := cache_ttl;
            original_message := Some (take 100 user_message) |}
         (cache self)) self) in
     run! _cleanup_expired now' in
     _enforce_size_limit)%M
    (fun _ => ret tt).

(** [get]. [now] is the [time.time()] read when the key is present. *)
Definition get (user_message : str) (has_pdf : bool) (now : Q)
  : M BackendCache (option payload) :=
  try_except
    (let! self := get_state in
     let key := _generate_key user_message has_pdf in
     match lookup key (cache self) with
     | None => ret None
     | Some entry =>
         if expired now entry
         then (run! delitem key in ret None)
         else ret (Some (value entry))
     end)%M
    (fun _ => ret None).

(** [set(text.split())] *)
Definition word_set (text : str) : gset str := list_to_set (split text).

(** [len(intersection) / len(union) if union else 0] *)
Definition jaccard (a b : gset str) : Q :=
  if decide (size (a ∪ b) = 0)%nat then 0%Q
  else (inject_Z (Z.of_nat (size (a ∩ b))) / inject_Z (Z.of_nat (size (a ∪ b))))%Q.

(** The default [similarity_threshold=0.3]. *)
Definition similarity_threshold : Q := (3 # 10)%Q.

(** One iteration of the loop of [_find_similar_cached_response] over
    [self.cache.values()]; the loop state is [(best_match, best_score)].
    [entry['value'].copy()] is a fresh dict: later updates of the match do
    not reach the store. *)
Definition similar_step (input_words : gset str) (threshold : Q)
    (st : option payload * Q) (entry : Cache.entry) : option payload * Q :=
  let '(best_match, best_score) := st in
  match original_message entry with
  | None => st
  | Some original =>
      let cached_message := _normalize_key original in
      let cached_words := word_set cached_message in
      if decide (size cached_words = 0)%nat then st
      else
        let similarity := jaccard input_words cached_words in
        if negb (Qle_bool similarity best_score) && Qle_bool threshold similarity
        then (Some (value entry), similarity)
        else st
  end.

Definition _find_similar_cached_response (user_message : str) (threshold : Q)
  : M BackendCache (option payload) :=
  try_except
    (let! self := get_state in
     let normalized_input := _normalize_key user_message in
     let input_words := word_set normalized_input in
     let '(best_match, best_score) :=
       List.fold_left (similar_step input_words threshold)
         (List.map snd (cache self)) (None, 0%Q) in
     ret best_match)%M
    (fun _ => ret None).

Definition cached_response_banner : str :=
  lit "**[Cached Response]** Service temporarily unavailable. Here's a previous similar response:"
  ++ [NL; NL].

(** The lines of the canned reply; [status_json] is the rendered status
    block. *)
Definition fallback_sections (user_message status_json : str) : list str :=
  [ lit "**Summary:**";
    lit "The AI service is temporarily unavailable, but I can still help you with a structured response.";
    [];
    lit "**Your Request:**";
    user_message;
    [];
    lit "**Key Points:**";
    lit "- Your message has been received and processed locally";
    lit "- This is a temporary fallback response";
    lit "- Full AI capabilities will return when the service reconnects";
    [];
    lit "**Status Information:**";
    lit "```json";
    status_json;
    lit "```";
    [];
    lit "**Next Steps:**";
    lit "- Try your request again in a few moments";
    lit "- The system will automatically reconnect when available";
    lit "- Your conversation history is preserved" ].

Definition status_dict (error_context now_iso : str) (message_length
    cache_entries : nat) : pyval :=
  VDict [ ("status", VStr (lit "fallback_mode"));
          ("reason", VStr error_context);
          ("timestamp", VStr now_iso);
          ("message_length", VNum (inject_Z (Z.of_nat message_length)));
          ("cache_entries", VNum (inject_Z (Z.of_nat cache_entries))) ].

(** The payload of the [except] branch of [get_fallback_response]. *)
Definition system_message_payload (user_message : str) : payload :=
  <["bot_response" := VStr (lit "**[System Message]** Service temporarily unavailable. Your message: '"
                            ++ take 100 user_message
                            ++ lit "...' has been received.")]>
  (<["success" := VBool true]>
  (<["final_approved" := VBool true]>
  (<["is_fallback" := VBool true]> ∅))).

(** The structured canned reply of [get_fallback_response]. *)
Definition canned_payload (user_message status_json : str) : payload :=
  <["bot_response" := VStr (join [NL] (fallback_sections user_message status_json))]>
  (<["success" := VBool true]>
  (<["final_approved" := VBool true]>
  (<["translation_info" := VNone]>
  (<["explanation_result" := VNone]>
  (<["is_fallback" := VBool true]> ∅))))).

(** Truth value of an optional dict: [None] and [{}] are falsy. *)
Definition truthy_payload (p : option payload) : option payload :=
  match p with
  | Some d => if Nat.eqb (size d) 0 then None else Some d
  | None => None
  end.

(** [get_fallback_response]. [now_iso] is [datetime.now().isoformat()]. *)
Definition get_fallback_response (user_message error_context now_iso : str)
  : M BackendCache payload :=
  try_except
    (let! similar_response :=
       _find_similar_cached_response user_message similarity_threshold in
     match truthy_payload similar_response with
     | Some similar_response =>
         match similar_response !! "bot_response" with
         | None => raise KeyError
         | Some previous =>
             ret (<["bot_response" :=
                     VStr (cached_response_banner ++ format_value previous)]>
                  similar_response)
         end
     | None =>
         let! self := get_state in
         match json_dumps (status_dict error_context now_iso
                             (length user_message) (length (cache self))) with
         | Raise e => raise e
         | Ret status_json => ret (canned_payload user_message status_json)
         end
     end)%M
    (fun _ => ret (system_message_payload user_message)).

(** [get_stats], with [now] the [time.time()] it reads. *)
Definition get_stats (now : Q) (self : BackendCache) : payload :=
  let total := length (cache self) in
  let expired_count :=
    length (List.filter (fun ke => expired now (snd ke)) (cache self)) in
  <["total_entries" := VNum (inject_Z (Z.of_nat total))]>
  (<["expired_entries" := VNum (inject_Z (Z.of_nat expired_count))]>
  (<["active_entries" := VNum (inject_Z (Z.of_nat total - Z.of_nat expired_count))]>
  (<["max_entries" := VNum (inject_Z (max_entries self))]>
  (<["default_ttl" := VNum (default_ttl self)]> ∅)))).

(** [clear] *)
Definition clear : M BackendCache unit := modify (set_cache []).

End Operations.

End Cache.

(** ** External collaborators

    Every call to a service outside the repository is recorded in a trace;
    what the service answers may depend on the calls made before it. *)

Inductive call :=
| NewTranslateClient
| DetectLanguage (text : str)
| GetLanguages
| Translate (text source target : str)
| NewChatLLM
| ModerationLLM (text : str)
| IntentLLM (text : str)
| Explain (topic : str)
| ValidatePdf (blob : str)
| GradePdf (blob rubric : str).

Class Services := {
  (** [translate.Client()] *)
  new_translate_client : list call -> outcome unit;
  (** [detect_language(text)]: the language code and the confidence *)
  detect_language : list call -> str -> outcome (str * Q);
  (** [get_languages(target_language='en')]: code and name of each language *)
  get_languages : list call -> outcome (list (str * str));
  (** [translate(text, source_language, target_language)['translatedText']] *)
  translate : list call -> str -> str -> str -> outcome str;
  (** the environment check and [ChatOpenAI(...)] of the moderation agent *)
  new_chat_llm : list call -> outcome unit;
  (** [self.llm.invoke([system_message, human_message]).content] *)
  moderation_llm : list call -> str -> outcome str;
  (** [openai_client.chat.completions.create(...)], [None] when the client
      was never initialised *)
  intent_llm : option (list call -> str -> outcome str);
  (** [explanation_agent.get_explanation], [None] when the agent was never
      initialised, and [service_status["explanation"] == "healthy"] *)
  explanation_agent : option (list call -> str -> outcome str);
  explanation_healthy : bool;
  (** grader.py: [validate_pdf_blob], and [grade_assignment_from_blob]
      with its [marks_obtained], [total_marks] and [ai_feedback] *)
  validate_pdf_blob : list call -> str -> bool;
  grade_assignment_from_blob : list call -> str -> str -> outcome (pyval * pyval * pyval);
  (** successive readings of the clock *)
  clock : nat -> Q
}.

Record World := {
  w_cache : Cache.BackendCache;
  w_trace : list call;
  w_ticks : nat
}.

Definition initial_world : World :=
  {| w_cache := Cache.cache_instance; w_trace := []; w_ticks := 0 |}.

(** Calling a collaborator: it answers from the history, and the call is
    appended to the trace. *)
Definition invoke {A} (c : call) (answer : list call -> A) : M World A :=
  fun w => (Ret (answer (w_trace w)),
            {| w_cache := w_cache w; w_trace := w_trace w ++ [c];
               w_ticks := w_ticks w |}).

(** A call whose answer may be an exception. *)
Definition invoke_raising {A} (c : call) (answer : list call -> outcome A)
  : M World A :=
  bind (invoke c answer)
       (fun r => match r with Ret a => ret a | Raise e => raise e end).

(** [time.time()] / [datetime.now()] *)
Definition read_clock `{Services} : M World Q :=
  fun w => (Ret (clock (w_ticks w)),
            {| w_cache := w_cache w; w_trace := w_trace w;
               w_ticks := S (w_ticks w) |}).

(** A method of [cache_instance] run on the cache of the world. *)
Definition on_cache {A} (m : M Cache.BackendCache A) : M World A :=
  fun w => let '(r, c) := m (w_cache w) in
           (r, {| w_cache := c; w_trace := w_trace w; w_ticks := w_ticks w |}).

(** [str(e)] for an exception [e]; the interpreter's text for a built-in
    exception is abbreviated to its name. *)
Definition exn_message (e : exn) : str :=
  match e with
  | IndexError => lit "IndexError"
  | KeyError => lit "KeyError"
  | TypeError => lit "TypeError"
  | ValueError => lit "ValueError"
  | AttributeError => lit "AttributeError"
  | ZeroDivisionError => lit "division by zero"
  | ServiceError msg => msg
  end.

(** [len(v)] *)
Definition py_len (v : pyval) : outcome nat :=
  match v with
  | VStr s => Ret (length s)
  | VList l => Ret (length l)
  | VDict d => Ret (length d)
  | _ => Raise TypeError
  end.

(** Does [f"{v:.2f}"] succeed? It does on numbers (and booleans). *)
Definition format_2f_check (v : pyval) : outcome unit :=
  match v with
  | VNum _ | VNaN | VInf _ | VBool _ => Ret tt
  | VStr _ => Raise ValueError
  | _ => Raise TypeError
  end.

(** [v < c] for a finite float constant [c]: exact on the values, false on
    NaN, [TypeError] when [v] is not a number. *)
Definition py_lt (v : pyval) (c : Q) : outcome bool :=
  match v with
  | VNum x => Ret (negb (Qle_bool c x))
  | VBool b => Ret (negb (Qle_bool c (if b then 1 else 0)))
  | VNaN => Ret false
  | VInf negative => Ret negative
  | _ => Raise TypeError
  end.

(** [d[k]] on a dict value given as an association list. *)
Fixpoint assoc (k : string) (d : list (string * pyval)) : option pyval :=
  match d with
  | [] => None
  | (k', v) :: d' => if String.eqb k k' then Some v else assoc k d'
  end.

(** [v.get(k, dflt)], [AttributeError] when [v] is not a dict. *)
Definition py_get (v : pyval) (k : string) (dflt : pyval) : outcome pyval :=
  match v with
  | VDict d => Ret (default dflt (assoc k d))
  | _ => Raise AttributeError
  end.

Definition of_nat (n : nat) : pyval := VNum (inject_Z (Z.of_nat n)).

(** ** Content_Moderation_Agent.py *)

Module Moderation.

Record ModerationState := {
  input_text : str;
  moderation_result : pyval;
  approved : bool;
  confidence : pyval;
  flagged_categories : pyval;
  explanation : pyval;
  error : option str;
  step : str;
  metadata : payload
}.

(** [if state.get("error")] *)
Definition has_error (state : ModerationState) : bool :=
  match error state with
  | Some msg => truthy_str msg
  | None => false
  end.

(** The literal [0.3] of the decision rule: the rational value of the
    double nearest to 3/10, as the interpreter compares it. *)
Definition decision_threshold : Q :=
  (5404319552844595 # 18014398509481984)%Q.

Definition _validate_input_node (state : ModerationState) : ModerationState :=
  let input_text := strip (Moderation.input_text state) in
  if negb (truthy_str input_text) then
    {| input_text := Moderation.input_text state;
       moderation_result := moderation_result state;
       approved := false;
       confidence := confidence state;
       flagged_categories := flagged_categories state;
       explanation := explanation state;
       error := Some (lit "Input text is empty or contains only whitespace");
       step := lit "validation_failed";
       metadata := {[ "validation_error" := VStr (lit "empty_input") ]} |}
  else if 10000 <? Z.of_nat (length input_text) then
    {| input_text := Moderation.input_text state;
       moderation_result := moderation_result state;
       approved := false;
       confidence := confidence state;
       flagged_categories := flagged_categories state;
       explanation := explanation state;
       error := Some (lit "Input text is too long (maximum 10,000 characters)");
       step := lit "validation_failed";
       metadata := <["validation_error" := VStr (lit "text_too_long")]>
                   {[ "length" := of_nat (length input_text) ]} |}
  else
    {| input_text := Moderation.input_text state;
       moderation_result := moderation_result state;
       approved := approved state;
       confidence := confidence state;
       flagged_categories := flagged_categories state;
       explanation := explanation state;
       error := None;
       step := lit "input_validated";
       metadata := <["input_length" := of_nat (length input_text)]>
                   {[ "input_preview" := VStr (take 100 input_text) ]} |}.

(** [state.update({"error": msg, "step": step, "approved": False,
    "metadata": {**metadata, key: detail}})] *)
Definition fail_with (state : ModerationState) (msg step : str)
    (key : string) (detail : str) : ModerationState :=
  {| input_text := input_text state;
     moderation_result := moderation_result state;
     approved := false;
     confidence := confidence state;
     flagged_categories := flagged_categories state;
     explanation := explanation state;
     error := Some msg;
     step := step;
     metadata := <[key := VStr detail]> (metadata state) |}.

(** The dict used when the reply of the model is not JSON. *)
Definition unparsed_result (content : str) : pyval :=
  VDict [ ("analysis", VStr content);
          ("inappropriate_categories", VList []);
          ("severity_score", VNum 0);
          ("confidence", VNum (1 # 2));
          ("explanation",
           VStr (lit "Analysis completed but response format was unexpected")) ].

Section Nodes.
Context `{PyRuntime} `{Services}.

Definition _analyze_content_node (state : ModerationState)
  : M World ModerationState :=
  if has_error state then ret state
  else
    try_except
      (let! content :=
         invoke_raising (ModerationLLM (input_text state)) 
           (fun h => moderation_llm h (input_text state)) in
       let moderation_result :=
         match json_loads content with
         | Some v => v
         | None => unparsed_result content
         end in
       ret {| input_text := input_text state;
              moderation_result := moderation_result;
              approved := approved state;
              confidence := confidence state;
              flagged_categories := flagged_categories state;
              explanation := explanation state;
              error := error state;
              step := lit "content_analyzed";
              metadata := <["analysis_method" := VStr (lit "chatopenai")]>
                          (<["model_response" := VStr (take 500 content)]>
                           (metadata state)) |})%M
      (fun e =>
         let error_msg := lit "Content analysis failed: " ++ exn_message e in
         ret (fail_with state error_msg (lit "analysis_failed")
                "analysis_error" (exn_message e))).

End Nodes.

(** A step that may raise, inside a pure [try] block. *)
Definition and_then {A B} (r : outcome A) (k : A -> outcome B) : outcome B :=
  match r with
  | Ret a => k a
  | Raise e => Raise e
  end.

Definition _classify_content_node (state : ModerationState) : ModerationState :=
  if has_error state then state
  else
    let body :=
      let moderation_result := moderation_result state in
      and_then (py_get moderation_result "inappropriate_categories" (VList []))
        (fun flagged_categories =>
      and_then (py_get moderation_result "severity_score" (VNum 0))
        (fun severity_score =>
      and_then (py_get moderation_result "confidence" (VNum 0))
        (fun confidence =>
      and_then (py_get moderation_result "explanation"
                  (VStr (lit "No explanation provided")))
        (fun explanation =>
      and_then (format_2f_check severity_score) (fun _ =>
      and_then (py_len flagged_categories) (fun num_flagged =>
      Ret {| input_text := input_text state;
             moderation_result := moderation_result;
             approved := approved state;
             confidence := confidence;
             flagged_categories := flagged_categories;
             explanation := explanation;
             error := error state;
             step := lit "content_classified";
             metadata := <["severity_score" := severity_score]>
                         (<["num_flagged_categories" := of_nat num_flagged]>
                          (metadata state)) |})))))) in
    match body with
    | Ret state' => state'
    | Raise e =>
        fail_with state (lit "Content classification failed: " ++ exn_message e)
          (lit "classification_failed") "classification_error" (exn_message e)
    end.

Definition _make_decision_node (state : ModerationState) : ModerationState :=
  if has_error state then state
  else
    let body :=
      let flagged_categories := flagged_categories state in
      let severity_score := dict_get (metadata state) "severity_score" (VNum 0) in
      and_then (py_len flagged_categories) (fun n =>
      and_then (if Nat.eqb n 0 then py_lt severity_score decision_threshold
                else Ret false) (fun approved =>
      Ret {| input_text := input_text state;
             moderation_result := moderation_result state;
             approved := approved;
             confidence := confidence state;
             flagged_categories := flagged_categories;
             explanation := explanation state;
             error := error state;
             step := lit "decision_made";
             metadata := <["decision_logic" := VStr (lit "no_flags_and_low_severity")]>
                         (<["decision_threshold" := VNum decision_threshold]>
                          (metadata state)) |})) in
    match body with
    | Ret state' => state'
    | Raise e =>
        fail_with state (lit "Decision making failed: " ++ exn_message e)
          (lit "decision_failed") "decision_error" (exn_message e)
    end.

Definition _finalize_result_node (state : ModerationState) : ModerationState :=
  {| input_text := input_text state;
     moderation_result := moderation_result state;
     approved := approved state;
     confidence := confidence state;
     flagged_categories := flagged_categories state;
     explanation := explanation state;
     error := error state;
     step := lit "moderation_complete";
     metadata := <["processing_completed" := VBool true]>
                 (<["final_step" := VStr (lit "finalize_result")]>
                  (metadata state)) |}.

(** The dict returned by [moderate_content]. *)
Record ModerationResult := {
  r_success : bool;
  r_input_text : str;
  r_approved : bool;
  r_confidence : pyval;
  r_flagged_categories : pyval;
  r_explanation : pyval;
  r_moderation_result : pyval;
  r_error : option str;
  r_processing_step : str;
  r_metadata : payload
}.

Definition initial_state (input_text : str) : ModerationState :=
  {| input_text := input_text;
     moderation_result := VDict [];
     approved := false;
     confidence := VNum 0;
     flagged_categories := VList [];
     explanation := VStr [];
     error := None;
     step := lit "initialized";
     metadata := <["agent_version" := VStr (lit "claude_v1_openai")]>
                 {[ "start_time" := VStr (lit "processing") ]} |}.

Section Agent.
Context `{PyRuntime} `{Services}.

(** [self.graph.invoke]: the five nodes in the order of the graph's
    edges. *)
Definition graph_invoke (state : ModerationState) : M World ModerationState :=
  (let! analyzed := _analyze_content_node (_validate_input_node state) in
   ret (_finalize_result_node
          (_make_decision_node (_classify_content_node analyzed))))%M.

Definition moderate_content (input_text : str) : M World ModerationResult :=
  try_except
    (let! final_state := graph_invoke (initial_state input_text) in
     ret {| r_success := negb (has_error final_state);
            r_input_text := Moderation.input_text final_state;
            r_approved := approved final_state;
            r_confidence := confidence final_state;
            r_flagged_categories := flagged_categories final_state;
            r_explanation := explanation final_state;
            r_moderation_result := moderation_result final_state;
            r_error := error final_state;
            r_processing_step := step final_state;
            r_metadata := metadata final_state |})%M
    (fun e =>
       ret {| r_success := false;
              r_input_text := input_text;
              r_approved := false;
              r_confidence := VNum 0;
              r_flagged_categories := VList [];
              r_explanation := VStr (lit "Moderation workflow failed");
              r_moderation_result := VDict [];
              r_error := Some (lit "Workflow execution failed: " ++ exn_message e);
              r_processing_step := lit "workflow_execution_failed";
              r_metadata := {[ "execution_error" := VStr (exn_message e) ]} |}).

(** [create_content_moderation_agent()] *)
Definition create_content_moderation_agent : M World unit :=
  invoke_raising NewChatLLM new_chat_llm.

End Agent.

End Moderation.

(** ** Language_Bridge_Agent.py *)

Module Bridge.

Record AgentState := {
  input_text : str;
  detected_language : str;
  detected_language_code : str;
  confidence : Q;
  translated_text : str;
  is_english : bool;
  error : option str;
  step : str;
  metadata : payload
}.

(** [if state.get("error")] *)
Definition has_error (state : AgentState) : bool :=
  match error state with
  | Some msg => truthy_str msg
  | None => false
  end.

(** [state.update({"error": msg, "step": step, "metadata": md})] *)
Definition fail_with (state : AgentState) (msg step : str) (md : payload)
  : AgentState :=
  {| input_text := input_text state;
     detected_language := detected_language state;
     detected_language_code := detected_language_code state;
     confidence := confidence state;
     translated_text := translated_text state;
     is_english := is_english state;
     error := Some msg;
     step := step;
     metadata := md |}.

Definition _validate_input_node (state : AgentState) : AgentState :=
  let input_text := strip (Bridge.input_text state) in
  if negb (truthy_str input_text) then
    fail_with state (lit "Input text is empty or contains only whitespace")
      (lit "validation_failed")
      {[ "validation_error" := VStr (lit "empty_input") ]}
  else if 30000 <? Z.of_nat (length input_text) then
    fail_with state
      (lit "Input text is too long (maximum 30,000 characters for Google Cloud Translation)")
      (lit "validation_failed")
      (<["validation_error" := VStr (lit "text_too_long")]>
       {[ "length" := of_nat (length input_text) ]})
  else
    {| input_text := Bridge.input_text state;
       detected_language := detected_language state;
       detected_language_code := detected_language_code state;
       confidence := confidence state;
       translated_text := translated_text state;
       is_english := is_english state;
       error := None;
       step := lit "input_validated";
       metadata := <["input_length" := of_nat (length input_text)]>
                   {[ "input_preview" := VStr (take 100 input_text) ]} |}.

(** [next((lang['name'] for lang in languages if lang['language'] == code),
    f"Language ({code})")] *)
Fixpoint language_name (languages : list (str * str)) (code : str) : str :=
  match languages with
  | [] => lit "Language (" ++ code ++ lit ")"
  | (language, name) :: rest =>
      if decide (language = code) then name else language_name rest code
  end.

Inductive route := needs_translation | already_english | route_error.

Definition _routing_decision (state : AgentState) : route :=
  if has_error state then route_error
  else if is_english state then already_english
  else needs_translation.

Definition _finalize_output_node (state : AgentState) : AgentState :=
  {| input_text := input_text state;
     detected_language := detected_language state;
     detected_language_code := detected_language_code state;
     confidence := confidence state;
     translated_text := translated_text state;
     is_english := is_english state;
     error := error state;
     step := lit "processing_complete";
     metadata := <["processing_completed" := VBool true]>
                 (<["final_step" := VStr (lit "finalize_output")]>
                  (metadata state)) |}.

(** The dict returned by [process_text]. *)
Record BridgeResult := {
  r_success : bool;
  r_input_text : str;
  r_detected_language : str;
  r_detected_language_code : str;
  r_confidence : Q;
  r_translated_text : str;
  r_is_english : bool;
  r_error : option str;
  r_processing_step : str;
  r_metadata : payload
}.

(** The dict returned by [translate_to_language] and by
    [translate_response_to_user_language]; [t_skipped] is the truth value
    of [result.get("skipped")]. *)
Record TranslationResult := {
  t_success : bool;
  t_translated_text : str;
  t_error : option str;
  t_skipped : bool;
  t_source_language : option str;
  t_target_language : option str;
  t_original_text : option str
}.

Definition initial_state (input_text : str) : AgentState :=
  {| input_text := input_text;
     detected_language := [];
     detected_language_code := [];
     confidence := 0%Q;
     translated_text := [];
     is_english := false;
     error := None;
     step := lit "initialized";
     metadata := <["agent_version" := VStr (lit "claude_v2_google_cloud")]>
                 {[ "start_time" := VStr (lit "processing") ]} |}.

Section Agent.
Context `{PyRuntime} `{Services}.

Definition _detect_language_node (state : AgentState) : M World AgentState :=
  if has_error state then ret state
  else
    try_except
      (let! detection_result :=
         invoke_raising (DetectLanguage (input_text state))
           (fun h => detect_language h (input_text state)) in
       let '(detected_code, confidence) := detection_result in
       let! languages := invoke_raising GetLanguages get_languages in
       let language_name := language_name languages detected_code in
       ret {| input_text := input_text state;
              detected_language := language_name;
              detected_language_code := detected_code;
              confidence := confidence;
              translated_text := translated_text state;
              is_english := is_english state;
              error := error state;
              step := lit "language_detected";
              metadata :=
                <["detection_confidence" := VNum confidence]>
                (<["detection_method" := VStr (lit "google_cloud_translate")]>
                (<["detection_result" :=
                    VDict [("language", VStr detected_code);
                           ("confidence", VNum confidence)]]>
                 (metadata state))) |})%M
      (fun e =>
         ret (fail_with state (lit "Language detection failed: " ++ exn_message e)
                (lit "detection_failed")
                (<["detection_error" := VStr (exn_message e)]> (metadata state)))).

Definition _check_english_node (state : AgentState) : AgentState :=
  if has_error state then state
  else
    let detected_code := detected_language_code state in
    let is_english := bool_decide (lower detected_code = lit "en") in
    {| input_text := input_text state;
       detected_language := detected_language state;
       detected_language_code := detected_language_code state;
       confidence := confidence state;
       translated_text :=
         if is_english then input_text state else translated_text state;
       is_english := is_english;
       error := error state;
       step := lit "english_check_complete";
       metadata := metadata state |}.

Definition _translate_text_node (state : AgentState) : M World AgentState :=
  if has_error state then ret state
  else
    try_except
      (let! translated_text :=
         invoke_raising
           (Translate (input_text state) (detected_language_code state) (lit "en"))
           (fun h => translate h (input_text state)
                       (detected_language_code state) (lit "en")) in
       ret {| input_text := input_text state;
              detected_language := detected_language state;
              detected_language_code := detected_language_code state;
              confidence := confidence state;
              translated_text := translated_text;
              is_english := is_english state;
              error := error state;
              step := lit "translation_complete";
              metadata :=
                <["translation_service" := VStr (lit "google_cloud_translate")]>
                (<["source_language" := VStr (detected_language_code state)]>
                (<["target_language" := VStr (lit "en")]>
                (<["translation_result" :=
                    VDict [("translatedText", VStr translated_text)]]>
                 (metadata state)))) |})%M
      (fun e =>
         ret (fail_with state (lit "Translation failed: " ++ exn_message e)
                (lit "translation_failed")
                (<["translation_error" := VStr (exn_message e)]> (metadata state)))).

(** [self.graph.invoke]: validate, detect, check, then the conditional
    edge chosen by [_routing_decision]. *)
Definition graph_invoke (state : AgentState) : M World AgentState :=
  (let! detected := _detect_language_node (_validate_input_node state) in
   let checked := _check_english_node detected in
   match _routing_decision checked with
   | needs_translation =>
       let! translated := _translate_text_node checked in
       ret (_finalize_output_node translated)
   | already_english => ret (_finalize_output_node checked)
   | route_error => ret (_finalize_output_node checked)
   end)%M.

Definition process_text (input_text : str) : M World BridgeResult :=
  try_except
    (let! final_state := graph_invoke (initial_state input_text) in
     ret {| r_success := negb (has_error final_state);
            r_input_text := Bridge.input_text final_state;
            r_detected_language := detected_language final_state;
            r_detected_language_code := detected_language_code final_state;
            r_confidence := confidence final_state;
            r_translated_text := translated_text final_state;
            r_is_english := is_english final_state;
            r_error := error final_state;
            r_processing_step := step final_state;
            r_metadata := metadata final_state |})%M
    (fun e =>
       ret {| r_success := false;
              r_input_text := input_text;
              r_detected_language := [];
              r_detected_language_code := [];
              r_confidence := 0%Q;
              r_translated_text := [];
              r_is_english := false;
              r_error := Some (lit "Workflow execution failed: " ++ exn_message e);
              r_processing_step := lit "workflow_execution_failed";
              r_metadata := {[ "execution_error" := VStr (exn_message e) ]} |}).

(** [LanguageBridgeAgent(credentials_path)] *)
Definition create_language_bridge_agent : M World unit :=
  invoke_raising NewTranslateClient new_translate_client.

Definition translate_to_language (text target_language_code
    source_language_code : str) : M World TranslationResult :=
  try_except
    (if negb (truthy_str text) || negb (truthy_str (strip text)) then
       ret {| t_success := false; t_translated_text := [];
              t_error := Some (lit "Empty text provided"); t_skipped := false;
              t_source_language := None; t_target_language := None;
              t_original_text := None |}
     else if bool_decide (lower source_language_code = lower target_language_code) then
       ret {| t_success := true; t_translated_text := text;
              t_error := None; t_skipped := true;
              t_source_language := Some source_language_code;
              t_target_language := Some target_language_code;
              t_original_text := None |}
     else
       let! translated_text :=
         invoke_raising (Translate text source_language_code target_language_code)
           (fun h => translate h text source_language_code target_language_code) in
       ret {| t_success := true; t_translated_text := translated_text;
              t_error := None; t_skipped := false;
              t_source_language := Some source_language_code;
              t_target_language := Some target_language_code;
              t_original_text := Some text |})%M
    (fun e =>
       ret {| t_success := false; t_translated_text := text;
              t_error := Some (lit "Translation failed from " ++ source_language_code
                               ++ lit " to " ++ target_language_code ++ lit ": "
                               ++ exn_message e);
              t_skipped := false;
              t_source_language := None; t_target_language := None;
              t_original_text := None |}).

End Agent.

(** *** [clean_formatting_for_translation] *)

(** [re.sub(pattern, repl, s)] for a pattern that matches no empty string:
    [match_at s] is the match of the pattern at the head of [s], given as
    the replacement text and the text left after the match. The scan
    restarts after each match, and moves one character on where there is
    none. *)
Fixpoint re_sub_fuel (match_at : str -> option (str * str)) (fuel : nat)
    (s : str) : str :=
  match fuel with
  | O => s
  | S fuel' =>
      match s with
      | [] => []
      | c :: s' =>
          match match_at s with
          | Some (repl, rest) => repl ++ re_sub_fuel match_at fuel' rest
          | None => c :: re_sub_fuel match_at fuel' s'
          end
      end
  end.

Definition re_sub (match_at : str -> option (str * str)) (s : str) : str :=
  re_sub_fuel match_at (length s) s.

(** [(.*?)\*\*] at the head of [s]: the shortest newline-free [x] with
    [s = x ++ "**" ++ rest]. *)
Fixpoint bold_close (s : str) : option (str * str) :=
  match s with
  | [] => None
  | c :: s' =>
      if startswith [STAR; STAR] s then Some ([], drop 2 s)
      else if (c =? NL)%N then None
      else match bold_close s' with
           | Some (x, rest) => Some (c :: x, rest)
           | None => None
           end
  end.

(** [\*\*(.*?)\*\*] at the head of [s], replaced by group 1. *)
Definition bold_at (s : str) : option (str * str) :=
  if startswith [STAR; STAR] s then bold_close (drop 2 s) else None.

(** The character class of [emoji_pattern]. *)
Definition in_emoji_ranges (c : char) : bool :=
  ((0x1F600 <=? c) && (c <=? 0x1F64F)
   || (0x1F300 <=? c) && (c <=? 0x1F5FF)
   || (0x1F680 <=? c) && (c <=? 0x1F6FF)
   || (0x1F1E0 <=? c) && (c <=? 0x1F1FF)
   || (0x2702 <=? c) && (c <=? 0x27B0)
   || (0x24C2 <=? c) && (c <=? 0x1F251))%N.

(** The characters of the second class, in the order of the source. *)
Definition decorative_symbols : list char :=
  [0x2705; 0x274C; 0x26A0; 0xFE0F; 0x1F3AF; 0x1F393; 0x1F4DD; 0x1F4C4;
   0x1F3C6; 0x1F3C5; 0x1F4AC; 0x1F50D; 0x1F310; 0x1F6E1; 0xFE0F; 0x1F4DA;
   0x1F4CA; 0x1F3A8; 0x1F680]%N.

Definition is_decorative (c : char) : bool :=
  existsb (fun d => (c =? d)%N) decorative_symbols.

(** The text left after the last newline of the whitespace run at the head
    of [s], if that run has a newline: the greedy [\s*\n]. *)
Fixpoint blank_close (s : str) : option str :=
  match s with
  | [] => None
  | c :: s' =>
      if is_space c then
        match blank_close s' with
        | Some rest => Some rest
        | None => if (c =? NL)%N then Some s' else None
        end
      else None
  end.

(** [\n\s*\n] at the head of [s], replaced by two newlines. *)
Definition blank_lines_at (s : str) : option (str * str) :=
  match s with
  | c :: s' =>
      if (c =? NL)%N then
        match blank_close s' with
        | Some rest => Some ([NL; NL], rest)
        | None => None
        end
      else None
  | [] => None
  end.

Fixpoint drop_spaces (s : str) : str :=
  match s with
  | c :: s' => if (c =? SP)%N then drop_spaces s' else s
  | [] => []
  end.

(** [ +] at the head of [s], replaced by one space. *)
Definition spaces_at (s : str) : option (str * str) :=
  match s with
  | c :: s' => if (c =? SP)%N then Some ([SP], drop_spaces s') else None
  | [] => None
  end.

Definition clean_formatting_for_translation (text : str) : str :=
  let text := re_sub bold_at text in
  let text := List.filter (fun c => negb (in_emoji_ranges c)) text in
  let text := List.filter (fun c => negb (is_decorative c)) text in
  let text := re_sub blank_lines_at text in
  let text := re_sub spaces_at text in
  strip text.

Section Response.
Context `{PyRuntime} `{Services}.

(** [target_language_code.lower() in ['en', 'english']] *)
Definition is_english_target (target_language_code : str) : bool :=
  bool_decide (lower target_language_code = lit "en")
  || bool_decide (lower target_language_code = lit "english").

(** The text handed to [translate_to_language]. *)
Definition text_to_translate (response_text : str) : str :=
  let clean_text := clean_formatting_for_translation response_text in
  if (length (strip clean_text) <? 10)%nat then response_text else clean_text.

Definition translate_response_to_user_language (response_text
    target_language_code : str) : M World TranslationResult :=
  try_except
    (run! create_language_bridge_agent in
     if is_english_target target_language_code then
       ret {| t_success := true; t_translated_text := response_text;
              t_error := None; t_skipped := true;
              t_source_language := None;
              t_target_language := Some target_language_code;
              t_original_text := None |}
     else if negb (truthy_str target_language_code)
             || Nat.eqb (length (strip target_language_code)) 0 then
       ret {| t_success := false; t_translated_text := response_text;
              t_error := Some (lit "Invalid target language code");
              t_skipped := false;
              t_source_language := None; t_target_language := None;
              t_original_text := None |}
     else
       translate_to_language (text_to_translate response_text)
         target_language_code (lit "en"))%M
    (fun e =>
       ret {| t_success := false; t_translated_text := response_text;
              t_error := Some (exn_message e); t_skipped := false;
              t_source_language := None; t_target_language := None;
              t_original_text := None |}).

End Response.

End Bridge.

(** ** Language_Bridge_Agent.py: [process_with_moderation] *)

Module Integration.

(** The keys that only a successful result carries. *)
Record Processed := {
  original_language : str;
  original_language_code : str;
  translation_confidence : Q;
  translated_text : str;
  is_english : bool;
  moderation_approved : bool;
  moderation_confidence : pyval;
  flagged_categories : pyval;
  moderation_explanation : pyval
}.

(** The dict returned by [process_with_moderation]. [translation_result]
    and [moderation_result] are [None] where the source stores [{}]. *)
Record ProcessResult := {
  success : bool;
  input_text : str;
  final_approved : bool;
  error : option str;
  step : str;
  translation_result : option Bridge.BridgeResult;
  moderation_result : option Moderation.ModerationResult;
  processed : option Processed
}.

Definition error_text (e : option str) : str :=
  match e with
  | Some msg => msg
  | None => lit "None"
  end.

Section Pipeline.
Context `{PyRuntime} `{Services}.

Definition process_with_moderation (input_text : str) : M World ProcessResult :=
  try_except
    (run! Bridge.create_language_bridge_agent in
     run! Moderation.create_content_moderation_agent in
     let! translation_result := Bridge.process_text input_text in
     if negb (Bridge.r_success translation_result) then
       ret {| success := false; input_text := input_text;
              final_approved := false;
              error := Some (lit "Translation failed: "
                             ++ error_text (Bridge.r_error translation_result));
              step := lit "translation_failed";
              translation_result := Some translation_result;
              moderation_result := None;
              processed := None |}
     else
       let translated_text := Bridge.r_translated_text translation_result in
       let! moderation_result := Moderation.moderate_content translated_text in
       if negb (Moderation.r_success moderation_result) then
         ret {| success := false; input_text := input_text;
                final_approved := false;
                error := Some (lit "Moderation failed: "
                               ++ error_text (Moderation.r_error moderation_result));
                step := lit "moderation_failed";
                translation_result := Some translation_result;
                moderation_result := Some moderation_result;
                processed := None |}
       else
         let final_approved := Moderation.r_approved moderation_result in
         ret {| success := true; input_text := input_text;
                final_approved := final_approved;
                error := None;
                step := lit "completed";
                translation_result := Some translation_result;
                moderation_result := Some moderation_result;
                processed := Some
                  {| original_language := Bridge.r_detected_language translation_result;
                     original_language_code :=
                       Bridge.r_detected_language_code translation_result;
                     translation_confidence := Bridge.r_confidence translation_result;
                     translated_text := Bridge.r_translated_text translation_result;
                     is_english := Bridge.r_is_english translation_result;
                     moderation_approved := Moderation.r_approved moderation_result;
                     moderation_confidence := Moderation.r_confidence moderation_result;
                     flagged_categories :=
                       Moderation.r_flagged_categories moderation_result;
                     moderation_explanation :=
                       Moderation.r_explanation moderation_result |} |})%M
    (fun e =>
       ret {| success := false; input_text := input_text;
              final_approved := false;
              error := Some (lit "Integrated processing failed: " ++ exn_message e);
              step := lit "integration_failed";
              translation_result := None;
              moderation_result := None;
              processed := None |}).

End Pipeline.

End Integration.

(** ** api_server.py: intent classification and the chat endpoint *)

Module Chat.

Record ChatMessage := {
  message : str;
  user_id : option str;
  session_id : option str;
  pdf_file : option str
}.

Record ChatResponse := {
  success : bool;
  user_message : str;
  bot_response : str;
  translation_info : pyval;
  moderation_info : pyval;
  grading_result : pyval;
  explanation_result : pyval;
  final_approved : bool;
  timestamp : str;
  error : option str
}.

(** The texts of the endpoint. *)

Definition empty_input_reply : str :=
  lit "Please enter a message or upload a PDF file for me to process.".

Definition empty_input_error : str :=
  lit "Empty input".

Definition cached_prefix : str :=
  lit "**[Cached Response]** ".

Definition translated_from : str :=
  [0x1F310%N] ++ lit " **Translated from ".

Definition translated_sep : str :=
  lit ":** ".

Definition message_received : str :=
  [0x1F4AC%N] ++ lit " **Message received and processed.**".

Definition processing_document : str :=
  [0x1F4DD%N] ++ lit " **Processing your document for grading...**".

Definition please_upload : str :=
  [0x1F4C4%N] ++ lit " **Please upload a PDF file to grade.**".

Definition want_grade : str :=
  [0x1F914%N] ++ lit " **Want me to grade something?** Please upload a PDF file and be more specific.".

Definition explain_head : str :=
  [0x1F393%N] ++ lit " **Here's what I can tell you about ".

Definition explain_sep : str :=
  lit ":**" ++ [NL; NL].

Definition explain_failed : str :=
  [0x274C%N] ++ lit " **Sorry, I couldn't generate an explanation right now. Please try again.**".

Definition explain_unavailable : str :=
  [0x274C%N] ++ lit " **Sorry, the explanation service is currently unavailable.**".

Definition want_explain : str :=
  [0x1F914%N] ++ lit " **Want me to explain something?** Please be more specific about the topic.".

Definition thanks : str :=
  [0x1F4AC%N] ++ lit " **Thanks for your message!** How can I help you today?".

Definition understood : str :=
  [0x1F4AC%N] ++ lit " **Thank you for your message. I understand what you're saying.**".

Definition rejected_notice : str :=
  [0x274C%N] ++ lit " **Sorry, I can't process this message as it doesn't meet our content guidelines. Please try rephrasing your request.**".

Definition could_not_process : str :=
  [0x274C%N] ++ lit " **Sorry, I encountered an issue processing your message. Please try again.**".

Definition pdf_received : str :=
  [0x1F4C4%N] ++ lit " **PDF file received** - Processing for grading...".

Definition invalid_pdf : str :=
  [0x274C%N] ++ lit " **Invalid PDF file.** Please upload a valid PDF document.".

Definition pdf_failed : str :=
  [0x274C%N] ++ lit " **Sorry, I couldn't process your PDF file. Please make sure it's a valid document and try again.**".

Definition pdf_seen : str :=
  [0x1F4C4%N] ++ lit " **I see you've uploaded a PDF file.** If you'd like me to grade it, just ask me to evaluate or assess your work!".

Definition processing_completed : str :=
  [0x2705%N] ++ lit " Processing completed!".

Definition pdf_file_uploaded : str :=
  lit "PDF file uploaded".

Definition cached_fallback_prefix : str :=
  lit "**[Cached Fallback]** Service temporarily unavailable. Here's a previous response:" ++ [NL; NL].

Definition technical_difficulties : str :=
  lit "Sorry, I'm experiencing technical difficulties. Please try again later.".

Definition globe : str :=
  [0x1F310%N].

Definition grade_head : str :=
  lit " **Your Grade: ".

Definition grade_performance : str :=
  lit "%)**" ++ [NL; NL; 0x1F3C5%N] ++ lit " **Performance:** ".

Definition grade_feedback : str :=
  [NL; NL; 0x1F4DD%N] ++ lit " **Feedback:**" ++ [NL].

Definition contextual_rubric (user_context : str) : str :=
  [NL] ++ lit "                            Based on the user's request: " ++ [QUOTE]
  ++ user_context ++
  [QUOTE; NL] ++ lit "                            " ++ [NL] ++
  lit "                            Grading Criteria:" ++ [NL] ++
  lit "                            - Content Quality and Relevance (40 marks)" ++ [NL] ++
  lit "                            - Clarity and Understanding (25 marks)" ++ [NL] ++
  lit "                            - Organization and Structure (20 marks)" ++ [NL] ++
  lit "                            - Grammar and Presentation (15 marks)" ++ [NL] ++
  lit "                            " ++ [NL] ++
  lit "                            Instructions:" ++ [NL] ++
  lit "                            - Provide specific feedback related to the user's request" ++ [NL] ++
  lit "                            - Ignore minor syntax/grammar mistakes" ++ [NL] ++
  lit "                            - Focus on content accuracy and comprehension" ++ [NL] ++
  lit "                            - Give constructive suggestions for improvement" ++ [NL] ++
  lit "                            ".

Definition default_rubric : str :=
  [NL] ++ lit "                            General Assignment Grading Criteria:" ++ [NL] ++
  lit "                            - Content Quality and Accuracy (40 marks)" ++ [NL] ++
  lit "                            - Clarity of Explanation (30 marks)" ++ [NL] ++
  lit "                            - Organization and Structure (20 marks)" ++ [NL] ++
  lit "                            - Grammar and Presentation (10 marks)" ++ [NL] ++
  lit "                            " ++ [NL] ++
  lit "                            Instructions:" ++ [NL] ++
  lit "                            - Ignore minor syntax/grammar mistakes" ++ [NL] ++
  lit "                            - Provide constructive feedback" ++ [NL] ++
  lit "                            - Focus on overall understanding and presentation" ++ [NL] ++
  lit "                            ".

(** [x and x.strip()] as a truth value. *)
Definition has_text (x : str) : bool :=
  truthy_str x && truthy_str (strip x).

(** Truth value of an optional string: [None] and [""] are falsy. *)
Definition truthy_opt (x : option str) : bool :=
  match x with
  | Some s => truthy_str s
  | None => false
  end.

(** [v == s] for a string literal [s] *)
Definition is_str (v : pyval) (s : str) : bool :=
  match v with
  | VStr x => bool_decide (x = s)
  | _ => false
  end.

(** [k in v] for a string literal key, as the interpreter evaluates it on a
    dict, a list or a string. *)
Fixpoint is_infix (p s : str) : bool :=
  startswith p s || match s with [] => false | _ :: s' => is_infix p s' end.

Definition py_contains (v : pyval) (k : string) : outcome bool :=
  match v with
  | VDict d => Ret (bool_decide (is_Some (assoc k d)))
  | VList l => Ret (existsb (fun x => is_str x (lit k)) l)
  | VStr s => Ret (is_infix (lit k) s)
  | _ => Raise TypeError
  end.

(** [float(v)] *)
Definition py_float `{PyRuntime} (v : pyval) : outcome pyval :=
  match v with
  | VNum _ | VNaN | VInf _ => Ret v
  | VBool b => Ret (VNum (if b then 1 else 0))
  | VStr s =>
      match float_of_str s with
      | Ret (VNum x) => Ret (VNum x)
      | Ret VNaN => Ret VNaN
      | Ret (VInf n) => Ret (VInf n)
      | Ret _ => Raise ValueError
      | Raise e => Raise e
      end
  | _ => Raise TypeError
  end.

(** [max(0.0, min(1.0, x))] on a float: [min] and [max] keep their first
    argument unless the second compares smaller (larger). *)
Definition clamp01 (x : pyval) : Q :=
  match x with
  | VNum q => if Qle_bool 1 q then 1%Q else if Qle_bool q 0 then 0%Q else q
  | VInf true => 0%Q
  | _ => 1%Q
  end.

(** The dict returned by [classify_user_intent]. *)
Record IntentResult := {
  intent : pyval;
  confidence : Q;
  reasoning : pyval
}.

(** Validation of a field by the response model; the coercions pydantic
    applies to other values are outside the embedding. *)
Definition validate_bool (v : pyval) : outcome bool :=
  match v with
  | VBool b => Ret b
  | _ => Raise ValueError
  end.

Definition validate_optional_dict (v : pyval) : outcome pyval :=
  match v with
  | VNone | VDict _ => Ret v
  | _ => Raise ValueError
  end.

Definition lift {S A} (r : outcome A) : M S A :=
  match r with
  | Ret a => ret a
  | Raise e => raise e
  end.

(** [d[k]] on a dict that may lack the key. *)
Definition need {S A} (x : option A) : M S A :=
  match x with
  | Some a => ret a
  | None => raise KeyError
  end.

(** The local variables of [chat_endpoint] that its steps update. *)
Record Locals := {
  l_translation_info : pyval;
  l_moderation_info : pyval;
  l_grading_result : pyval;
  l_explanation_result : pyval;
  l_final_approved : bool;
  l_bot_response_parts : list str;
  l_original_language_code : option str;
  l_should_grade_pdf : bool
}.

Definition initial_locals : Locals :=
  {| l_translation_info := VNone; l_moderation_info := VNone;
     l_grading_result := VNone; l_explanation_result := VNone;
     l_final_approved := true; l_bot_response_parts := [];
     l_original_language_code := None; l_should_grade_pdf := false |}.

Definition append_part (part : str) (l : Locals) : Locals :=
  {| l_translation_info := l_translation_info l;
     l_moderation_info := l_moderation_info l;
     l_grading_result := l_grading_result l;
     l_explanation_result := l_explanation_result l;
     l_final_approved := l_final_approved l;
     l_bot_response_parts := l_bot_response_parts l ++ [part];
     l_original_language_code := l_original_language_code l;
     l_should_grade_pdf := l_should_grade_pdf l |}.

Definition set_should_grade (b : bool) (l : Locals) : Locals :=
  {| l_translation_info := l_translation_info l;
     l_moderation_info := l_moderation_info l;
     l_grading_result := l_grading_result l;
     l_explanation_result := l_explanation_result l;
     l_final_approved := l_final_approved l;
     l_bot_response_parts := l_bot_response_parts l;
     l_original_language_code := l_original_language_code l;
     l_should_grade_pdf := b |}.

Definition set_grading_result (v : pyval) (l : Locals) : Locals :=
  {| l_translation_info := l_translation_info l;
     l_moderation_info := l_moderation_info l;
     l_grading_result := v;
     l_explanation_result := l_explanation_result l;
     l_final_approved := l_final_approved l;
     l_bot_response_parts := l_bot_response_parts l;
     l_original_language_code := l_original_language_code l;
     l_should_grade_pdf := l_should_grade_pdf l |}.

Definition set_explanation_result (v : pyval) (l : Locals) : Locals :=
  {| l_translation_info := l_translation_info l;
     l_moderation_info := l_moderation_info l;
     l_grading_result := l_grading_result l;
     l_explanation_result := v;
     l_final_approved := l_final_approved l;
     l_bot_response_parts := l_bot_response_parts l;
     l_original_language_code := l_original_language_code l;
     l_should_grade_pdf := l_should_grade_pdf l |}.

(** A number as the float arithmetic sees it: booleans count as 0 and 1. *)
Definition as_number (v : pyval) : outcome pyval :=
  match v with
  | VNum _ | VNaN | VInf _ => Ret v
  | VBool b => Ret (VNum (if b then 1 else 0))
  | _ => Raise TypeError
  end.

(** [percentage = (marks / total) * 100], on exact values: a zero divisor
    raises, NaN propagates, and an infinity keeps or flips its sign. *)
Definition percentage_of (marks total : pyval) : outcome pyval :=
  match as_number marks, as_number total with
  | Ret m, Ret t =>
      match m, t with
      | VNum a, VNum b =>
          if Qeq_bool b 0 then Raise ZeroDivisionError
          else Ret (VNum (a / b * 100))
      | VNaN, VNum b | VInf _, VNum b =>
          if Qeq_bool b 0 then Raise ZeroDivisionError
          else match m with
               | VInf n => Ret (VInf (xorb n (negb (Qle_bool 0 b))))
               | _ => Ret VNaN
               end
      | VNum _, VInf _ => Ret (VNum 0)
      | _, _ => Ret VNaN
      end
  | Raise e, _ => Raise e
  | _, Raise e => Raise e
  end.

(** [v >= c] for a number [v] and a finite constant [c]. *)
Definition py_ge (v : pyval) (c : Q) : bool :=
  match v with
  | VNum x => Qle_bool c x
  | VInf negative => negb negative
  | _ => false
  end.

(** The emoji and the band of a percentage. *)
Definition grade_band (percentage : pyval) : str * str :=
  if py_ge percentage 90 then ([0x1F3C6%N], lit "Excellent")
  else if py_ge percentage 80 then ([0x1F389%N], lit "Very Good")
  else if py_ge percentage 70 then ([0x2705%N], lit "Good")
  else if py_ge percentage 60 then ([0x1F44D%N], lit "Satisfactory")
  else if py_ge percentage 50 then ([0x26A0%N; 0xFE0F%N], lit "Needs Improvement")
  else ([0x274C%N], lit "Unsatisfactory").

(** [translation_info and translation_info.get("original_language") !=
    "English"] *)
Definition needs_back_translation (translation_info : pyval) : bool :=
  match translation_info with
  | VDict [] => false
  | VDict d => negb (is_str (default VNone (assoc "original_language" d)) (lit "English"))
  | _ => false
  end.

(** Truth value of [translation_info], which is [None] or a dict. *)
Definition truthy_info (translation_info : pyval) : bool :=
  match translation_info with
  | VDict [] => false
  | VDict _ => true
  | _ => false
  end.

Section Endpoint.
Context `{PyRuntime} `{Services}.

Definition classify_user_intent (user_message : str) : M World IntentResult :=
  match intent_llm with
  | None =>
      ret {| intent := VStr (lit "unknown"); confidence := 0%Q;
             reasoning := VStr (lit "OpenAI client not available") |}
  | Some completion =>
      try_except
        (let! content :=
           invoke_raising (IntentLLM user_message)
             (fun h => completion h user_message) in
         let! result := lift (match json_loads content with
                              | Some v => Ret v
                              | None => Raise ValueError
                              end) in
         let! has_intent := lift (py_contains result "intent") in
         let! has_both :=
           if has_intent then lift (py_contains result "confidence")
           else ret false in
         if negb has_both then raise ValueError
         else
           let! raw := lift (py_get result "confidence" (VNum (1 # 2))) in
           let! x := lift (py_float raw) in
           let! intent := lift (py_get result "intent" VNone) in
           let! reasoning := lift (py_get result "reasoning" (VStr [])) in
           ret {| intent := intent; confidence := clamp01 x;
                  reasoning := reasoning |})%M
        (fun e =>
           ret {| intent := VStr (lit "general"); confidence := 0%Q;
                  reasoning := VStr (lit "Classification failed: " ++ exn_message e) |})
  end.

(** The explanation branch of step 2.5: the new [explanation_result] and
    the response parts it appends. *)
Definition explanation_step (should_explain : bool) (intent_result : IntentResult)
    (translated_text : str) (original_language_code : option str)
  : M World (pyval * list str) :=
  match (if should_explain && explanation_healthy then explanation_agent else None) with
  | Some get_explanation =>
      try_except
        (let! explanation_text :=
           invoke_raising (Explain translated_text)
             (fun h => get_explanation h translated_text) in
         let! explanation_text :=
           match original_language_code with
           | Some code =>
               if truthy_str code then
                 try_except
                   (let! explanation_translation :=
                      Bridge.translate_response_to_user_language explanation_text code in
                    ret (if Bridge.t_success explanation_translation
                            && negb (Bridge.t_skipped explanation_translation)
                         then Bridge.t_translated_text explanation_translation
                         else explanation_text))
                   (fun _ => ret explanation_text)
               else ret explanation_text
           | None => ret explanation_text
           end in
         ret (VDict [ ("topic", VStr translated_text);
                      ("explanation", VStr explanation_text);
                      ("intent_confidence", VNum (confidence intent_result));
                      ("reasoning", reasoning intent_result) ],
              [explain_head ++ translated_text ++ explain_sep ++ explanation_text]))%M
        (fun _ => ret (VNone, [explain_failed]))
  | None =>
      if should_explain then ret (VNone, [explain_unavailable])
      else if is_str (intent intent_result) (lit "explanation")
              && Qle_bool (confidence intent_result) (1 # 2)
      then ret (VNone, [want_explain])
      else if is_str (intent intent_result) (lit "general")
      then ret (VNone, [thanks])
      else ret (VNone, [])
  end.

(** Step 1 and 2 of the endpoint: translation, moderation and intent of a
    text message. *)
Definition message_step (request : ChatMessage) (l : Locals) : M World Locals :=
  if has_text (message request) then
    (let! result := Integration.process_with_moderation (message request) in
     if Integration.success result then
       let! p := need (Integration.processed result) in
       let final_approved := Integration.final_approved result in
       let original_language_code :=
         if negb (Integration.is_english p)
         then Some (Integration.original_language_code p) else None in
       let translation_info :=
         if negb (Integration.is_english p)
         then VDict [ ("original_language", VStr (Integration.original_language p));
                      ("translated_text", VStr (Integration.translated_text p));
                      ("confidence", VNum (Integration.translation_confidence p)) ]
         else VNone in
       let moderation_info :=
         VDict [ ("approved", VBool (Integration.moderation_approved p));
                 ("confidence", Integration.moderation_confidence p);
                 ("flagged_categories", Integration.flagged_categories p);
                 ("explanation", Integration.moderation_explanation p) ] in
       let! intent_result := classify_user_intent (Integration.translated_text p) in
       let confident := negb (Qle_bool (confidence intent_result) (1 # 2)) in
       let should_grade_pdf :=
         is_str (intent intent_result) (lit "grading") && confident in
       let should_explain :=
         is_str (intent intent_result) (lit "explanation") && confident in
       if Integration.final_approved result then
         let parts :=
           l_bot_response_parts l ++
           [ if negb (Integration.is_english p)
             then translated_from ++ Integration.original_language p
                  ++ translated_sep ++ Integration.translated_text p
             else message_received ] in
         let parts :=
           if should_grade_pdf && truthy_opt (pdf_file request)
           then parts ++ [processing_document]
           else if should_grade_pdf && negb (truthy_opt (pdf_file request))
           then parts ++ [please_upload]
           else if is_str (intent intent_result) (lit "grading")
                   && Qle_bool (confidence intent_result) (1 # 2)
           then parts ++ [want_grade]
           else parts in
         let! explained :=
           explanation_step should_explain intent_result
             (Integration.translated_text p) original_language_code in
         let '(explanation_result, explanation_parts) := explained in
         let parts := parts ++ explanation_parts in
         let parts :=
           if negb (Integration.is_english p)
              && Nat.eqb (length (List.filter
                                    (fun part => negb (startswith globe part)) parts)) 0
           then parts ++ [understood]
           else parts in
         ret {| l_translation_info := translation_info;
                l_moderation_info := moderation_info;
                l_grading_result := l_grading_result l;
                l_explanation_result := explanation_result;
                l_final_approved := final_approved;
                l_bot_response_parts := parts;
                l_original_language_code := original_language_code;
                l_should_grade_pdf := should_grade_pdf |}
       else
         ret {| l_translation_info := translation_info;
                l_moderation_info := moderation_info;
                l_grading_result := l_grading_result l;
                l_explanation_result := l_explanation_result l;
                l_final_approved := final_approved;
                l_bot_response_parts := l_bot_response_parts l ++ [rejected_notice];
                l_original_language_code := original_language_code;
                l_should_grade_pdf := false |}
     else
       ret (set_should_grade false (append_part could_not_process l)))%M
  else ret l.

(** Step 3 of the endpoint: the attached document. *)
Definition pdf_step (request : ChatMessage) (l : Locals) : M World Locals :=
  match pdf_file request with
  | Some blob =>
      if truthy_str blob then
        let l :=
          if negb (has_text (message request))
          then append_part pdf_received (set_should_grade true l)
          else l in
        if l_should_grade_pdf l then
          try_except
            (let! valid :=
               invoke (ValidatePdf blob) (fun h => validate_pdf_blob h blob) in
             if negb valid then ret (append_part invalid_pdf l)
             else
               let! custom_rubric :=
                 if has_text (message request) && truthy_info (l_translation_info l)
                 then
                   match l_translation_info l with
                   | VDict d =>
                       let! user_context := need (assoc "translated_text" d) in
                       ret (contextual_rubric (format_value user_context))
                   | _ => raise TypeError
                   end
                 else ret default_rubric in
               let! graded :=
                 invoke (GradePdf blob custom_rubric)
                   (fun h => grade_assignment_from_blob h blob custom_rubric) in
               match graded with
               | Raise _ => ret (append_part pdf_failed l)
               | Ret (marks_obtained, total_marks, ai_feedback) =>
                   let l :=
                     set_grading_result
                       (VDict [ ("marks_obtained", marks_obtained);
                                ("total_marks", total_marks);
                                ("ai_feedback", ai_feedback) ]) l in
                   match percentage_of marks_obtained total_marks with
                   | Raise _ => ret (append_part pdf_failed l)
                   | Ret percentage =>
                       let '(grade_emoji, grade_level) := grade_band percentage in
                       ret (append_part
                              (grade_emoji ++ grade_head ++ format_value marks_obtained
                               ++ lit "/" ++ format_value total_marks ++ lit " ("
                               ++ format_1f percentage ++ grade_performance
                               ++ grade_level ++ grade_feedback
                               ++ format_value ai_feedback) l)
                   end
               end)%M
            (fun _ => ret (append_part pdf_failed l))
        else ret (append_part pdf_seen l)
      else ret l
  | None => ret l
  end.

(** [cache_instance.get(message, has_pdf=False)]: the clock is read only
    when the key is in the store. *)
Definition cache_get (user_message : str) : M World (option payload) :=
  (let! w := get_state in
   if Cache.contains (Cache._generate_key user_message false)
        (Cache.cache (w_cache w))
   then (let! now := read_clock in on_cache (Cache.get user_message false now))
   else on_cache (Cache.get user_message false 0%Q))%M.

(** [cache_instance.put(message, response_data, has_pdf=False)] *)
Definition cache_put (user_message : str) (response_data : payload)
  : M World unit :=
  (let! now := read_clock in
   let! now' := read_clock in
   on_cache (Cache.put user_message response_data false None now now'))%M.

Definition now_iso : M World str :=
  (let! now := read_clock in ret (isoformat now))%M.

(** The response built from a cache hit, with the given prefix. *)
Definition cached_reply (prefix user_message : str) (success : option bool)
    (cached_response : payload) : M World ChatResponse :=
  (let! previous := need (cached_response !! "bot_response") in
   let! timestamp := now_iso in
   let! success :=
     match success with
     | Some b => ret b
     | None => lift (validate_bool (dict_get cached_response "success" (VBool true)))
     end in
   let! translation_info :=
     lift (validate_optional_dict (dict_get cached_response "translation_info" VNone)) in
   let! explanation_result :=
     lift (validate_optional_dict (dict_get cached_response "explanation_result" VNone)) in
   let! final_approved :=
     lift (validate_bool (dict_get cached_response "final_approved" (VBool true))) in
   ret {| success := success;
          user_message := user_message;
          bot_response := prefix ++ format_value previous;
          translation_info := translation_info;
          moderation_info := VNone;
          grading_result := VNone;
          explanation_result := explanation_result;
          final_approved := final_approved;
          timestamp := timestamp;
          error := None |})%M.

(** The endpoint after validation and the cache check. *)
Definition run_pipeline (request : ChatMessage) : M World ChatResponse :=
  (let cache_key_message := message request in
   let has_pdf := truthy_opt (pdf_file request) in
   let! l := message_step request initial_locals in
   let! l := pdf_step request l in
   let bot_response_parts := l_bot_response_parts l in
   let final_bot_response :=
     if (1 <? length bot_response_parts)%nat then join [NL; NL] bot_response_parts
     else match bot_response_parts with
          | [part] => part
          | _ => processing_completed
          end in
   let! final_bot_response :=
     if needs_back_translation (l_translation_info l) then
       try_except
         (match l_original_language_code l with
          | Some code =>
              if truthy_str code then
                let! response_translation :=
                  Bridge.translate_response_to_user_language final_bot_response code in
                ret (if Bridge.t_success response_translation
                        && negb (Bridge.t_skipped response_translation)
                     then Bridge.t_translated_text response_translation
                     else final_bot_response)
              else ret final_bot_response
          | None => ret final_bot_response
          end)
         (fun _ => ret final_bot_response)
     else ret final_bot_response in
   let response_data : payload :=
     <["success" := VBool true]>
     (<["bot_response" := VStr final_bot_response]>
     (<["translation_info" := l_translation_info l]>
     (<["explanation_result" := l_explanation_result l]>
     (<["final_approved" := VBool (l_final_approved l)]> ∅)))) in
   run! (if truthy_str (strip cache_key_message) && negb has_pdf && l_final_approved l
         then try_except (cache_put cache_key_message response_data)
                (fun _ => ret tt)
         else ret tt) in
   let! timestamp := now_iso in
   ret {| success := true;
          user_message := if truthy_str (message request) then message request
                          else pdf_file_uploaded;
          bot_response := final_bot_response;
          translation_info := l_translation_info l;
          moderation_info := l_moderation_info l;
          grading_result := l_grading_result l;
          explanation_result := l_explanation_result l;
          final_approved := l_final_approved l;
          timestamp := timestamp;
          error := None |})%M.

(** The [except] branch of the endpoint. *)
Definition error_fallback (request : ChatMessage) (e : exn) : M World ChatResponse :=
  let fallback_message :=
    if truthy_str (message request) then message request else pdf_file_uploaded in
  let has_pdf := truthy_opt (pdf_file request) in
  (let! attempt :=
     try_except
       (if truthy_str (strip fallback_message) && negb has_pdf then
          let! cached_response := cache_get fallback_message in
          match Cache.truthy_payload cached_response with
          | Some cached_response =>
              let! response :=
                cached_reply cached_fallback_prefix fallback_message (Some true)
                  cached_response in
              ret (Some response)
          | None =>
              let! iso := now_iso in
              let! fallback_response :=
                on_cache (Cache.get_fallback_response fallback_message
                            (lit "service_error") iso) in
              let! reply := need (fallback_response !! "bot_response") in
              let! timestamp := now_iso in
              ret (Some {| success := true;
                           user_message := fallback_message;
                           bot_response := format_value reply;
                           translation_info := VNone;
                           moderation_info := VNone;
                           grading_result := VNone;
                           explanation_result := VNone;
                           final_approved := true;
                           timestamp := timestamp;
                           error := None |})
          end
        else ret None)
       (fun _ => ret None) in
   match attempt with
   | Some response => ret response
   | None =>
       let! timestamp := now_iso in
       ret {| success := false;
              user_message := fallback_message;
              bot_response := technical_difficulties;
              translation_info := VNone;
              moderation_info := VNone;
              grading_result := VNone;
              explanation_result := VNone;
              final_approved := false;
              timestamp := timestamp;
              error := Some (exn_message e) |}
   end)%M.

Definition chat_endpoint (request : ChatMessage) : M World ChatResponse :=
  try_except
    (if negb (has_text (message request)) && negb (truthy_opt (pdf_file request))
     then
       let! timestamp := now_iso in
       ret {| success := false;
              user_message := message request;
              bot_response := empty_input_reply;
              translation_info := VNone;
              moderation_info := VNone;
              grading_result := VNone;
              explanation_result := VNone;
              final_approved := false;
              timestamp := timestamp;
              error := Some empty_input_error |}
     else
       let cache_key_message := message request in
       let has_pdf := truthy_opt (pdf_file request) in
       let! cached_response :=
         if truthy_str (strip cache_key_message) && negb has_pdf
         then cache_get cache_key_message
         else ret None in
       match Cache.truthy_payload cached_response with
       | Some cached_response =>
           cached_reply cached_prefix cache_key_message None cached_response
       | None => run_pipeline request
       end)%M
    (error_fallback request).

End Endpoint.

End Chat.

(** ** An environment for evaluation

    A runtime and two sets of collaborators on which the embedding runs by
    computation. The runtime agrees with the interpreter on ASCII text; its
    number and JSON functions are defined on the values the examples use:
    [json_dumps] renders a flat dict of plain strings and naturals,
    [json_loads] knows the one reply of [moderation_reply]. *)

Module Example.

Definition decimal (n : nat) : str := lit (pretty n).

Definition show_value (v : pyval) : str :=
  match v with
  | VNone => lit "None"
  | VBool true => lit "True"
  | VBool false => lit "False"
  | VNum x => lit (pretty (Qnum x))
  | VNaN => lit "nan"
  | VInf negative => if negative then lit "-inf" else lit "inf"
  | VStr s => s
  | VList _ => lit "[...]"
  | VDict _ => lit "{...}"
  end.

Definition is_plain (s : str) : bool :=
  forallb (fun c => (32 <=? c)%N && (c <? 127)%N
                    && negb (c =? QUOTE)%N && negb (c =? 92)%N) s.

Definition json_item (kv : string * pyval) : option str :=
  match snd kv with
  | VStr s =>
      if is_plain s
      then Some (lit "  " ++ [QUOTE] ++ lit (fst kv) ++ [QUOTE] ++ lit ": "
                 ++ [QUOTE] ++ s ++ [QUOTE])
      else None
  | VNum x =>
      if (Qden x =? 1)%positive && (0 <=? Qnum x)
      then Some (lit "  " ++ [QUOTE] ++ lit (fst kv) ++ [QUOTE] ++ lit ": "
                 ++ lit (pretty (Qnum x)))
      else None
  | _ => None
  end.

Definition dumps (v : pyval) : outcome str :=
  match v with
  | VDict d =>
      match mapM json_item d with
      | Some items => Ret (lit "{" ++ [NL] ++ join (lit "," ++ [NL]) items
                           ++ [NL] ++ lit "}")
      | None => Raise TypeError
      end
  | _ => Raise TypeError
  end.

(** A reply of the moderation model and the dict [json.loads] makes of
    it. *)
Definition moderation_reply : str :=
  lit "{" ++ [QUOTE] ++ lit "analysis" ++ [QUOTE] ++ lit ": " ++ [QUOTE]
  ++ lit "friendly greeting" ++ [QUOTE] ++ lit ", " ++ [QUOTE]
  ++ lit "inappropriate_categories" ++ [QUOTE] ++ lit ": [], " ++ [QUOTE]
  ++ lit "severity_score" ++ [QUOTE] ++ lit ": 0.0, " ++ [QUOTE]
  ++ lit "confidence" ++ [QUOTE] ++ lit ": 1.0, " ++ [QUOTE]
  ++ lit "explanation" ++ [QUOTE] ++ lit ": " ++ [QUOTE] ++ lit "clean" ++ [QUOTE]
  ++ lit "}".

Definition moderation_reply_value : pyval :=
  VDict [ ("analysis", VStr (lit "friendly greeting"));
          ("inappropriate_categories", VList []);
          ("severity_score", VNum 0);
          ("confidence", VNum 1);
          ("explanation", VStr (lit "clean")) ].

Definition loads (s : str) : option pyval :=
  if decide (s = moderation_reply) then Some moderation_reply_value else None.

Definition runtime : PyRuntime :=
  {| lower := ascii_lower;
     lower_ascii := fun s _ => eq_refl;
     md5_hexdigest := MD5.hexdigest;
     str_of_value := show_value;
     json_dumps := dumps;
     json_loads := loads;
     isoformat := fun t => lit (pretty (Qnum t));
     float_of_str := fun _ => Raise ValueError;
     format_1f := fun v => show_value v ++ lit ".0" |}.

(** Text that begins with "Hola" is detected as Spanish, any other text as
    English; a translation is the text marked with its target. *)
Definition detect (text : str) : str * Q :=
  if startswith (lit "Hola") text then (lit "es", (98 # 100)%Q) else (lit "en", 1%Q).

(** Collaborators that all answer. *)
Definition online : Services :=
  {| new_translate_client := fun _ => Ret tt;
     detect_language := fun _ text => Ret (detect text);
     get_languages := fun _ => Ret [(lit "en", lit "English"); (lit "es", lit "Spanish")];
     translate := fun _ text source target => Ret (lit "<" ++ target ++ lit "> " ++ text);
     new_chat_llm := fun _ => Ret tt;
     moderation_llm := fun _ _ => Ret moderation_reply;
     intent_llm := None;
     explanation_agent := None;
     explanation_healthy := false;
     validate_pdf_blob := fun _ _ => false;
     grade_assignment_from_blob := fun _ _ _ => Raise (ServiceError (lit "offline"));
     clock := fun n => inject_Z (Z.of_nat n) |}.

(** Collaborators without credentials: the translation client cannot be
    built. *)
Definition offline : Services :=
  {| new_translate_client := fun _ => Raise (ServiceError (lit "credentials not found"));
     detect_language := fun _ _ => Raise (ServiceError (lit "offline"));
     get_languages := fun _ => Raise (ServiceError (lit "offline"));
     translate := fun _ _ _ _ => Raise (ServiceError (lit "offline"));
     new_chat_llm := fun _ => Raise (ServiceError (lit "OPENAI_API_KEY environment variable is required"));
     moderation_llm := fun _ _ => Raise (ServiceError (lit "offline"));
     intent_llm := None;
     explanation_agent := None;
     explanation_healthy := false;
     validate_pdf_blob := fun _ _ => false;
     grade_assignment_from_blob := fun _ _ _ => Raise (ServiceError (lit "offline"));
     clock := fun n => inject_Z (Z.of_nat n) |}.

End Example.

(** ** The vocabulary of the statements *)

(** Timestamps never decrease along the list. *)
Definition ts_sorted (d : Cache.store) : Prop :=
  StronglySorted (λ a b, (Cache.timestamp a.2 <= Cache.timestamp b.2)%Q) d.

(** A use of the cache: a [put(m, r, False)] with the two clock readings it
    makes, or a [get(m, False)] with its reading. *)
Inductive op :=
| OpPut (m : str) (r : payload) (now now' : Q)
| OpGet (m : str) (now : Q).

(** The calls that ask the translation service for a translation. *)
Definition is_translate (c : call) : bool :=
  match c with
  | Translate _ _ _ => true
  | _ => false
  end.

(** A text free of the characters the two classes remove. *)
Definition no_symbols (s : str) : Prop :=
  Forall (λ c, Bridge.in_emoji_ranges c = false ∧ Bridge.is_decorative c = false) s.

Section Vocabulary.
Context `{PyRuntime}.
Implicit Types (k : str) (e : Cache.entry) (d : Cache.store)
  (self : Cache.BackendCache).

(** The entry [put] writes. *)
Definition new_entry self (user_message : str) (response_data : payload)
    (ttl : option Q) (now : Q) : Cache.entry :=
  {| Cache.value := Cache.cached_response_of response_data;
     Cache.timestamp := now;
     Cache.ttl := Cache.ttl_or_default ttl self;
     Cache.original_message := Some (take 100 user_message) |}.

(** The store after the assignment, after the sweep and after the size
    limit of [put]. *)
Definition inserted self user_message response_data has_pdf ttl now : Cache.store :=
  Cache.setitem (Cache._generate_key user_message has_pdf)
    (new_entry self user_message response_data ttl now) (Cache.cache self).

Definition swept (now : Q) d : Cache.store :=
  List.filter (λ ke, negb (Cache.expired now ke.2)) d.

Definition limited (max_entries : Z) d : Cache.store :=
  if Z.of_nat (length d) <=? max_entries then d
  else List.filter
         (λ ke, negb (bool_decide
            (ke.1 ∈ List.map fst
               (take (Z.to_nat (Z.of_nat (length d) - max_entries))
                  (Cache.sorted_by_timestamp d))))) d.

(** The state of a cache that has run since start-up under a clock that
    does not go back, read at time [now]: distinct keys, the size limit
    respected, no entry stamped later than [now]. *)
Definition cache_inv (now : Q) self : Prop :=
  Cache.wf (Cache.cache self)
  ∧ Z.of_nat (length (Cache.cache self)) ≤ Cache.max_entries self
  ∧ Forall (λ ke, (Cache.timestamp ke.2 <= now)%Q) (Cache.cache self).

Definition step (o : op) self : Cache.BackendCache :=
  match o with
  | OpPut m r now now' => (Cache.put m r false None now now' self).2
  | OpGet m now => (Cache.get m false now self).2
  end.

Definition run_ops (ops : list op) self : Cache.BackendCache :=
  List.fold_left (λ s o, step o s) ops self.

(** The keys inserted, the timestamps of the insertions, and all the clock
    readings, in the order of the operations. *)
Definition put_keys (ops : list op) : list str :=
  flat_map (λ o, match o with
                 | OpPut m _ _ _ => [Cache._generate_key m false]
                 | OpGet _ _ => []
                 end) ops.

Definition put_stamps (ops : list op) : list Q :=
  flat_map (λ o, match o with
                 | OpPut _ _ now _ => [now]
                 | OpGet _ _ => []
                 end) ops.

Definition clock_reads (ops : list op) : list Q :=
  flat_map (λ o, match o with
                 | OpPut _ _ now now' => [now; now']
                 | OpGet _ now => [now]
                 end) ops.

(** The entries the insertions write, for a cache of default time-to-live
    [default_ttl]. *)
Definition put_entries (default_ttl : Q) (ops : list op) : Cache.store :=
  flat_map (λ o, match o with
                 | OpPut m r now _ =>
                     [(Cache._generate_key m false,
                       {| Cache.value := Cache.cached_response_of r;
                          Cache.timestamp := now;
                          Cache.ttl := default_ttl;
                          Cache.original_message := Some (take 100 m) |})]
                 | OpGet _ _ => []
                 end) ops.

(** The similarity [_find_similar_cached_response] gives an entry for the
    query [q]: the Jaccard index of the words of the normalized query and
    of the words of the normalized stored message, which [put] has cut to
    its first 100 characters. *)
Definition score (q : str) e : Q :=
  match Cache.original_message e with
  | Some original =>
      Cache.jaccard (Cache.word_set (Cache._normalize_key q))
        (Cache.word_set (Cache._normalize_key original))
  | None => 0
  end.

(** The state of the loop after the entries [seen]. *)
Definition loop_inv (q : str) (seen : list Cache.entry) (st : option payload * Q)
  : Prop :=
  match st with
  | (None, best_score) =>
      best_score = 0%Q
      ∧ Forall (λ e, (score q e < Cache.similarity_threshold)%Q) seen
  | (Some p, best_score) =>
      ∃ e, e ∈ seen ∧ Cache.value e = p ∧ best_score = score q e
           ∧ (Cache.similarity_threshold <= best_score)%Q
           ∧ Forall (λ e', (score q e' <= best_score)%Q) seen
  end.

End Vocabulary.

(** Values for the examples. *)
Module Demo.
Definition r1 : payload := <["bot_response" := VStr (lit "hi")]> ∅.
Definition demo_ops : list op :=
  [ OpPut (lit "alpha") r1 0 0; OpGet (lit "alpha") 1;
    OpPut (lit "beta") r1 2 2; OpGet (lit "alpha") 3;
    OpPut (lit "gamma") r1 4 4; OpGet (lit "beta") 5 ].
End Demo.

(** A cache with an old and a recent entry, for the examples. *)
Module DemoCache.
Definition old_entry : Cache.entry :=
  {| Cache.value := Demo.r1; Cache.timestamp := 0; Cache.ttl := 10;
     Cache.original_message := Some (lit "first question") |}.
Definition recent_entry : Cache.entry :=
  {| Cache.value := Demo.r1; Cache.timestamp := 40; Cache.ttl := 100;
     Cache.original_message := Some (lit "second question") |}.
Definition two_entries : Cache.BackendCache :=
  Cache.set_cache [(lit "k1", old_entry); (lit "k2", recent_entry)]
    Cache.cache_instance.
End DemoCache.

(** A moderation state in error is not approved. *)
Definition closed (state : Moderation.ModerationState) : Prop :=
  Moderation.has_error state = true → Moderation.approved state = false.

(** The dict [response_data] that the endpoint builds for the cache. *)
Definition response_data (final_bot_response : str)
    (translation_info explanation_result : pyval) (final_approved : bool)
  : payload :=
  <["success" := VBool true]>
  (<["bot_response" := VStr final_bot_response]>
  (<["translation_info" := translation_info]>
  (<["explanation_result" := explanation_result]>
  (<["final_approved" := VBool final_approved]> ∅)))).

(** [None] or a dict: what the response model accepts for an optional
    dict field. *)
Definition optional_dict (v : pyval) : Prop :=
  v = VNone ∨ ∃ d, v = VDict d.

(** A world whose cache holds a reply to "hello", for the examples. *)
Module DemoWorld.
Definition hello : Chat.ChatMessage :=
  {| Chat.message := lit "hello"; Chat.user_id := Some (lit "anonymous");
     Chat.session_id := None; Chat.pdf_file := None |}.
Definition stored : Cache.entry :=
  {| Cache.value :=
       Cache.cached_response_of (response_data (lit "hi there") VNone VNone true);
     Cache.timestamp := 0; Cache.ttl := 3600;
     Cache.original_message := Some (lit "hello") |}.
Definition warm : World :=
  {| w_cache :=
       (@Cache.put Example.runtime (lit "hello")
          (response_data (lit "hi there") VNone VNone true) false None 0 0
          Cache.cache_instance).2;
     w_trace := []; w_ticks := 1 |}.

(** A runtime whose [json.loads] reads every reply of the moderation model
    as a flagged verdict. *)
Definition flagged_value : pyval :=
  VDict [ ("analysis", VStr (lit "insult"));
          ("inappropriate_categories", VList [VStr (lit "harassment")]);
          ("severity_score", VNum (8 # 10));
          ("confidence", VNum (9 # 10));
          ("explanation", VStr (lit "insulting language")) ].
Definition strict : PyRuntime :=
  {| lower := ascii_lower;
     lower_ascii := fun s _ => eq_refl;
     md5_hexdigest := MD5.hexdigest;
     str_of_value := Example.show_value;
     json_dumps := Example.dumps;
     json_loads := fun _ => Some flagged_value;
     isoformat := @isoformat Example.runtime;
     float_of_str := @float_of_str Example.runtime;
     format_1f := @format_1f Example.runtime |}.
End DemoWorld.

(** Collaborators whose moderation model answers in plain words. *)
Module DemoServices.
Definition chatty : Services :=
  {| new_translate_client := @new_translate_client Example.online;
     detect_language := @detect_language Example.online;
     get_languages := @get_languages Example.online;
     translate := @translate Example.online;
     new_chat_llm := @new_chat_llm Example.online;
     moderation_llm := fun _ _ => Ret (lit "Looks fine to me.");
     intent_llm := None;
     explanation_agent := None;
     explanation_healthy := false;
     validate_pdf_blob := @validate_pdf_blob Example.online;
     grade_assignment_from_blob := @grade_assignment_from_blob Example.online;
     clock := @clock Example.online |}.
End DemoServices.

(** A text without two spaces in a row. *)
Definition single_spaced (s : str) : Prop :=
  ∀ pre post, s ≠ pre ++ [SP; SP] ++ post.

(** A computation that leaves the cache of the world as it found it,
    whether it returns or raises. *)
Definition keeps_cache {A} (m : M World A) : Prop :=
  ∀ w, w_cache (m w).2 = w_cache w.

(* ===================================================================== *)
(** * Part II: properties                                                 *)
(* ===================================================================== *)

(** ** The store as a dict *)

Section StoreFacts.
Implicit Types (k : str) (e : Cache.entry) (d : Cache.store).

Lemma contains_true k d : Cache.contains k d = true ↔ k ∈ Cache.keys d.
Proof. unfold Cache.contains. apply bool_decide_eq_true. Qed.

Lemma contains_false k d : Cache.contains k d = false ↔ k ∉ Cache.keys d.
Proof. unfold Cache.contains. apply bool_decide_eq_false. Qed.

Lemma lookup_None k d : Cache.lookup k d = None ↔ k ∉ Cache.keys d.
Proof.
  induction d as [|[k' e'] d IH]; simpl.
  - split; [intros _; apply not_elem_of_nil | done].
  - destruct (decide (k = k')) as [->|Hne].
    + split; [done | intros Hn; exfalso; apply Hn; left].
    + rewrite IH, not_elem_of_cons. split; [by intros ?; split | by intros [_ ?]].
Qed.

Lemma lookup_Some_elem k e d : Cache.lookup k d = Some e → (k, e) ∈ d.
Proof.
  induction d as [|[k' e'] d IH]; simpl; [done|].
  destruct (decide (k = k')) as [->|Hne].
  - intros [= ->]. left.
  - intros Hl. right. auto.
Qed.


Lemma keys_setitem k e d :
  Cache.keys (Cache.setitem k e d)
  = if Cache.contains k d then Cache.keys d else Cache.keys d ++ [k].
Proof.
  induction d as [|[k' e'] d IH]; simpl; [done|].
  destruct (decide (k = k')) as [->|Hne]; simpl.
  - assert (Cache.contains k' ((k', e') :: d) = true) as ->; [|done].
    apply contains_true. left.
  - rewrite IH. destruct (Cache.contains k d) eqn:Hc.
    + assert (Cache.contains k ((k', e') :: d) = true) as ->; [|done].
      apply contains_true. right. by apply contains_true.
    + assert (Cache.contains k ((k', e') :: d) = false) as ->; [|done].
      apply contains_false. simpl. rewrite not_elem_of_cons. split; [done|].
      by apply contains_false.
Qed.

Lemma wf_setitem k e d : Cache.wf d → Cache.wf (Cache.setitem k e d).
Proof.
  unfold Cache.wf. intros Hwf. rewrite keys_setitem.
  destruct (Cache.contains k d) eqn:Hc; [done|].
  apply NoDup_app. split; [done|]. split.
  - intros x Hx Hin. apply list_elem_of_singleton in Hin as ->.
    by apply contains_false in Hc.
  - apply NoDup_singleton.
Qed.


Lemma filter_all {A} (f : A → bool) (l : list A) :
  (∀ x, x ∈ l → f x = true) → List.filter f l = l.
Proof.
  induction l as [|x l IH]; simpl; [done|]. intros Hall.
  rewrite (Hall x) by left. f_equal. apply IH. intros y Hy. apply Hall. by right.
Qed.

(** On a well-formed store, [del d[k]] removes the one entry of key [k]. *)
Lemma remove_filter k d :
  Cache.wf d →
  Cache.remove k d = List.filter (λ ke, negb (bool_decide (ke.1 = k))) d.
Proof.
  unfold Cache.wf. induction d as [|[k' e'] d IH]; simpl; [done|].
  intros [Hnotin Hnd]%NoDup_cons.
  destruct (decide (k = k')) as [->|Hne].
  - rewrite bool_decide_eq_true_2 by done. simpl.
    symmetry. apply filter_all. intros [k2 e2] Hin. simpl.
    apply negb_true_iff, bool_decide_eq_false. intros ->.
    apply Hnotin. apply list_elem_of_fmap. by exists (k', e2).
  - rewrite bool_decide_eq_false_2 by done. simpl. f_equal. by apply IH.
Qed.

Lemma keys_filter_sub (f : str * Cache.entry → bool) d k :
  k ∈ Cache.keys (List.filter f d) → k ∈ Cache.keys d.
Proof.
  unfold Cache.keys. intros Hin. apply list_elem_of_fmap in Hin as [ke [-> Hke]].
  apply list_elem_of_In, filter_In in Hke as [Hke _].
  apply list_elem_of_fmap. exists ke. split; [done|]. by apply list_elem_of_In.
Qed.

Lemma wf_filter (f : str * Cache.entry → bool) d :
  Cache.wf d → Cache.wf (List.filter f d).
Proof.
  unfold Cache.wf. induction d as [|ke d IH]; simpl; [done|].
  intros [Hnotin Hnd]%NoDup_cons. destruct (f ke); simpl; [|by apply IH].
  apply NoDup_cons. split; [|by apply IH].
  intros Hin. apply Hnotin. by eapply keys_filter_sub.
Qed.

Lemma length_filter_le {A} (f : A → bool) (l : list A) :
  (length (List.filter f l) ≤ length l)%nat.
Proof. induction l as [|x l IH]; simpl; [done|]. destruct (f x); simpl; lia. Qed.

End StoreFacts.

(** ** Deleting keys, sweeping and evicting *)

Section SweepFacts.
Implicit Types (k : str) (e : Cache.entry) (d : Cache.store)
  (self : Cache.BackendCache).

Lemma set_cache_id self : Cache.set_cache (Cache.cache self) self = self.
Proof. by destruct self. Qed.

Lemma set_cache_set d d' self :
  Cache.set_cache d (Cache.set_cache d' self) = Cache.set_cache d self.
Proof. done. Qed.

Lemma delitem_present k self :
  k ∈ Cache.keys (Cache.cache self) →
  Cache.delitem k self
  = (Ret tt, Cache.set_cache (Cache.remove k (Cache.cache self)) self).
Proof.
  intros Hin. unfold Cache.delitem.
  by rewrite (proj2 (contains_true _ _) Hin).
Qed.

Lemma filter_remove_then k (ks : list str) d :
  List.filter (λ ke, negb (bool_decide (ke.1 ∈ ks)))
    (List.filter (λ ke, negb (bool_decide (ke.1 = k))) d)
  = List.filter (λ ke : str * Cache.entry, negb (bool_decide (ke.1 ∈ k :: ks))) d.
Proof.
  induction d as [|ke d IHd]; simpl; [done|].
  destruct (decide (ke.1 = k)) as [Heq|Hne].
  - rewrite (bool_decide_eq_true_2 (ke.1 = k)) by done. simpl.
    rewrite (bool_decide_eq_true_2 (ke.1 ∈ k :: ks)) by (rewrite Heq; left).
    simpl. apply IHd.
  - rewrite (bool_decide_eq_false_2 (ke.1 = k)) by done. simpl.
    destruct (decide (ke.1 ∈ ks)) as [Hi|Hni].
    + rewrite (bool_decide_eq_true_2 (ke.1 ∈ ks)) by done.
      rewrite (bool_decide_eq_true_2 (ke.1 ∈ k :: ks)) by (by right).
      simpl. apply IHd.
    + rewrite (bool_decide_eq_false_2 (ke.1 ∈ ks)) by done.
      rewrite (bool_decide_eq_false_2 (ke.1 ∈ k :: ks))
        by (rewrite not_elem_of_cons; done).
      simpl. f_equal. apply IHd.
Qed.

(** Deleting distinct keys that are all present leaves the entries of the
    other keys, in their order, and raises nothing. *)
Lemma delete_keys (ks : list str) self :
  Cache.wf (Cache.cache self) → NoDup ks →
  (∀ k, k ∈ ks → k ∈ Cache.keys (Cache.cache self)) →
  for_each ks Cache.delitem self
  = (Ret tt,
     Cache.set_cache
       (List.filter (λ ke, negb (bool_decide (ke.1 ∈ ks))) (Cache.cache self))
       self).
Proof.
  revert self. induction ks as [|k ks IH]; intros self Hwf Hnd Hin; simpl.
  - unfold ret. f_equal. rewrite filter_all; [by rewrite set_cache_id|].
    intros ke _. done.
  - apply NoDup_cons in Hnd as [Hk Hnd].
    unfold bind. rewrite delitem_present by (apply Hin; left).
    rewrite IH; simpl.
    + f_equal. rewrite set_cache_set. f_equal.
      rewrite remove_filter by done. apply filter_remove_then.
    + rewrite remove_filter by done. by apply wf_filter.
    + done.
    + intros k' Hk'. rewrite remove_filter by done.
      unfold Cache.keys. apply list_elem_of_fmap.
      specialize (Hin k' (list_elem_of_further _ _ _ Hk')).
      apply list_elem_of_fmap in Hin as [ke [-> Hke]].
      exists ke. split; [done|]. apply list_elem_of_In, filter_In.
      split; [by apply list_elem_of_In|].
      apply negb_true_iff, bool_decide_eq_false. intros Heq.
      apply Hk. by rewrite <- Heq.
Qed.

Lemma NoDup_keys_filter (f : str * Cache.entry → bool) d :
  Cache.wf d → NoDup (List.map fst (List.filter f d)).
Proof. intros Hwf. by apply (wf_filter f) in Hwf. Qed.

(** [_cleanup_expired] keeps exactly the entries that have not expired. *)
Lemma cleanup_expired_spec now self :
  Cache.wf (Cache.cache self) →
  Cache._cleanup_expired now self
  = (Ret tt,
     Cache.set_cache
       (List.filter (λ ke, negb (Cache.expired now ke.2)) (Cache.cache self))
       self).
Proof.
  intros Hwf. unfold Cache._cleanup_expired, bind, get_state.
  rewrite delete_keys.
  - f_equal. f_equal.
    assert (∀ d', (∀ ke, ke ∈ d' → ke ∈ Cache.cache self) →
      List.filter (λ ke, negb (bool_decide (ke.1 ∈
          List.map fst (List.filter (λ ke0, Cache.expired now ke0.2)
                          (Cache.cache self))))) d'
      = List.filter (λ ke, negb (Cache.expired now ke.2)) d') as Hgen.
    { induction d' as [|ke d' IHd]; intros Hsub; simpl; [done|].
      rewrite IHd by (intros x Hx; apply Hsub; by right).
      assert (bool_decide (ke.1 ∈ List.map fst
                (List.filter (λ ke0, Cache.expired now ke0.2) (Cache.cache self)))
              = Cache.expired now ke.2) as ->; [|done].
      destruct (Cache.expired now ke.2) eqn:Hex.
      - apply bool_decide_eq_true. apply list_elem_of_fmap. exists ke.
        split; [done|]. apply list_elem_of_In, filter_In.
        split; [apply list_elem_of_In, Hsub; left | done].
      - apply bool_decide_eq_false. intros Hin.
        apply list_elem_of_fmap in Hin as [ke' [Hfst Hke']].
        apply list_elem_of_In, filter_In in Hke' as [Hke' Hex'].
        apply list_elem_of_In in Hke'.
        assert (ke = ke') as <-; [|congruence].
        assert (ke ∈ Cache.cache self) as Hke by (apply Hsub; left).
        clear -Hwf Hke Hke' Hfst. unfold Cache.wf, Cache.keys in Hwf.
        induction (Cache.cache self) as [|x d IH]; [by apply elem_of_nil in Hke|].
        simpl in Hwf. apply NoDup_cons in Hwf as [Hx Hnd].
        apply elem_of_cons in Hke as [->|Hke], Hke' as [->|Hke'].
        + done.
        + exfalso. apply Hx. rewrite Hfst. apply list_elem_of_fmap. by exists ke'.
        + exfalso. apply Hx. rewrite <- Hfst. apply list_elem_of_fmap. by exists ke.
        + by apply IH. }
    by apply Hgen.
  - done.
  - by apply NoDup_keys_filter.
  - intros k Hk. by eapply keys_filter_sub.
Qed.

End SweepFacts.

(** ** Stepping through computations *)

Lemma bind_get_state {S B} (k : S → M S B) s : bind get_state k s = k s s.
Proof. done. Qed.

Lemma bind_ret {S A B} (a : A) (k : A → M S B) s : bind (ret a) k s = k a s.
Proof. done. Qed.

Lemma bind_eval {S A B} (m : M S A) (k : A → M S B) s a s' :
  m s = (Ret a, s') → bind m k s = k a s'.
Proof. unfold bind. by intros ->. Qed.

Lemma bind_raise {S A B} (m : M S A) (k : A → M S B) s e s' :
  m s = (Raise e, s') → bind m k s = (Raise e, s').
Proof. unfold bind. by intros ->. Qed.

Lemma try_except_ret {S A} (m : M S A) h s a s' :
  m s = (Ret a, s') → try_except m h s = (Ret a, s').
Proof. unfold try_except. by intros ->. Qed.

Lemma try_except_raise {S A} (m : M S A) h s e s' :
  m s = (Raise e, s') → try_except m h s = h e s'.
Proof. unfold try_except. by intros ->. Qed.

(** A [try] whose handler returns never raises. *)
Lemma try_except_total {S A} (m : M S A) (h : exn → M S A) s :
  (∀ e s', ∃ a s'', h e s' = (Ret a, s'')) →
  ∃ a s', try_except m h s = (Ret a, s').
Proof.
  intros Hh. unfold try_except. destruct (m s) as [[a|e] s']; eauto.
Qed.

(** ** The size limit *)

Section EvictFacts.
Implicit Types (k : str) (e : Cache.entry) (d : Cache.store)
  (self : Cache.BackendCache).

Lemma insert_by_timestamp_perm x d :
  Permutation (Cache.insert_by_timestamp x d) (x :: d).
Proof.
  induction d as [|y d IH]; simpl; [done|].
  destruct (Qle_bool _ _); [done|].
  rewrite IH. apply perm_swap.
Qed.

Lemma sorted_by_timestamp_perm d : Permutation (Cache.sorted_by_timestamp d) d.
Proof.
  induction d as [|x d IH]; simpl; [done|].
  rewrite insert_by_timestamp_perm. by constructor.
Qed.

(** [sorted] is stable: a store already in timestamp order is returned as
    it is. *)
Lemma sorted_by_timestamp_id d : ts_sorted d → Cache.sorted_by_timestamp d = d.
Proof.
  induction 1 as [|x d Hs IH Hall]; simpl; [done|].
  rewrite IH. destruct d as [|y d']; simpl; [done|].
  apply Forall_cons in Hall as [Hxy _].
  by rewrite (proj2 (Qle_bool_iff _ _) Hxy).
Qed.

(** The loop of [_enforce_size_limit] deletes the keys of the first items
    of the sorted list. *)
Lemma for_each_item_keys (sorted_items : list (str * Cache.entry)) n a self :
  (a + n ≤ length sorted_items)%nat →
  for_each (seq a n)
    (λ i, bind (Cache.item_key sorted_items i) (λ key, Cache.delitem key)) self
  = for_each (List.map fst (take n (drop a sorted_items))) Cache.delitem self.
Proof.
  revert a self. induction n as [|n IH]; intros a self Hle; simpl; [done|].
  destruct (drop a sorted_items) as [|ke rest] eqn:Hdrop.
  { apply (f_equal length) in Hdrop. rewrite length_drop in Hdrop.
    simpl in Hdrop. lia. }
  simpl. unfold bind at 1 3. unfold Cache.item_key at 1.
  assert (List.nth_error sorted_items a = Some ke) as ->.
  { rewrite <- (take_drop a sorted_items) at 1.
    rewrite nth_error_app2 by (rewrite length_take; lia).
    rewrite length_take, Hdrop.
    replace (a - a `min` length sorted_items)%nat with 0%nat by lia. done. }
  unfold bind, ret. simpl.
  destruct (Cache.delitem ke.1 self) as [[[]|ex] self']; [|done].
  rewrite IH by lia.
  replace (drop (S a) sorted_items) with rest; [done|].
  replace (S a) with (a + 1)%nat by lia.
  rewrite <- (drop_drop sorted_items 1 a), Hdrop. done.
Qed.

Lemma length_filter_notin (ks : list str) d :
  Cache.wf d → NoDup ks → (∀ k, k ∈ ks → k ∈ Cache.keys d) →
  (length (List.filter (λ ke, negb (bool_decide (ke.1 ∈ ks))) d) + length ks
   = length d)%nat.
Proof.
  revert d. induction ks as [|k ks IH]; intros d Hwf Hnd Hin; simpl.
  - rewrite filter_all; [lia|]. done.
  - apply NoDup_cons in Hnd as [Hk Hnd].
    rewrite <- filter_remove_then.
    assert (k ∈ Cache.keys d) as Hkd by (apply Hin; left).
    rewrite <- remove_filter by done.
    assert (length (Cache.remove k d) = pred (length d) ∧ (0 < length d)%nat)
      as [Hlen Hpos].
    { clear -Hkd. induction d as [|[k' e'] d IHd]; simpl.
      - by apply elem_of_nil in Hkd.
      - destruct (decide (k = k')) as [->|Hne]; [split; simpl; lia|].
        simpl in Hkd. apply elem_of_cons in Hkd as [?|Hkd]; [done|].
        destruct (IHd Hkd) as [Hl ?]. simpl. rewrite Hl. lia. }
    specialize (IH (Cache.remove k d)).
    cut (Cache.wf (Cache.remove k d)
         ∧ ∀ k0, k0 ∈ ks → k0 ∈ Cache.keys (Cache.remove k d)).
    { intros [H1 H2]. specialize (IH H1 Hnd H2). simpl. lia. }
    split.
    + rewrite remove_filter by done. by apply wf_filter.
    + intros k' Hk'. rewrite remove_filter by done.
      specialize (Hin k' (list_elem_of_further _ _ _ Hk')).
      unfold Cache.keys in *. apply list_elem_of_fmap in Hin as [ke [-> Hke]].
      apply list_elem_of_fmap. exists ke. split; [done|].
      apply list_elem_of_In, filter_In. split; [by apply list_elem_of_In|].
      apply negb_true_iff, bool_decide_eq_false. intros Heq.
      apply Hk. by rewrite <- Heq.
Qed.

(** What [_enforce_size_limit] leaves: nothing changes within the limit;
    beyond it, the first [len - max] items of the sorted list go. *)
Lemma enforce_size_limit_spec self :
  Cache.wf (Cache.cache self) → 0 ≤ Cache.max_entries self →
  Cache._enforce_size_limit self
  = (Ret tt,
     if Z.of_nat (length (Cache.cache self)) <=? Cache.max_entries self
     then self
     else Cache.set_cache
            (List.filter
               (λ ke, negb (bool_decide
                  (ke.1 ∈ List.map fst
                     (take (Z.to_nat (Z.of_nat (length (Cache.cache self))
                                      - Cache.max_entries self))
                        (Cache.sorted_by_timestamp (Cache.cache self))))))
               (Cache.cache self))
            self).
Proof.
  intros Hwf Hmax. unfold Cache._enforce_size_limit. rewrite bind_get_state.
  destruct (Z.of_nat (length (Cache.cache self)) <=? Cache.max_entries self)
    eqn:Hle; [done|].
  apply Z.leb_gt in Hle.
  pose proof (sorted_by_timestamp_perm (Cache.cache self)) as Hperm.
  cbv zeta.
  rewrite for_each_item_keys
    by (rewrite (Permutation_length Hperm); simpl; lia).
  rewrite drop_0. apply delete_keys; [done| |].
  - assert (NoDup (List.map fst (Cache.sorted_by_timestamp (Cache.cache self))))
      as Hnd.
    { rewrite (Permutation_map fst Hperm). exact Hwf. }
    rewrite <- (take_drop (Z.to_nat (Z.of_nat (length (Cache.cache self))
                                     - Cache.max_entries self))
                  (Cache.sorted_by_timestamp (Cache.cache self))) in Hnd.
    rewrite map_app in Hnd. by apply NoDup_app in Hnd as [Hnd _].
  - intros k Hk. unfold Cache.keys.
    apply list_elem_of_fmap in Hk as [ke [-> Hke]].
    apply list_elem_of_fmap. exists ke. split; [done|].
    rewrite <- Hperm.
    rewrite <- (take_drop (Z.to_nat (Z.of_nat (length (Cache.cache self))
                                     - Cache.max_entries self))
                  (Cache.sorted_by_timestamp (Cache.cache self))).
    apply elem_of_app. by left.
Qed.

End EvictFacts.

(** ** What [put] and [get] compute *)

Section PutGet.
Context `{PyRuntime}.
Implicit Types (k : str) (e : Cache.entry) (d : Cache.store)
  (self : Cache.BackendCache).

Lemma put_spec user_message response_data has_pdf ttl now now' self :
  Cache.wf (Cache.cache self) → 0 ≤ Cache.max_entries self →
  Cache.put user_message response_data has_pdf ttl now now' self
  = (Ret tt,
     Cache.set_cache
       (limited (Cache.max_entries self)
          (swept now' (inserted self user_message response_data has_pdf ttl now)))
       self).
Proof.
  intros Hwf Hmax. unfold Cache.put.
  apply try_except_ret. rewrite bind_get_state.
  cbv zeta. erewrite bind_eval; [|reflexivity].
  erewrite bind_eval.
  2:{ apply cleanup_expired_spec. simpl. by apply wf_setitem. }
  rewrite enforce_size_limit_spec; simpl.
  - f_equal. unfold limited, swept, inserted, new_entry.
    by destruct (_ <=? _).
  - by apply wf_filter, wf_setitem.
  - done.
Qed.

(** [put] returns normally whatever the state and the arguments. *)
Lemma put_total user_message response_data has_pdf ttl now now' self :
  ∃ self', Cache.put user_message response_data has_pdf ttl now now' self
           = (Ret tt, self').
Proof.
  unfold Cache.put, try_except.
  destruct (bind _ _ self) as [[[]|e] s']; eauto.
Qed.

Lemma get_spec user_message has_pdf now self :
  Cache.get user_message has_pdf now self
  = match Cache.lookup (Cache._generate_key user_message has_pdf)
            (Cache.cache self) with
    | None => (Ret None, self)
    | Some entry =>
        if Cache.expired now entry
        then (Ret None,
              Cache.set_cache
                (Cache.remove (Cache._generate_key user_message has_pdf)
                   (Cache.cache self)) self)
        else (Ret (Some (Cache.value entry)), self)
    end.
Proof.
  unfold Cache.get, try_except. rewrite bind_get_state. cbv zeta.
  destruct (Cache.lookup _ _) as [entry|] eqn:Hl; [|done].
  destruct (Cache.expired now entry); [|done].
  assert (Cache._generate_key user_message has_pdf ∈ Cache.keys (Cache.cache self))
    as Hin.
  { destruct (decide (Cache._generate_key user_message has_pdf
                      ∈ Cache.keys (Cache.cache self))) as [|Hn]; [done|].
    apply lookup_None in Hn. congruence. }
  erewrite bind_eval; [|by apply delitem_present]. done.
Qed.


End PutGet.
(** ** Round trip of [put] and [get] *)

Section RoundTrip.
Context `{PyRuntime}.
Implicit Types (k : str) (e : Cache.entry) (d : Cache.store)
  (self : Cache.BackendCache).

Lemma lookup_filter_keep (f : str * Cache.entry → bool) k e d :
  Cache.wf d → Cache.lookup k d = Some e → f (k, e) = true →
  Cache.lookup k (List.filter f d) = Some e.
Proof.
  unfold Cache.wf. induction d as [|[k' e'] d IH]; simpl; [done|].
  intros [Hnotin Hnd]%NoDup_cons.
  destruct (decide (k = k')) as [->|Hne].
  - intros [= ->] ->. simpl. by rewrite decide_True.
  - intros Hl Hf. destruct (f (k', e')); simpl; [rewrite decide_False by done|];
      by apply IH.
Qed.

Lemma setitem_new k e d :
  k ∉ Cache.keys d → Cache.setitem k e d = d ++ [(k, e)].
Proof.
  induction d as [|[k' e'] d IH]; simpl; [done|].
  intros [Hne Hnotin]%not_elem_of_cons.
  rewrite decide_False by done. f_equal. by apply IH.
Qed.




Lemma expired_false now e :
  Cache.expired now e = false ↔ (now - Cache.timestamp e <= Cache.ttl e)%Q.
Proof.
  unfold Cache.expired. rewrite negb_false_iff. apply Qle_bool_iff.
Qed.




End RoundTrip.

(** ** The invariant is kept, and the size limit holds after [put] *)

Section Invariant.
Context `{PyRuntime}.
Implicit Types (k : str) (e : Cache.entry) (d : Cache.store)
  (self : Cache.BackendCache).

Lemma length_limited max_entries d :
  Cache.wf d → 0 ≤ max_entries →
  Z.of_nat (length (limited max_entries d)) ≤ max_entries.
Proof.
  intros Hwf Hmax. unfold limited.
  destruct (_ <=? _) eqn:Hle; [by apply Z.leb_le|]. apply Z.leb_gt in Hle.
  pose proof (sorted_by_timestamp_perm d) as Hperm.
  set (n := Z.to_nat (Z.of_nat (length d) - max_entries)).
  assert (length (List.filter (λ ke, negb (bool_decide
            (ke.1 ∈ List.map fst (take n (Cache.sorted_by_timestamp d))))) d)
          + length (List.map fst (take n (Cache.sorted_by_timestamp d)))
          = length d)%nat as Hlen.
  { apply length_filter_notin; [done| |].
    - assert (NoDup (List.map fst (Cache.sorted_by_timestamp d))) as Hnd.
      { rewrite (Permutation_map fst Hperm). exact Hwf. }
      rewrite <- (take_drop n (Cache.sorted_by_timestamp d)) in Hnd.
      rewrite map_app in Hnd. by apply NoDup_app in Hnd as [Hnd _].
    - intros k Hk. unfold Cache.keys.
      apply list_elem_of_fmap in Hk as [ke [-> Hke]].
      apply list_elem_of_fmap. exists ke. split; [done|].
      rewrite <- Hperm. rewrite <- (take_drop n (Cache.sorted_by_timestamp d)).
      apply elem_of_app. by left. }
  rewrite length_map, length_take in Hlen.
  apply Permutation_length in Hperm. subst n. lia.
Qed.

Lemma Forall_filter {A} (P : A → Prop) (f : A → bool) (l : list A) :
  Forall P l → Forall P (List.filter f l).
Proof.
  induction 1 as [|x l Hx Hl IH]; simpl; [constructor|].
  destruct (f x); [by constructor | done].
Qed.

Lemma Forall_setitem (P : str * Cache.entry → Prop) k e d :
  Forall P d → P (k, e) → Forall P (Cache.setitem k e d).
Proof.
  intros Hall Hp. induction Hall as [|[k' e'] d Hx Hl IH]; simpl.
  - by repeat constructor.
  - destruct (decide (k = k')); by constructor.
Qed.

Lemma limited_filter max_entries d :
  ∃ f, limited max_entries d = List.filter f d.
Proof.
  unfold limited. destruct (_ <=? _); [|eauto].
  exists (λ _, true). symmetry. by apply filter_all.
Qed.

Lemma cache_inv_init max_entries default_ttl now :
  0 ≤ max_entries → cache_inv now (Cache.init max_entries default_ttl).
Proof.
  intros Hmax. repeat split; simpl; [apply NoDup_nil_2 | lia | constructor].
Qed.

Lemma cache_inv_later now now2 self :
  (now <= now2)%Q → cache_inv now self → cache_inv now2 self.
Proof.
  intros Hle (Hwf & Hlen & Hts). repeat split; [done..|].
  eapply Forall_impl; [exact Hts|]. simpl. intros ke Hke. lra.
Qed.

Lemma cache_inv_put self m r has_pdf ttl now now' self' :
  cache_inv now self → 0 ≤ Cache.max_entries self →
  Cache.put m r has_pdf ttl now now' self = (Ret tt, self') →
  cache_inv now self' ∧ Cache.max_entries self' = Cache.max_entries self
  ∧ Cache.default_ttl self' = Cache.default_ttl self.
Proof.
  intros (Hwf & Hlen & Hts) Hmax. rewrite put_spec by done. intros [= <-].
  destruct (limited_filter (Cache.max_entries self)
              (swept now' (inserted self m r has_pdf ttl now))) as [f Hf].
  repeat split; simpl.
  - rewrite Hf. by apply wf_filter, wf_filter, wf_setitem.
  - apply length_limited; [|done]. by apply wf_filter, wf_setitem.
  - rewrite Hf. apply Forall_filter, Forall_filter, Forall_setitem; [done|].
    simpl. lra.
Qed.

Lemma cache_inv_get self m has_pdf now r self' :
  cache_inv now self →
  Cache.get m has_pdf now self = (r, self') →
  cache_inv now self'.
Proof.
  intros (Hwf & Hlen & Hts). rewrite get_spec.
  destruct (Cache.lookup _ _) as [e|]; [|by intros [= <- <-]].
  destruct (Cache.expired now e); [|by intros [= <- <-]].
  intros [= <- <-]. rewrite remove_filter by done.
  repeat split; simpl.
  - by apply wf_filter.
  - pose proof (length_filter_le
      (λ ke : str * Cache.entry,
         negb (bool_decide (ke.1 = Cache._generate_key m has_pdf)))
      (Cache.cache self)). lia.
  - by apply Forall_filter.
Qed.

End Invariant.

(** ** Time-to-live *)

Section TimeToLive.
Context `{PyRuntime}.
Implicit Types (k : str) (e : Cache.entry) (d : Cache.store)
  (self : Cache.BackendCache).

Lemma lookup_filter_Some (f : str * Cache.entry → bool) k e d :
  Cache.wf d → Cache.lookup k (List.filter f d) = Some e →
  Cache.lookup k d = Some e.
Proof.
  unfold Cache.wf. induction d as [|[k' e'] d IH]; simpl; [done|].
  intros [Hnotin Hnd]%NoDup_cons.
  destruct (decide (k = k')) as [->|Hne].
  - destruct (f (k', e')); simpl.
    + by rewrite decide_True.
    + intros Hl. exfalso. apply Hnotin.
      assert (k' ∈ Cache.keys (List.filter f d)) as Hin.
      { destruct (decide (k' ∈ Cache.keys (List.filter f d))) as [|Hn]; [done|].
        apply lookup_None in Hn. congruence. }
      by eapply keys_filter_sub.
  - destruct (f (k', e')); simpl; [rewrite decide_False by done|]; by apply IH.
Qed.



End TimeToLive.

(** ** Size limit and eviction order *)

Section Eviction.
Context `{PyRuntime}.
Implicit Types (k : str) (e : Cache.entry) (d : Cache.store)
  (self : Cache.BackendCache).

Lemma keys_put_entries default_ttl ops :
  Cache.keys (put_entries default_ttl ops) = put_keys ops.
Proof.
  unfold Cache.keys. induction ops as [|[m r now now'|m now] ops IH]; simpl;
    [done | by rewrite IH | done].
Qed.

Lemma stamps_put_entries default_ttl ops :
  List.map (λ ke, Cache.timestamp ke.2) (put_entries default_ttl ops)
  = put_stamps ops.
Proof.
  induction ops as [|[m r now now'|m now] ops IH]; simpl;
    [done | by rewrite IH | done].
Qed.

Lemma ttl_put_entries default_ttl ops :
  Forall (λ ke, Cache.ttl ke.2 = default_ttl) (put_entries default_ttl ops).
Proof.
  induction ops as [|[m r now now'|m now] ops IH]; simpl;
    [constructor | by constructor | done].
Qed.

Lemma filter_none {A} (f : A → bool) (l : list A) :
  (∀ x, x ∈ l → f x = false) → List.filter f l = [].
Proof.
  induction l as [|x l IH]; simpl; [done|]. intros Hall.
  rewrite (Hall x) by left. apply IH. intros y Hy. apply Hall. by right.
Qed.

(** On a well-formed store, dropping the keys of the first [n] items is
    dropping the first [n] items. *)
Lemma filter_prefix_keys (l1 l2 : Cache.store) :
  Cache.wf (l1 ++ l2) →
  List.filter (λ ke, negb (bool_decide (ke.1 ∈ List.map fst l1))) (l1 ++ l2)
  = l2.
Proof.
  unfold Cache.wf, Cache.keys. rewrite map_app.
  intros (Hnd1 & Hdisj & Hnd2)%NoDup_app.
  rewrite List.filter_app, filter_none, filter_all; [done| |].
  - intros ke Hke. apply negb_true_iff, bool_decide_eq_false. intros Hin.
    apply (Hdisj ke.1 Hin). apply list_elem_of_fmap. by exists ke.
  - intros ke Hke. apply negb_false_iff, bool_decide_eq_true.
    apply list_elem_of_fmap. by exists ke.
Qed.

Lemma filter_take_keys n d :
  Cache.wf d →
  List.filter (λ ke, negb (bool_decide (ke.1 ∈ List.map fst (take n d)))) d
  = drop n d.
Proof.
  intros Hwf. rewrite <- (take_drop n d) in Hwf.
  pose proof (filter_prefix_keys _ _ Hwf) as Hf.
  by rewrite take_drop in Hf.
Qed.

Lemma StronglySorted_map {A B} (R : B → B → Prop) (f : A → B) (l : list A) :
  StronglySorted R (List.map f l) → StronglySorted (λ a b, R (f a) (f b)) l.
Proof.
  induction l as [|x l IH]; simpl; [constructor|].
  intros [Hs Hall]%StronglySorted_inv. constructor; [by apply IH|].
  clear -Hall. induction l as [|y l IHl]; simpl in *; [constructor|].
  apply Forall_cons in Hall as [Hy Hall]. constructor; [done | by apply IHl].
Qed.

Lemma StronglySorted_app_l {A} (R : A → A → Prop) (l1 l2 : list A) :
  StronglySorted R (l1 ++ l2) → StronglySorted R l1.
Proof.
  induction l1 as [|x l1 IH]; simpl; [constructor|].
  intros [Hs Hall]%StronglySorted_inv. constructor; [by apply IH|].
  by apply Forall_app in Hall as [Hall _].
Qed.

Lemma StronglySorted_drop {A} (R : A → A → Prop) n (l : list A) :
  StronglySorted R l → StronglySorted R (drop n l).
Proof.
  revert n. induction l as [|x l IH]; intros [|n] Hs; simpl; try done.
  apply IH. by apply StronglySorted_inv in Hs as [Hs _].
Qed.

Lemma wf_drop n d : Cache.wf d → Cache.wf (drop n d).
Proof.
  unfold Cache.wf, Cache.keys. intros Hwf.
  rewrite <- (take_drop n d), map_app in Hwf.
  by apply NoDup_app in Hwf as (_ & _ & Hwf).
Qed.

(** On a store in timestamp order, the size limit drops from the front:
    first in, first out. *)
Lemma limited_fifo max_entries d :
  Cache.wf d → ts_sorted d → 0 ≤ max_entries →
  limited max_entries d = drop (length d - Z.to_nat max_entries) d.
Proof.
  intros Hwf Hs Hmax. unfold limited.
  destruct (_ <=? _) eqn:Hle.
  - apply Z.leb_le in Hle.
    replace (length d - Z.to_nat max_entries)%nat with 0%nat by lia. done.
  - apply Z.leb_gt in Hle. rewrite sorted_by_timestamp_id by done.
    rewrite filter_take_keys by done. f_equal. lia.
Qed.

Lemma put_entries_window default_ttl t0 ops :
  Forall (λ t, t0 <= t ∧ t <= t0 + default_ttl)%Q (clock_reads ops) →
  Forall (λ ke, (t0 <= Cache.timestamp ke.2)%Q ∧ Cache.ttl ke.2 = default_ttl)
    (put_entries default_ttl ops).
Proof.
  induction ops as [|[m r now now'|m now] ops IH]; simpl; intros Hall.
  - constructor.
  - apply Forall_cons in Hall as [[Hlo _] Hall].
    apply Forall_cons in Hall as [_ Hall]. constructor; [done|]. by apply IH.
  - apply Forall_cons in Hall as [_ Hall]. by apply IH.
Qed.

(** First in, first out. After any sequence of insertions of distinct keys
    and of reads, all within one time-to-live and with insertion
    timestamps that do not decrease, the store holds the entries of the
    last [max_entries] insertions, in the order of insertion. *)
Lemma run_ops_fifo max_entries default_ttl ops t0 :
  0 ≤ max_entries →
  Forall (λ t, t0 <= t ∧ t <= t0 + default_ttl)%Q (clock_reads ops) →
  StronglySorted Qle (put_stamps ops) →
  NoDup (put_keys ops) →
  run_ops ops (Cache.init max_entries default_ttl)
  = Cache.set_cache
      (drop (length (put_entries default_ttl ops) - Z.to_nat max_entries)
         (put_entries default_ttl ops))
      (Cache.init max_entries default_ttl).
Proof.
  intros Hmax. induction ops as [|o ops IH] using rev_ind; [done|].
  unfold clock_reads, put_stamps, put_keys, put_entries, run_ops.
  rewrite !flat_map_app, fold_left_app. simpl. rewrite !app_nil_r.
  fold (clock_reads ops) (put_stamps ops) (put_keys ops)
    (put_entries default_ttl ops) (run_ops ops (Cache.init max_entries default_ttl)).
  intros [Hwin Hwin']%Forall_app Hsorted Hnd.
  pose proof (put_entries_window _ _ _ Hwin) as Hent.
  set (E := put_entries default_ttl ops) in *.
  set (a := (length E - Z.to_nat max_entries)%nat).
  assert (Cache.wf E) as HwfE.
  { unfold Cache.wf. subst E. rewrite keys_put_entries.
    by apply NoDup_app in Hnd as [Hnd _]. }
  rewrite IH; [| done | by apply StronglySorted_app_l in Hsorted
                 | by apply NoDup_app in Hnd as [Hnd _]].
  fold a. destruct o as [m r now now'|m now]; simpl.
  - (* an insertion *)
    apply Forall_cons in Hwin' as [[Hlo Hhi] Hwin'].
    apply Forall_cons in Hwin' as [[Hlo' Hhi'] _].
    set (k := Cache._generate_key m false).
    set (e := {| Cache.value := Cache.cached_response_of r;
                 Cache.timestamp := now; Cache.ttl := default_ttl;
                 Cache.original_message := Some (take 100 m) |}).
    assert (k ∉ Cache.keys (drop a E)) as Hfresh.
    { intros Hin. apply NoDup_app in Hnd as (_ & Hdisj & _).
      apply (Hdisj k); [|left]. rewrite <- (keys_put_entries default_ttl).
      fold E. unfold Cache.keys in *. apply list_elem_of_fmap in Hin as [ke [-> Hke]].
      apply list_elem_of_fmap. exists ke. split; [done|].
      rewrite <- (take_drop a E). apply elem_of_app. by right. }
    rewrite put_spec; simpl; [| by apply wf_drop | done].
    rewrite set_cache_set. f_equal. unfold inserted, new_entry. simpl. fold k e.
    rewrite setitem_new by done.
    assert (swept now' (drop a E ++ [(k, e)]) = drop a E ++ [(k, e)]) as ->.
    { apply filter_all. intros ke Hke. apply negb_true_iff, expired_false.
      apply elem_of_app in Hke as [Hke|Hke%list_elem_of_singleton].
      - assert (ke ∈ E) as HkeE.
        { rewrite <- (take_drop a E). apply elem_of_app. by right. }
        apply (proj1 (Forall_forall _ _) Hent) in HkeE as [Hts ->]. lra.
      - subst ke. simpl. lra. }
    assert (drop a E ++ [(k, e)] = drop a (E ++ [(k, e)])) as ->.
    { rewrite drop_app_le; [done | subst a; lia]. }
    rewrite limited_fifo; [| | | done].
    + rewrite drop_drop. f_equal. rewrite length_drop, length_app. simpl.
      subst a. lia.
    + apply wf_drop. unfold Cache.wf. unfold Cache.keys. rewrite map_app. simpl.
      fold (Cache.keys E). subst E. rewrite keys_put_entries. done.
    + apply StronglySorted_drop. apply StronglySorted_map.
      rewrite map_app. simpl. subst E. rewrite stamps_put_entries. done.
  - (* a read *)
    apply Forall_cons in Hwin' as [[Hlo Hhi] _].
    rewrite get_spec. simpl. rewrite app_nil_r. fold a.
    destruct (Cache.lookup _ _) as [e|] eqn:Hl; [|done].
    assert (Cache.expired now e = false) as ->; [|done].
    apply expired_false. apply lookup_Some_elem in Hl.
    assert ((Cache._generate_key m false, e) ∈ E) as HkeE.
    { rewrite <- (take_drop a E). apply elem_of_app. by right. }
    apply (proj1 (Forall_forall _ _) Hent) in HkeE as [Hts Httl].
    simpl in *. rewrite Httl. lra.
Qed.

(** C4. Size limit and eviction order. After every [put] on a cache with a
    natural size limit, the store holds at most [max_entries] entries. From
    an empty cache, [max_entries + 1] insertions of distinct keys, none of
    them expiring and stamped in non-decreasing order, leave exactly
    [max_entries] entries: all the keys but the first inserted, whatever
    reads were made in between. *)
Theorem size_limit_and_eviction :
  (∀ self (m : str) (r : payload) (has_pdf : bool) (ttl : option Q)
     (now now' : Q),
     Cache.wf (Cache.cache self) → 0 ≤ Cache.max_entries self →
     Z.of_nat (length (Cache.cache (Cache.put m r has_pdf ttl now now' self).2))
     ≤ Cache.max_entries self)
  ∧ (∀ (max_entries : Z) (default_ttl : Q) (ops : list op) (t0 : Q),
       0 ≤ max_entries →
       Forall (λ t, t0 <= t ∧ t <= t0 + default_ttl)%Q (clock_reads ops) →
       StronglySorted Qle (put_stamps ops) →
       NoDup (put_keys ops) →
       length (put_keys ops) = S (Z.to_nat max_entries) →
       Cache.keys (Cache.cache (run_ops ops (Cache.init max_entries default_ttl)))
       = tail (put_keys ops)
       ∧ length (Cache.cache (run_ops ops (Cache.init max_entries default_ttl)))
         = Z.to_nat max_entries).
Proof.
  split.
  - intros self m r has_pdf ttl now now' Hwf Hmax.
    rewrite put_spec by done. simpl.
    apply length_limited; [|done]. by apply wf_filter, wf_setitem.
  - intros max_entries default_ttl ops t0 Hmax Hwin Hsorted Hnd Hlen.
    rewrite (run_ops_fifo _ _ _ t0) by done. simpl.
    rewrite <- (keys_put_entries default_ttl) in Hlen.
    unfold Cache.keys in Hlen. rewrite length_map in Hlen. rewrite Hlen.
    replace (S (Z.to_nat max_entries) - Z.to_nat max_entries)%nat with 1%nat
      by lia.
    split.
    + rewrite <- (keys_put_entries default_ttl). unfold Cache.keys.
      by destruct (put_entries default_ttl ops).
    + rewrite length_drop. lia.
Qed.

End Eviction.

Ltac q_order := unfold Qle, Qlt; simpl; lia.

Lemma size_limit_and_eviction_witness :
  Z.of_nat (length (Cache.cache
    (@Cache.put Example.runtime (lit "alpha") Demo.r1 false None 0 0
       Cache.cache_instance).2)) ≤ 200
  ∧ Cache.keys (Cache.cache
      (@run_ops Example.runtime Demo.demo_ops (Cache.init 2 3600)))
    = tail (@put_keys Example.runtime Demo.demo_ops)
  ∧ length (Cache.cache
      (@run_ops Example.runtime Demo.demo_ops (Cache.init 2 3600))) = 2%nat.
Proof.
  destruct (@size_limit_and_eviction Example.runtime) as [Hsize Hfifo].
  split.
  - apply (Hsize Cache.cache_instance); [apply NoDup_nil_2 | simpl; lia].
  - apply (Hfifo 2 3600%Q Demo.demo_ops 0%Q).
    + lia.
    + repeat constructor; q_order.
    + repeat constructor; q_order.
    + apply (bool_decide_unpack _). vm_compute. exact I.
    + reflexivity.
Defined.




(** ** Similarity search *)

Section Similarity.
Context `{PyRuntime}.
Implicit Types (e : Cache.entry) (self : Cache.BackendCache).

Lemma jaccard_nonneg (a b : gset str) : (0 <= Cache.jaccard a b)%Q.
Proof.
  unfold Cache.jaccard. destruct (decide _) as [|Hne]; [lra|].
  apply Qle_shift_div_l.
  - unfold Qlt. simpl. lia.
  - unfold Qle. simpl. lia.
Qed.

(** Two sets with no common word have similarity zero. *)
Lemma jaccard_disjoint (a b : gset str) : a ∩ b = ∅ → (Cache.jaccard a b == 0)%Q.
Proof.
  intros Hd. unfold Cache.jaccard. destruct (decide _); [done|].
  rewrite Hd, size_empty. unfold Qdiv. apply Qmult_0_l.
Qed.

Lemma jaccard_empty_r (a b : gset str) : size b = 0%nat → (Cache.jaccard a b == 0)%Q.
Proof.
  intros Hb%size_empty_iff. apply jaccard_disjoint.
  apply leibniz_equiv in Hb. subst b. apply (right_absorb_L ∅ (∩)).
Qed.

Lemma similar_step_inv q seen st e :
  loop_inv q seen st →
  loop_inv q (seen ++ [e])
    (Cache.similar_step (Cache.word_set (Cache._normalize_key q))
       Cache.similarity_threshold st e).
Proof.
  assert (0 < Cache.similarity_threshold)%Q as Hthr by (unfold Qlt; simpl; lia).
  destruct st as [best_match best_score]. intros Hinv.
  (* what the loop does when it keeps its state *)
  assert ((score q e < Cache.similarity_threshold)%Q
          ∨ (best_match <> None ∧ (score q e <= best_score)%Q) →
          loop_inv q (seen ++ [e]) (best_match, best_score)) as Hkeep.
  { intros Hcase. destruct best_match as [p|]; simpl in *.
    - destruct Hinv as (e0 & Hin & Hv & Hbs & Hge & Hall).
      exists e0. split; [apply elem_of_app; by left|]. repeat split; try done.
      apply Forall_app. split; [done|]. constructor; [|constructor].
      destruct Hcase as [Hlt|[_ Hle]]; lra.
    - destruct Hinv as [-> Hall]. split; [done|].
      apply Forall_app. split; [done|]. constructor; [|constructor].
      destruct Hcase as [Hlt|[Hne _]]; done. }
  unfold Cache.similar_step.
  destruct (Cache.original_message e) as [original|] eqn:Horig.
  2:{ apply Hkeep. left. unfold score. rewrite Horig. done. }
  destruct (decide (size (Cache.word_set (Cache._normalize_key original)) = 0%nat))
    as [Hempty|Hne].
  { apply Hkeep. left. unfold score. rewrite Horig.
    rewrite (jaccard_empty_r _ _ Hempty). done. }
  fold (score q e). 
  assert (Cache.jaccard (Cache.word_set (Cache._normalize_key q))
            (Cache.word_set (Cache._normalize_key original)) = score q e) as ->
    by (unfold score; by rewrite Horig).
  destruct (negb (Qle_bool (score q e) best_score)) eqn:Hgt; simpl.
  - destruct (Qle_bool Cache.similarity_threshold (score q e)) eqn:Hge.
    + (* a new best match *)
      apply negb_true_iff in Hgt. apply Qle_bool_iff in Hge.
      assert (best_score < score q e)%Q as Hlt.
      { apply Qnot_le_lt. intros Hle%Qle_bool_iff. congruence. }
      exists e. split; [apply elem_of_app; right; left|].
      repeat split; try done.
      apply Forall_app. split; [|constructor; [lra|constructor]].
      destruct best_match as [p|]; simpl in Hinv.
      * destruct Hinv as (e0 & _ & _ & _ & _ & Hall).
        eapply Forall_impl; [exact Hall|]. simpl. intros e' He'. lra.
      * destruct Hinv as [-> Hall].
        eapply Forall_impl; [exact Hall|]. simpl. intros e' He'. lra.
    + apply Hkeep. left. apply Qnot_le_lt. intros Hle%Qle_bool_iff. congruence.
  - apply negb_false_iff, Qle_bool_iff in Hgt.
    apply Hkeep. destruct best_match as [p|]; simpl in Hinv.
    + right. done.
    + left. destruct Hinv as [-> _]. 
      pose proof (jaccard_nonneg (Cache.word_set (Cache._normalize_key q))
                    (Cache.word_set (Cache._normalize_key original))) as Hnn.
      unfold score in Hgt |- *. rewrite Horig in *. lra.
Qed.

Lemma similar_loop_inv q l seen st :
  loop_inv q seen st →
  loop_inv q (seen ++ l)
    (List.fold_left
       (Cache.similar_step (Cache.word_set (Cache._normalize_key q))
          Cache.similarity_threshold) l st).
Proof.
  revert seen st. induction l as [|e l IH]; intros seen st Hinv; simpl.
  - by rewrite app_nil_r.
  - rewrite (cons_middle e seen l), app_assoc. apply IH.
    by apply similar_step_inv.
Qed.

Lemma Forall_map_snd (P : Cache.entry → Prop) (d : Cache.store) :
  Forall P (List.map snd d) ↔ Forall (λ ke, P ke.2) d.
Proof.
  induction d as [|ke d IH]; simpl.
  - split; constructor.
  - split; intros [Hx Hall]%Forall_cons; constructor; try done; by apply IH.
Qed.

(** The similarity search returns normally and leaves the cache as it is. *)
Lemma find_similar_returns self (q : str) :
  ∃ res,
    Cache._find_similar_cached_response q Cache.similarity_threshold self
    = (Ret res, self).
Proof.
  unfold Cache._find_similar_cached_response, try_except.
  rewrite bind_get_state. cbv zeta.
  destruct (List.fold_left _ _ _) as [best_match best_score].
  by exists best_match.
Qed.

(** C7, as the code has it. The similarity search leaves the cache as it is
    and never raises. It returns no payload exactly when every stored
    entry scores below 0.3 against the query, the score being the Jaccard
    index between the words of the normalized query and the words of the
    first 100 characters of the stored message. A payload it returns is
    that of an entry scoring at least 0.3 and no less than every other
    entry. An entry whose stored 100 characters share no word with the
    query scores zero. *)
Theorem find_similar_spec self (q : str) :
  ∃ res,
    Cache._find_similar_cached_response q Cache.similarity_threshold self
    = (Ret res, self)
    ∧ (res = None
       ↔ Forall (λ ke, (score q ke.2 < Cache.similarity_threshold)%Q)
           (Cache.cache self))
    ∧ (∀ p, res = Some p →
         ∃ ke, ke ∈ Cache.cache self ∧ Cache.value ke.2 = p
               ∧ (Cache.similarity_threshold <= score q ke.2)%Q
               ∧ Forall (λ ke', (score q ke'.2 <= score q ke.2)%Q)
                   (Cache.cache self))
    ∧ (∀ ke original,
         ke ∈ Cache.cache self → Cache.original_message ke.2 = Some original →
         Cache.word_set (Cache._normalize_key q)
         ∩ Cache.word_set (Cache._normalize_key original) = ∅ →
         (score q ke.2 == 0)%Q).
Proof.
  unfold Cache._find_similar_cached_response, try_except.
  rewrite bind_get_state. cbv zeta.
  pose proof (similar_loop_inv q (List.map snd (Cache.cache self)) [] (None, 0%Q))
    as Hinv.
  simpl in Hinv. specialize (Hinv (conj eq_refl (List.Forall_nil _))).
  destruct (List.fold_left _ _ _) as [best_match best_score].
  exists best_match. split; [done|]. split; [|split].
  - destruct best_match as [p|]; simpl in Hinv.
    + destruct Hinv as (e & Hin & _ & -> & Hge & _). split; [done|].
      intros Hall. exfalso.
      apply (Forall_map_snd (λ e, (score q e < Cache.similarity_threshold)%Q))
        in Hall.
      apply (proj1 (Forall_forall _ _) Hall) in Hin. lra.
    + destruct Hinv as [_ Hall]. split; [|done]. intros _.
      by apply (Forall_map_snd (λ e, (score q e < Cache.similarity_threshold)%Q)).
  - intros p ->. simpl in Hinv.
    destruct Hinv as (e & Hin & Hv & -> & Hge & Hall).
    apply list_elem_of_fmap in Hin as [ke [-> Hke]].
    exists ke. repeat split; try done.
    by apply (Forall_map_snd (λ e, (score q e <= score q ke.2)%Q)).
  - intros ke original _ Horig Hdisj. unfold score. rewrite Horig.
    by apply jaccard_disjoint.
Qed.

End Similarity.

Lemma find_similar_spec_witness :
  ∃ res,
    @Cache._find_similar_cached_response Example.runtime (lit "hello there")
      Cache.similarity_threshold
      (@Cache.put Example.runtime (lit "Hello world") Demo.r1 false None 0 0
         Cache.cache_instance).2
    = (Ret res,
       (@Cache.put Example.runtime (lit "Hello world") Demo.r1 false None 0 0
          Cache.cache_instance).2)
    ∧ res = Some (Cache.cached_response_of Demo.r1).
Proof.
  destruct (@find_similar_spec Example.runtime
              (@Cache.put Example.runtime (lit "Hello world") Demo.r1 false None
                 0 0 Cache.cache_instance).2 (lit "hello there"))
    as (res & Hrun & _ & _ & _).
  exists res. split; [exact Hrun|].
  assert ((@Cache._find_similar_cached_response Example.runtime (lit "hello there")
             Cache.similarity_threshold
             (@Cache.put Example.runtime (lit "Hello world") Demo.r1 false None
                0 0 Cache.cache_instance).2).1
          = Ret (Some (Cache.cached_response_of Demo.r1))) as Hc
    by (vm_compute; reflexivity).
  rewrite Hrun in Hc.
  change (Ret res = Ret (Some (Cache.cached_response_of Demo.r1))) in Hc.
  inversion Hc. reflexivity.
Defined.

(** C7 as stated fails on messages longer than 100 characters, because the
    stored message is cut. A message of one word of 101 letters shares all
    its words with itself, yet the search for it after it was stored finds
    nothing; and the word of 100 letters, which shares no word with that
    message, is found. *)
Lemma truncation_counterexample :
  let long := repeat 97%N 101 in
  let short := repeat 97%N 100 in
  let words m := Cache.word_set (@Cache._normalize_key Example.runtime m) in
  let stored :=
    (@Cache.put Example.runtime long Demo.r1 false None 0 0
       Cache.cache_instance).2 in
  (Cache.similarity_threshold <= Cache.jaccard (words long) (words long))%Q
  ∧ (@Cache._find_similar_cached_response Example.runtime long
       Cache.similarity_threshold stored).1 = Ret None
  ∧ words short ∩ words long = ∅
  ∧ (@Cache._find_similar_cached_response Example.runtime short
       Cache.similarity_threshold stored).1
    = Ret (Some (Cache.cached_response_of Demo.r1)).
Proof.
  cbv zeta. split; [|split; [|split]].
  - vm_compute. discriminate.
  - vm_compute. reflexivity.
  - apply (bool_decide_unpack _). vm_compute. exact I.
  - vm_compute. reflexivity.
Qed.

(** ** The cache never raises *)

Section Totality.
Context `{PyRuntime}.
Implicit Types (self : Cache.BackendCache).




End Totality.


(** ** The moderation decision *)

Section Decision.
Context `{PyRuntime} `{Services}.
Import Moderation.

Lemma truthy_lit_app (s : string) (rest : str) :
  s ≠ EmptyString → truthy_str (lit s ++ rest) = true.
Proof. destruct s; [done|]. done. Qed.

Lemma has_error_fail_with state msg step key detail :
  truthy_str msg = true → has_error (fail_with state msg step key detail) = true.
Proof. done. Qed.

(** A classification that leaves no error has found a severity that is a
    number and flagged categories that have a length. *)
Lemma classify_ok state :
  has_error (_classify_content_node state) = false →
  has_error state = false
  ∧ ∃ severity n,
      metadata (_classify_content_node state) !! "severity_score" = Some severity
      ∧ format_2f_check severity = Ret tt
      ∧ py_len (flagged_categories (_classify_content_node state)) = Ret n.
Proof.
  unfold _classify_content_node.
  destruct (has_error state) eqn:Herr; [by intros ?; congruence|].
  destruct (moderation_result state) as [| | | | | | |d]; simpl;
    try (intros Hc; exfalso; revert Hc; by rewrite has_error_fail_with).
  destruct (format_2f_check (default (VNum 0) (assoc "severity_score" d)))
    as [[]|e] eqn:Hfmt; simpl;
    [|intros Hc; exfalso; revert Hc; by rewrite has_error_fail_with].
  destruct (py_len (default (VList []) (assoc "inappropriate_categories" d)))
    as [n|e] eqn:Hlen; simpl;
    [|intros Hc; exfalso; revert Hc; by rewrite has_error_fail_with].
  intros _. split; [done|]. eexists _, n. split; [|split]; [|exact Hfmt|exact Hlen].
  apply lookup_insert_eq.
Qed.

Lemma numeric_lt severity c :
  format_2f_check severity = Ret tt → ∃ below, py_lt severity c = Ret below.
Proof. destruct severity; simpl; try discriminate; eauto. Qed.

(** A decision that leaves no error was taken by the rule. *)
Lemma decision_ok state :
  has_error (_make_decision_node state) = false →
  has_error state = false
  ∧ flagged_categories (_make_decision_node state) = flagged_categories state
  ∧ metadata (_make_decision_node state) !! "severity_score"
    = metadata state !! "severity_score"
  ∧ ∃ n, py_len (flagged_categories state) = Ret n
         ∧ (if Nat.eqb n 0
            then py_lt (dict_get (metadata state) "severity_score" (VNum 0))
                   decision_threshold
            else Ret false) = Ret (approved (_make_decision_node state)).
Proof.
  unfold _make_decision_node.
  destruct (has_error state) eqn:Herr; [by intros ?; congruence|].
  destruct (py_len (flagged_categories state)) as [n|e] eqn:Hlen; simpl;
    [|intros Hc; exfalso; revert Hc; by rewrite has_error_fail_with].
  destruct (if Nat.eqb n 0 then _ else _) as [a|e] eqn:Hrule; simpl;
    [|intros Hc; exfalso; revert Hc; by rewrite has_error_fail_with].
  intros _. repeat split; try done.
  - rewrite !lookup_insert_ne by done. done.
  - exists n. by split.
Qed.

Lemma analyze_returns state w :
  ∃ state' w', _analyze_content_node state w = (Ret state', w').
Proof.
  unfold _analyze_content_node. destruct (has_error state); [by eexists _, _|].
  apply try_except_total. intros e s'. by eexists _, _.
Qed.

(** C2. Every moderation run returns a result, and in every run that
    completes without error the result is approved if and only if its
    flagged categories are empty and its severity score is strictly below
    the threshold 0.3; a severity of exactly 0.3 is not approved. *)
Theorem moderation_decision_rule (input_text : str) (w : World) :
  ∃ res w',
    moderate_content input_text w = (Ret res, w')
    ∧ (r_success res = true →
       ∃ severity n below,
         r_metadata res !! "severity_score" = Some severity
         ∧ py_len (r_flagged_categories res) = Ret n
         ∧ py_lt severity decision_threshold = Ret below
         ∧ (r_approved res = true ↔ n = 0%nat ∧ below = true)
         ∧ (severity = VNum decision_threshold → r_approved res = false)).
Proof.
  unfold moderate_content, graph_invoke.
  destruct (analyze_returns (_validate_input_node (initial_state input_text)) w)
    as (analyzed & w' & Han).
  exists
    (let final_state :=
       _finalize_result_node (_make_decision_node (_classify_content_node analyzed))
     in
     {| r_success := negb (has_error final_state);
        r_input_text := Moderation.input_text final_state;
        r_approved := approved final_state;
        r_confidence := confidence final_state;
        r_flagged_categories := flagged_categories final_state;
        r_explanation := explanation final_state;
        r_moderation_result := moderation_result final_state;
        r_error := error final_state;
        r_processing_step := step final_state;
        r_metadata := metadata final_state |}), w'.
  split.
  { apply try_except_ret. erewrite bind_eval; [|erewrite bind_eval; [|exact Han]];
      reflexivity. }
  cbv zeta. simpl. intros Hok%negb_true_iff.
  change (has_error (_make_decision_node (_classify_content_node analyzed)) = false)
    in Hok.
  apply decision_ok in Hok as (Hok & Hflag & Hmeta & n & Hlen & Hrule).
  apply classify_ok in Hok as (_ & severity & n' & Hsev & Hnum & Hlen').
  assert (n' = n) as -> by congruence.
  destruct (numeric_lt severity decision_threshold Hnum) as [below Hbelow].
  exists severity, n, below.
  unfold dict_get in Hrule. rewrite Hsev in Hrule. simpl in Hrule.
  rewrite Hbelow in Hrule.
  split; [by rewrite !lookup_insert_ne, Hmeta by done|].
  split; [by rewrite Hflag|]. split; [done|].
  assert (approved (_make_decision_node (_classify_content_node analyzed))
          = Nat.eqb n 0 && below) as ->.
  { destruct (Nat.eqb n 0); simpl; congruence. }
  split.
  - rewrite andb_true_iff, Nat.eqb_eq. done.
  - intros ->. simpl in Hbelow. injection Hbelow as <-. apply andb_false_r.
Qed.

End Decision.

Lemma moderation_decision_rule_witness :
  ∃ res w',
    @Moderation.moderate_content Example.runtime Example.online (lit "Hello")
      initial_world = (Ret res, w')
    ∧ Moderation.r_success res = true
    ∧ Moderation.r_approved res = true
    ∧ Moderation.r_metadata res !! "severity_score" = Some (VNum 0).
Proof.
  destruct (@moderation_decision_rule Example.runtime Example.online
              (lit "Hello") initial_world) as (res & w' & Hrun & Hrule).
  exists res, w'. split; [exact Hrun|].
  assert (Moderation.r_success res = true) as Hok.
  { vm_compute in Hrun. injection Hrun as <- _. reflexivity. }
  split; [exact Hok|].
  destruct (Hrule Hok) as (severity & n & below & Hsev & Hlen & Hlt & Hiff & _).
  vm_compute in Hrun. injection Hrun as <- _.
  split; reflexivity.
Defined.

(** ** The English fast path *)

Section FastPath.
Context `{PyRuntime} `{Services}.
Import Bridge.

(** The world after one more call. *)
Lemma invoke_raising_eval {A} (c : call) (answer : list call → outcome A) w :
  invoke_raising c answer w
  = (answer (w_trace w),
     {| w_cache := w_cache w; w_trace := w_trace w ++ [c];
        w_ticks := w_ticks w |}).
Proof.
  unfold invoke_raising, bind, invoke. by destruct (answer (w_trace w)).
Qed.

Lemma lower_en : lower (lit "en") = lit "en".
Proof. rewrite lower_ascii; [done|]. repeat constructor. Qed.

(** [_detect_language_node] returns a state and calls only the detection
    services; it either leaves the language code as it was or ends without
    error. *)
Lemma detect_cases state w :
  ∃ state' w' calls,
    _detect_language_node state w = (Ret state', w')
    ∧ w_trace w' = w_trace w ++ calls ∧ w_cache w' = w_cache w
    ∧ Forall (λ c, is_translate c = false) calls
    ∧ input_text state' = input_text state
    ∧ (detected_language_code state' = detected_language_code state
       ∨ has_error state' = false).
Proof.
  unfold _detect_language_node.
  destruct (has_error state) eqn:Herr.
  { exists state, w, []. rewrite app_nil_r. repeat split; auto. }
  unfold try_except, bind. rewrite invoke_raising_eval.
  destruct (detect_language (w_trace w) (input_text state)) as [[code conf]|e].
  - rewrite invoke_raising_eval. simpl.
    destruct (get_languages _) as [languages|e].
    + eexists _, _, [DetectLanguage (input_text state); GetLanguages].
      split; [reflexivity|]. simpl. rewrite <- app_assoc. simpl.
      repeat split; auto.
    + eexists _, _, [DetectLanguage (input_text state); GetLanguages].
      split; [reflexivity|]. simpl. rewrite <- app_assoc. simpl.
      repeat split; auto.
  - eexists _, _, [DetectLanguage (input_text state)].
    split; [reflexivity|]. simpl. repeat split; auto.
Qed.

Lemma translate_node_cases state w :
  ∃ state' w' calls,
    _translate_text_node state w = (Ret state', w')
    ∧ w_trace w' = w_trace w ++ calls ∧ w_cache w' = w_cache w
    ∧ detected_language_code state' = detected_language_code state.
Proof.
  unfold _translate_text_node.
  destruct (has_error state) eqn:Herr.
  { exists state, w, []. rewrite app_nil_r. repeat split; auto. }
  unfold try_except, bind. rewrite invoke_raising_eval.
  destruct (translate _ _ _ _) as [translated|e];
    eexists _, _, [_]; (split; [reflexivity|]); simpl; repeat split; auto.
Qed.

(** Validation changes neither the text nor the language code. *)
Lemma validate_keeps state :
  input_text (_validate_input_node state) = input_text state
  ∧ detected_language_code (_validate_input_node state)
    = detected_language_code state.
Proof.
  unfold _validate_input_node.
  destruct (negb (truthy_str (strip (input_text state)))); [done|].
  by destruct (30000 <? Z.of_nat (length (strip (input_text state)))).
Qed.

(** C6. English fast path: [process_text] always returns a result, and
    when the detected language code of the result is "en" the result is
    marked English, its translated text is the input text, and no call to
    the translation service was made. *)
Theorem english_fast_path (text : str) (w : World) :
  ∃ res w' calls,
    process_text text w = (Ret res, w')
    ∧ w_trace w' = w_trace w ++ calls ∧ w_cache w' = w_cache w
    ∧ (r_detected_language_code res = lit "en" →
       r_is_english res = true
       ∧ r_translated_text res = text
       ∧ Forall (λ c, is_translate c = false) calls).
Proof.
  destruct (detect_cases (_validate_input_node (initial_state text)) w)
    as (s2 & w2 & calls2 & Hdet & Htr2 & Hc2 & Hnt2 & Hin2 & Hcode2).
  assert (input_text s2 = text) as Hin.
  { rewrite Hin2. by rewrite (proj1 (validate_keeps _)). }
  assert (detected_language_code (_validate_input_node (initial_state text)) = [])
    as Hc0 by (by rewrite (proj2 (validate_keeps _))).
  rewrite Hc0 in Hcode2.
  assert (∃ final w' calls,
    graph_invoke (initial_state text) w = (Ret final, w')
    ∧ w_trace w' = w_trace w ++ calls ∧ w_cache w' = w_cache w
    ∧ (detected_language_code final = lit "en" →
       is_english final = true ∧ translated_text final = text
       ∧ Forall (λ c, is_translate c = false) calls)) as Hgraph.
  { unfold graph_invoke. rewrite (bind_eval _ _ _ _ _ Hdet). cbv zeta.
    unfold _routing_decision, _check_english_node.
    destruct (has_error s2) eqn:Herr2.
    - rewrite Herr2. exists (_finalize_output_node s2), w2, calls2.
      split; [done|]. split; [done|]. split; [done|].
      simpl. intros Hen. destruct Hcode2 as [Hnil|?]; [|congruence].
      rewrite Hnil in Hen. discriminate.
    - unfold has_error in Herr2 |- *. cbn [error is_english]. rewrite Herr2.
      destruct (bool_decide (lower (detected_language_code s2) = lit "en")) eqn:Hen.
      + eexists _, w2, calls2. split; [reflexivity|]. by cbn.
      + match goal with
        | |- context [bind (_translate_text_node ?st) _ w2] =>
            destruct (translate_node_cases st w2)
              as (s4 & w4 & calls4 & Htrn & Htr4 & Hc4 & Hcode4);
            rewrite (bind_eval _ _ _ _ _ Htrn)
        end.
        eexists _, w4, (calls2 ++ calls4). split; [reflexivity|].
        rewrite Htr4, Htr2, Hc4, Hc2, app_assoc. split; [done|]. split; [done|].
        intros Hcode. change (detected_language_code s4 = lit "en") in Hcode.
        rewrite Hcode4 in Hcode. cbn [detected_language_code] in Hcode.
        rewrite Hcode, lower_en in Hen.
        by rewrite bool_decide_eq_true_2 in Hen. }
  destruct Hgraph as (final & w' & calls & Hrun & Htr & Hc & Hfast).
  exists {| r_success := negb (has_error final);
            r_input_text := Bridge.input_text final;
            r_detected_language := detected_language final;
            r_detected_language_code := detected_language_code final;
            r_confidence := confidence final;
            r_translated_text := translated_text final;
            r_is_english := is_english final;
            r_error := error final;
            r_processing_step := step final;
            r_metadata := metadata final |}, w', calls.
  split; [|done].
  unfold process_text. apply try_except_ret. by rewrite (bind_eval _ _ _ _ _ Hrun).
Qed.
End FastPath.

Lemma english_fast_path_witness :
  ∃ res w' calls,
    @Bridge.process_text Example.runtime Example.online
      (lit "Hello, how are you today?") initial_world = (Ret res, w')
    ∧ w_trace w' = w_trace initial_world ++ calls
    ∧ Bridge.r_detected_language_code res = lit "en"
    ∧ Bridge.r_is_english res = true
    ∧ Bridge.r_translated_text res = lit "Hello, how are you today?"
    ∧ Forall (λ c, is_translate c = false) calls.
Proof.
  destruct (@english_fast_path Example.runtime Example.online
              (lit "Hello, how are you today?") initial_world)
    as (res & w' & calls & Hrun & Htrace & _ & Hfast).
  exists res, w', calls. split; [exact Hrun|]. split; [exact Htrace|].
  assert (Bridge.r_detected_language_code res = lit "en") as Hcode.
  { vm_compute in Hrun. injection Hrun as <- _. reflexivity. }
  split; [exact Hcode|]. exact (Hfast Hcode).
Defined.

(** ** Cleaning before back-translation *)

Section Cleaning.
Import Bridge.

Lemma re_sub_fuel_Forall (P : char → Prop) match_at n s :
  (∀ s repl rest, match_at s = Some (repl, rest) →
     Forall P s → Forall P repl ∧ Forall P rest) →
  Forall P s → Forall P (re_sub_fuel match_at n s).
Proof.
  intros Hm. revert s. induction n as [|n IH]; intros s Hs; simpl; [done|].
  destruct s as [|c s']; [done|].
  destruct (match_at (c :: s')) as [[repl rest]|] eqn:Hat.
  - destruct (Hm _ _ _ Hat Hs) as [Hrepl Hrest].
    apply Forall_app. split; [done|]. by apply IH.
  - apply Forall_cons in Hs as [Hc Hs]. constructor; [done|]. by apply IH.
Qed.

Lemma blank_close_suffix s rest :
  blank_close s = Some rest → ∃ pre, s = pre ++ rest.
Proof.
  revert rest. induction s as [|c s IH]; intros rest; simpl; [done|].
  destruct (is_space c); [|done].
  destruct (blank_close s) as [rest'|] eqn:Hb.
  - intros [= <-]. destruct (IH _ eq_refl) as [pre ->]. by exists (c :: pre).
  - destruct (c =? NL)%N; [|done]. intros [= <-]. by exists [c].
Qed.

Lemma drop_spaces_suffix s : ∃ pre, s = pre ++ drop_spaces s.
Proof.
  induction s as [|c s [pre IH]]; simpl; [by exists []|].
  destruct (c =? SP)%N; [|by exists []].
  exists (c :: pre). simpl. by rewrite <- IH.
Qed.

Lemma lstrip_suffix s : ∃ pre, s = pre ++ lstrip s.
Proof.
  induction s as [|c s [pre IH]]; simpl; [by exists []|].
  destruct (is_space c); [|by exists []].
  exists (c :: pre). simpl. by rewrite <- IH.
Qed.

Lemma Forall_lstrip (P : char → Prop) s : Forall P s → Forall P (lstrip s).
Proof.
  intros Hs. destruct (lstrip_suffix s) as [pre Heq]. rewrite Heq in Hs.
  by apply Forall_app in Hs as [_ Hs].
Qed.

Lemma Forall_strip (P : char → Prop) s : Forall P s → Forall P (strip s).
Proof.
  intros Hs. unfold strip, rstrip.
  apply Forall_rev, Forall_lstrip, Forall_rev, Forall_lstrip, Hs.
Qed.

Lemma Forall_filter_pred {A} (f : A → bool) (l : list A) :
  Forall (λ x, f x = true) (List.filter f l).
Proof.
  induction l as [|x l IH]; simpl; [constructor|].
  destruct (f x) eqn:Hf; [by constructor | done].
Qed.

(** No character of the emoji ranges or of the decorative set is left in
    the cleaned text. *)
Lemma clean_no_symbols text : no_symbols (clean_formatting_for_translation text).
Proof.
  unfold clean_formatting_for_translation, no_symbols, re_sub.
  apply Forall_strip.
  apply re_sub_fuel_Forall.
  { intros s repl rest Hat Hs. unfold spaces_at in Hat.
    destruct s as [|c s']; [done|]. destruct (c =? SP)%N; [|done].
    injection Hat as <- <-. split; [by repeat constructor|].
    apply Forall_cons in Hs as [_ Hs].
    destruct (drop_spaces_suffix s') as [pre Heq]. rewrite Heq in Hs.
    by apply Forall_app in Hs as [_ Hs]. }
  apply re_sub_fuel_Forall.
  { intros s repl rest Hat Hs. unfold blank_lines_at in Hat.
    destruct s as [|c s']; [done|]. destruct (c =? NL)%N; [|done].
    destruct (blank_close s') as [rest'|] eqn:Hb; [|done].
    injection Hat as <- <-. split; [by repeat constructor|].
    apply Forall_cons in Hs as [_ Hs].
    destruct (blank_close_suffix _ _ Hb) as [pre Heq]. rewrite Heq in Hs.
    by apply Forall_app in Hs as [_ Hs]. }
  set (t := re_sub_fuel bold_at _ _). clearbody t.
  induction t as [|c t IH]; simpl; [constructor|].
  destruct (in_emoji_ranges c) eqn:He; simpl; [done|].
  destruct (is_decorative c) eqn:Hd; simpl; [done|].
  by constructor.
Qed.

Lemma re_sub_fuel_enough match_at n m s :
  (∀ s repl rest, match_at s = Some (repl, rest) → (length rest < length s)%nat) →
  (length s ≤ n)%nat → (length s ≤ m)%nat →
  re_sub_fuel match_at n s = re_sub_fuel match_at m s.
Proof.
  intros Hshort. revert m s. induction n as [|n IH]; intros m s Hn Hm.
  - destruct s; [|simpl in Hn; lia]. by destruct m.
  - destruct s as [|c s']; [by destruct m|].
    destruct m as [|m]; [simpl in Hm; lia|]. simpl.
    destruct (match_at (c :: s')) as [[repl rest]|] eqn:Hat.
    + apply Hshort in Hat. simpl in *. f_equal. apply IH; lia.
    + simpl in *. f_equal. apply IH; lia.
Qed.

Lemma bold_close_shorter s x rest :
  bold_close s = Some (x, rest) → (length rest < length s)%nat.
Proof.
  revert x. induction s as [|c s IH]; intros x; [done|].
  cbn [bold_close].
  destruct (startswith [STAR; STAR] (c :: s)) eqn:Hsw.
  - intros [= <- <-]. destruct s as [|c' s]; simpl in *.
    + by rewrite andb_false_r in Hsw.
    + rewrite drop_0. lia.
  - destruct (c =? NL)%N; [done|].
    destruct (bold_close s) as [[x' rest']|] eqn:Hb; [|done].
    intros [= <- <-]. specialize (IH _ eq_refl). simpl. lia.
Qed.

Lemma bold_at_shorter s repl rest :
  bold_at s = Some (repl, rest) → (length rest < length s)%nat.
Proof.
  unfold bold_at. destruct (startswith [STAR; STAR] s); [|done].
  intros Hb%bold_close_shorter. rewrite length_drop in Hb. lia.
Qed.

Lemma bold_close_span x post :
  Forall (λ c, c ≠ STAR ∧ c ≠ NL) x →
  bold_close (x ++ [STAR; STAR] ++ post) = Some (x, post).
Proof.
  induction 1 as [|c x [Hstar Hnl] Hx IH]; [done|].
  simpl app. cbn [bold_close startswith].
  assert ((STAR =? c)%N = false) as -> by (apply N.eqb_neq; congruence).
  assert ((c =? NL)%N = false) as -> by by apply N.eqb_neq.
  simpl. simpl in IH. by rewrite IH.
Qed.

(** A bold span on one line is replaced by its content: the text up to
    the first [**] is kept, and the scan goes on after the closing [**]. *)
Lemma re_sub_bold_span pre x post :
  Forall (λ c, c ≠ STAR) pre → Forall (λ c, c ≠ STAR ∧ c ≠ NL) x →
  re_sub bold_at (pre ++ [STAR; STAR] ++ x ++ [STAR; STAR] ++ post)
  = pre ++ x ++ re_sub bold_at post.
Proof.
  intros Hpre Hx. unfold re_sub at 1.
  generalize (le_n (length (pre ++ [STAR; STAR] ++ x ++ [STAR; STAR] ++ post))).
  generalize (length (pre ++ [STAR; STAR] ++ x ++ [STAR; STAR] ++ post)) at 2 3.
  intros n. revert n. induction Hpre as [|c pre Hc Hpre IH]; intros n Hn.
  - destruct n as [|n]; [simpl in Hn; lia|].
    simpl app in *. cbn [re_sub_fuel].
    assert (bold_at (STAR :: STAR :: x ++ STAR :: STAR :: post) = Some (x, post))
      as ->.
    { unfold bold_at. simpl startswith. simpl drop.
      apply (bold_close_span x post Hx). }
    f_equal. apply re_sub_fuel_enough; [apply bold_at_shorter | | done].
    simpl in Hn. rewrite length_app in Hn. simpl in Hn. lia.
  - destruct n as [|n]; [simpl in Hn; lia|].
    simpl app in *. cbn [re_sub_fuel].
    assert (bold_at (c :: pre ++ STAR :: STAR :: x ++ STAR :: STAR :: post) = None)
      as ->.
    { unfold bold_at. cbn [startswith].
      assert ((STAR =? c)%N = false) as -> by (apply N.eqb_neq; congruence).
      done. }
    f_equal. apply IH. simpl in Hn. lia.
Qed.

Lemma re_sub_bold_plain s :
  Forall (λ c, c ≠ STAR) s → re_sub bold_at s = s.
Proof.
  unfold re_sub. generalize (length s). intros n Hs. revert n.
  induction Hs as [|c s Hc Hs IH]; intros [|n]; try done.
  cbn [re_sub_fuel].
  assert (bold_at (c :: s) = None) as ->.
  { unfold bold_at. cbn [startswith].
    assert ((STAR =? c)%N = false) as -> by (apply N.eqb_neq; congruence).
    done. }
  by rewrite IH.
Qed.

(** Wrapping a span of one line in bold markers does not change the
    cleaned text. *)
Lemma clean_unwraps_bold pre x post :
  Forall (λ c, c ≠ STAR) pre → Forall (λ c, c ≠ STAR ∧ c ≠ NL) x →
  Forall (λ c, c ≠ STAR) post →
  clean_formatting_for_translation (pre ++ [STAR; STAR] ++ x ++ [STAR; STAR] ++ post)
  = clean_formatting_for_translation (pre ++ x ++ post).
Proof.
  intros Hpre Hx Hpost. unfold clean_formatting_for_translation.
  rewrite re_sub_bold_span, (re_sub_bold_plain post) by done.
  rewrite (re_sub_bold_plain (pre ++ x ++ post)); [done|].
  apply Forall_app. split; [done|]. apply Forall_app. split; [|done].
  eapply Forall_impl; [exact Hx|]. by intros c [? _].
Qed.

End Cleaning.

Section BackTranslation.
Context `{PyRuntime} `{Services}.
Import Bridge.

Lemma strip_nil : strip [] = [].
Proof. done. Qed.

(** C9. Back-translation cleaning rule. [translate_response_to_user_language]
    always returns a result. For an English target the text comes back
    unchanged and nothing is translated. For any other (non-blank) target,
    with the translation client available, the only text handed to the
    translation service is the cleaned response, or the response itself
    when fewer than 10 characters are left after cleaning; that text is
    translated from "en" to the target whenever it is not blank. The
    cleaned text holds no character of the emoji ranges or of the
    decorative set, and a bold span of one line is replaced by its
    content. *)
Theorem back_translation_cleaning (response target : str) (w : World) :
  ∃ res w' calls,
    translate_response_to_user_language response target w = (Ret res, w')
    ∧ w_trace w' = w_trace w ++ calls
    ∧ (is_english_target target = true →
       t_translated_text res = response
       ∧ Forall (λ c, is_translate c = false) calls)
    ∧ (is_english_target target = false →
       new_translate_client (w_trace w) = Ret tt →
       strip target ≠ [] →
       let cleaned := clean_formatting_for_translation response in
       let chosen :=
         if (length (strip cleaned) <? 10)%nat then response else cleaned in
       Forall (λ c, is_translate c = true → c = Translate chosen (lit "en") target)
         calls
       ∧ (strip chosen ≠ [] →
          calls = [NewTranslateClient; Translate chosen (lit "en") target])
       ∧ no_symbols cleaned
       ∧ (∀ pre x post,
            Forall (λ c, c ≠ STAR) pre → Forall (λ c, c ≠ STAR ∧ c ≠ NL) x →
            Forall (λ c, c ≠ STAR) post →
            response = pre ++ [STAR; STAR] ++ x ++ [STAR; STAR] ++ post →
            cleaned = clean_formatting_for_translation (pre ++ x ++ post))).
Proof.
  unfold translate_response_to_user_language, create_language_bridge_agent.
  unfold try_except at 1. unfold bind at 1. rewrite invoke_raising_eval.
  set (w1 := {| w_cache := w_cache w; w_trace := w_trace w ++ [NewTranslateClient];
                w_ticks := w_ticks w |}).
  destruct (new_translate_client (w_trace w)) as [[]|e] eqn:Hnew.
  2:{ (* the client cannot be built *)
    eexists _, w1, [NewTranslateClient]. split; [reflexivity|].
    split; [done|]. split; [|done]. intros _. split; [done|].
    by repeat constructor. }
  destruct (is_english_target target) eqn:Heng.
  { eexists _, w1, [NewTranslateClient]. split; [reflexivity|].
    split; [done|]. split; [|done]. intros _. split; [done|].
    by repeat constructor. }
  destruct (negb (truthy_str target) || Nat.eqb (length (strip target)) 0)
    eqn:Hblank.
  { eexists _, w1, [NewTranslateClient]. split; [reflexivity|].
    split; [done|]. split; [done|]. intros _ _ Hne. exfalso.
    apply orb_true_iff in Hblank as [Hb|Hb].
    - destruct target; [by apply Hne|done].
    - apply Nat.eqb_eq in Hb. destruct (strip target); [by apply Hne|done]. }
  fold (text_to_translate response).
  assert (text_to_translate response
          = if (length (strip (clean_formatting_for_translation response)) <? 10)%nat
            then response else clean_formatting_for_translation response)
    as Hchosen by done.
  set (chosen := text_to_translate response) in *.
  assert (∀ calls,
    Forall (λ c, is_translate c = true → c = Translate chosen (lit "en") target) calls →
    (strip chosen ≠ [] →
     calls = [NewTranslateClient; Translate chosen (lit "en") target]) →
    let cleaned := clean_formatting_for_translation response in
    let chosen :=
      if (length (strip cleaned) <? 10)%nat then response else cleaned in
    Forall (λ c, is_translate c = true → c = Translate chosen (lit "en") target)
      calls
    ∧ (strip chosen ≠ [] →
       calls = [NewTranslateClient; Translate chosen (lit "en") target])
    ∧ no_symbols cleaned
    ∧ (∀ pre x post,
         Forall (λ c, c ≠ STAR) pre → Forall (λ c, c ≠ STAR ∧ c ≠ NL) x →
         Forall (λ c, c ≠ STAR) post →
         response = pre ++ [STAR; STAR] ++ x ++ [STAR; STAR] ++ post →
         cleaned = clean_formatting_for_translation (pre ++ x ++ post))) as Hfinish.
  { intros calls Hall Hcalls. cbv zeta. rewrite <- Hchosen.
    split; [done|]. split; [done|]. split; [apply clean_no_symbols|].
    intros pre x post Hpre Hx Hpost ->. by apply clean_unwraps_bold. }
  unfold translate_to_language, try_except.
  destruct (negb (truthy_str chosen) || negb (truthy_str (strip chosen)))
    eqn:Hempty.
  { (* nothing to translate *)
    eexists _, w1, [NewTranslateClient]. split; [reflexivity|].
    split; [done|]. split; [done|]. intros _ _ _. apply Hfinish.
    - by repeat constructor.
    - intros Hne. exfalso. apply orb_true_iff in Hempty as [Hb|Hb].
      + destruct chosen; [by apply Hne|done].
      + destruct (strip chosen); [by apply Hne|done]. }
  destruct (bool_decide (lower (lit "en") = lower target)) eqn:Hsame.
  { exfalso. apply bool_decide_eq_true in Hsame. rewrite lower_en in Hsame.
    unfold is_english_target in Heng. apply orb_false_iff in Heng as [Heng _].
    apply bool_decide_eq_false in Heng. congruence. }
  unfold bind. rewrite invoke_raising_eval.
  destruct (translate _ _ _ _) as [translated|e];
    eexists _, _, [NewTranslateClient; Translate chosen (lit "en") target];
    (split; [reflexivity|]); simpl; rewrite <- app_assoc;
    (split; [done|]); (split; [done|]); intros _ _ _; apply Hfinish;
    try done; repeat constructor; try done.
Qed.

End BackTranslation.

Lemma back_translation_cleaning_witness :
  ∃ res w' calls,
    @Bridge.translate_response_to_user_language Example.runtime Example.online
      (lit "**Great** work on this assignment " ++ [0x1F680%N]) (lit "es")
      initial_world = (Ret res, w')
    ∧ w_trace w' = w_trace initial_world ++ calls
    ∧ calls = [NewTranslateClient;
               Translate (lit "Great work on this assignment") (lit "en") (lit "es")]
    ∧ no_symbols (Bridge.clean_formatting_for_translation
                    (lit "**Great** work on this assignment " ++ [0x1F680%N])).
Proof.
  destruct (@back_translation_cleaning Example.runtime Example.online
              (lit "**Great** work on this assignment " ++ [0x1F680%N]) (lit "es")
              initial_world)
    as (res & w' & calls & Hrun & Htrace & _ & Hother).
  exists res, w', calls. split; [exact Hrun|]. split; [exact Htrace|].
  destruct Hother as (_ & Hcalls & Hclean & _).
  - vm_compute. reflexivity.
  - reflexivity.
  - vm_compute. discriminate.
  - split; [|exact Hclean].
    rewrite Hcalls; [vm_compute; reflexivity|].
    vm_compute. discriminate.
Defined.

(** ** The chat endpoint *)

Section EmptyInput.
Context `{PyRuntime} `{Services}.
Import Chat.

Lemma lstrip_spaces s : Forall (λ c, is_space c = true) s → lstrip s = [].
Proof. induction 1 as [|c s Hc _ IH]; simpl; [done|]. by rewrite Hc. Qed.

Lemma strip_spaces s : Forall (λ c, is_space c = true) s → strip s = [].
Proof. intros Hs. unfold strip. by rewrite (lstrip_spaces s Hs). Qed.

(** A message of whitespace only, the empty one included, has no text. *)
Lemma has_text_spaces s : Forall (λ c, is_space c = true) s → has_text s = false.
Proof.
  intros Hs. unfold has_text. rewrite (strip_spaces s Hs). apply andb_false_r.
Qed.

(** C8. Empty-input rejection: a request whose message is empty or made of
    whitespace only and which carries no document (no [pdf_file], or an
    empty one) is answered with [success = false], the error "Empty input"
    and [final_approved = false]; no collaborator is called and the cache
    is left as it was: only the clock is read, once, for the timestamp. *)
Theorem empty_input_rejection (request : ChatMessage) (w : World) :
  Forall (λ c, is_space c = true) (message request) →
  truthy_opt (pdf_file request) = false →
  ∃ res w',
    chat_endpoint request w = (Ret res, w')
    ∧ success res = false
    ∧ error res = Some (lit "Empty input")
    ∧ final_approved res = false
    ∧ bot_response res
      = lit "Please enter a message or upload a PDF file for me to process."
    ∧ grading_result res = VNone ∧ explanation_result res = VNone
    ∧ w_trace w' = w_trace w
    ∧ w_cache w' = w_cache w
    ∧ w_ticks w' = S (w_ticks w).
Proof.
  intros Hm Hpdf. unfold chat_endpoint.
  rewrite (has_text_spaces _ Hm), Hpdf. cbn [negb andb].
  eexists _, _. split; [reflexivity|]. by cbn.
Qed.

End EmptyInput.

Lemma empty_input_rejection_witness :
  ∃ res w',
    @Chat.chat_endpoint Example.runtime Example.online
      {| Chat.message := lit "  "; Chat.user_id := Some (lit "anonymous");
         Chat.session_id := None; Chat.pdf_file := None |} initial_world
    = (Ret res, w')
    ∧ Chat.success res = false
    ∧ Chat.error res = Some (lit "Empty input")
    ∧ w_trace w' = [].
Proof.
  destruct (@empty_input_rejection Example.runtime Example.online
              {| Chat.message := lit "  "; Chat.user_id := Some (lit "anonymous");
                 Chat.session_id := None; Chat.pdf_file := None |} initial_world)
    as (res & w' & Hrun & Hs & He & _ & _ & _ & _ & Ht & _).
  - repeat constructor.
  - reflexivity.
  - exists res, w'. by rewrite Ht.
Defined.

Section FailedStage.
Context `{PyRuntime} `{Services}.
Import Chat.

Lemma has_text_strip s : has_text s = true → truthy_str (strip s) = true.
Proof. unfold has_text. by intros [_ ?]%andb_true_iff. Qed.

(** A look-up of a message the store has no entry for reads no clock and
    changes nothing. *)
Lemma cache_get_absent (m : str) (w : World) :
  Cache.lookup (Cache._generate_key m false) (Cache.cache (w_cache w)) = None →
  cache_get m w = (Ret None, w).
Proof.
  intros Hl. unfold cache_get. rewrite bind_get_state.
  assert (Cache.contains (Cache._generate_key m false) (Cache.cache (w_cache w))
          = false) as ->.
  { apply contains_false. by apply lookup_None. }
  unfold on_cache. rewrite get_spec, Hl. by destruct w.
Qed.

(** Storing a reply never raises and calls no collaborator. *)
Lemma cache_put_quiet (m : str) (r : payload) (w : World) :
  ∃ w', try_except (cache_put m r) (λ _, ret tt) w = (Ret tt, w')
        ∧ w_trace w' = w_trace w.
Proof.
  unfold cache_put, try_except, bind, read_clock, on_cache. cbn.
  destruct (put_total m r false None (clock (w_ticks w)) (clock (S (w_ticks w)))
              (w_cache w)) as [self' ->].
  by eexists.
Qed.

Lemma message_step_failed (request : ChatMessage) (w w1 : World)
    (result : Integration.ProcessResult) :
  has_text (message request) = true →
  Integration.process_with_moderation (message request) w = (Ret result, w1) →
  Integration.success result = false →
  message_step request initial_locals w
  = (Ret (set_should_grade false (append_part could_not_process initial_locals)),
     w1).
Proof.
  intros Htext Hrun Hfail. unfold message_step.
  rewrite Htext, (bind_eval _ _ _ _ _ Hrun), Hfail. done.
Qed.

(** After a text message that set no grading, an attached document is
    only acknowledged. *)
Lemma pdf_step_not_graded (request : ChatMessage) (l : Locals) (w : World) :
  has_text (message request) = true →
  l_should_grade_pdf l = false →
  pdf_step request l w
  = (Ret (if truthy_opt (pdf_file request) then append_part pdf_seen l else l), w).
Proof.
  intros Htext Hgrade. unfold pdf_step.
  destruct (pdf_file request) as [[|c blob]|]; cbn [truthy_opt truthy_str]; [done| |done].
  rewrite Htext. cbn [negb]. by rewrite Hgrade.
Qed.

Lemma run_pipeline_failed (request : ChatMessage) (w w1 : World)
    (result : Integration.ProcessResult) :
  has_text (message request) = true →
  Integration.process_with_moderation (message request) w = (Ret result, w1) →
  Integration.success result = false →
  ∃ res w',
    run_pipeline request w = (Ret res, w')
    ∧ success res = true
    ∧ final_approved res = true
    ∧ bot_response res
      = (if truthy_opt (pdf_file request)
         then could_not_process ++ [NL; NL] ++ pdf_seen
         else could_not_process)
    ∧ grading_result res = VNone
    ∧ w_trace w' = w_trace w1.
Proof.
  intros Htext Hrun Hfail. unfold run_pipeline. cbv zeta.
  rewrite (bind_eval _ _ _ _ _ (message_step_failed _ _ _ _ Htext Hrun Hfail)).
  rewrite (bind_eval _ _ _ _ _
             (pdf_step_not_graded request
                (set_should_grade false (append_part could_not_process initial_locals))
                w1 Htext eq_refl)).
  rewrite (has_text_strip _ Htext).
  destruct (truthy_opt (pdf_file request)).
  - eexists _, _. split; [reflexivity|]. by repeat split.
  - cbn [andb negb l_final_approved set_should_grade append_part initial_locals
         l_translation_info needs_back_translation].
    rewrite bind_ret. cbv beta.
    match goal with
    | |- context [try_except (cache_put ?m ?r) _] =>
        destruct (cache_put_quiet m r w1) as (w2 & Hput & Htr)
    end.
    rewrite (bind_eval _ _ _ _ _ Hput).
    eexists _, _. split; [reflexivity|]. by repeat split.
Qed.

(** C1, as the code has it. A request with a text message that the cache
    has no entry for, and whose translation and moderation stage fails
    ([process_with_moderation] returns without success): the endpoint
    replies with the generic apology (followed by the note on the attached
    document, if there is one), calls nothing after the failed stage, so
    grades nothing, and returns [success = True] with
    [final_approved = True]: the failure branch never clears the flag. *)
Theorem failed_stage_reply (request : ChatMessage) (w w1 : World)
    (result : Integration.ProcessResult) :
  has_text (message request) = true →
  Cache.lookup (Cache._generate_key (message request) false)
    (Cache.cache (w_cache w)) = None →
  Integration.process_with_moderation (message request) w = (Ret result, w1) →
  Integration.success result = false →
  ∃ res w',
    chat_endpoint request w = (Ret res, w')
    ∧ success res = true
    ∧ final_approved res = true
    ∧ bot_response res
      = (if truthy_opt (pdf_file request)
         then could_not_process ++ [NL; NL] ++ pdf_seen
         else could_not_process)
    ∧ grading_result res = VNone
    ∧ w_trace w' = w_trace w1.
Proof.
  intros Htext Habsent Hrun Hfail. unfold chat_endpoint.
  rewrite Htext. cbn [negb andb]. rewrite (has_text_strip _ Htext).
  cbn [andb].
assert ((if negb (truthy_opt (pdf_file request))
           then cache_get (message request) else ret None) w = (Ret None, w))
    as Hcached.
  { destruct (truthy_opt (pdf_file request)); [done|]. by apply cache_get_absent. }
  destruct (run_pipeline_failed request w w1 result Htext Hrun Hfail)
    as (res & w' & Hpipe & Hres).
  exists res, w'. split; [|exact Hres].
  apply try_except_ret. by rewrite (bind_eval _ _ _ _ _ Hcached).
Qed.

End FailedStage.

Lemma failed_stage_reply_witness :
  ∃ res w',
    @Chat.chat_endpoint Example.runtime Example.offline
      {| Chat.message := lit "hello"; Chat.user_id := Some (lit "anonymous");
         Chat.session_id := None; Chat.pdf_file := None |} initial_world
    = (Ret res, w')
    ∧ Chat.success res = true
    ∧ Chat.final_approved res = true
    ∧ Chat.bot_response res = Chat.could_not_process.
Proof.
  assert (∃ result w1,
            @Integration.process_with_moderation Example.runtime Example.offline
              (lit "hello") initial_world = (Ret result, w1)
            ∧ Integration.success result = false) as (result & w1 & Hrun & Hfail).
  { vm_compute. eexists _, _. split; reflexivity. }
  destruct (@failed_stage_reply Example.runtime Example.offline
              {| Chat.message := lit "hello"; Chat.user_id := Some (lit "anonymous");
                 Chat.session_id := None; Chat.pdf_file := None |}
              initial_world w1 result)
    as (res & w' & Hres & Hs & Ha & Hb & _).
  - reflexivity.
  - reflexivity.
  - exact Hrun.
  - exact Hfail.
  - exists res, w'. split; [exact Hres|]. split; [exact Hs|]. split; [exact Ha|].
    exact Hb.
Defined.

(* ===================================================================== *)
(** * Part III: further properties of the code                            *)
(* ===================================================================== *)

(** ** backend_cache.py *)

Section CacheSweep.
Context `{PyRuntime}.
Implicit Types (k : str) (e : Cache.entry) (d : Cache.store)
  (self : Cache.BackendCache).

Lemma lookup_elem_Some k e d : Cache.wf d → (k, e) ∈ d → Cache.lookup k d = Some e.
Proof.
  induction d as [|[k' e'] d IH]; intros Hwf Hin; [by apply elem_of_nil in Hin|].
  apply NoDup_cons in Hwf as [Hk' Hwf]. simpl.
  apply elem_of_cons in Hin as [Heq|Hin].
  - injection Heq as -> ->. by rewrite decide_True.
  - destruct (decide (k = k')) as [->|Hne]; [|by apply IH].
    exfalso. apply Hk'. apply list_elem_of_fmap. by exists (k', e).
Qed.

Lemma lookup_filter_iff (f : str * Cache.entry → bool) k e d :
  Cache.wf d →
  Cache.lookup k (List.filter f d) = Some e
  ↔ Cache.lookup k d = Some e ∧ f (k, e) = true.
Proof.
  intros Hwf. split.
  - intros Hl. split; [by apply (lookup_filter_Some f)|].
    apply lookup_Some_elem, list_elem_of_In, filter_In in Hl. by destruct Hl.
  - intros [Hl Hf]. by apply lookup_filter_keep.
Qed.

Lemma lookup_remove_ne k k' d :
  k ≠ k' → Cache.lookup k' (Cache.remove k d) = Cache.lookup k' d.
Proof.
  intros Hne. induction d as [|[k0 e0] d IH]; simpl; [done|].
  destruct (decide (k = k0)) as [->|Hk].
  - by rewrite decide_False by done.
  - simpl. by rewrite IH.
Qed.

(** X1. The sweep removes exactly the expired entries. On a store with
    distinct keys [_cleanup_expired] returns normally; afterwards a key
    holds an entry exactly when it held that entry before and the entry's
    age [now - timestamp] is at most its time-to-live. The settings of the
    cache are untouched. *)
Theorem sweep_keeps_exactly_live now self :
  Cache.wf (Cache.cache self) →
  ∃ self',
    Cache._cleanup_expired now self = (Ret tt, self')
    ∧ Cache.max_entries self' = Cache.max_entries self
    ∧ Cache.default_ttl self' = Cache.default_ttl self
    ∧ Cache.wf (Cache.cache self')
    ∧ ∀ k e,
        Cache.lookup k (Cache.cache self') = Some e
        ↔ Cache.lookup k (Cache.cache self) = Some e
          ∧ (now - Cache.timestamp e <= Cache.ttl e)%Q.
Proof.
  intros Hwf. eexists. split; [by apply cleanup_expired_spec|].
  cbn [Cache.set_cache Cache.max_entries Cache.default_ttl Cache.cache].
  split; [done|]. split; [done|]. split; [by apply wf_filter|].
  intros k e. rewrite lookup_filter_iff by done.
  cbn [snd]. by rewrite negb_true_iff, expired_false.
Qed.

(** X2. A look-up touches one key only. [get] returns normally; it leaves the
    entry of every other key as it was, and it changes the store at all
    only by deleting the entry it looked up, when that entry has expired:
    whenever it returns a payload, the cache is unchanged. *)
Theorem get_touches_one_key (m : str) (has_pdf : bool) now self :
  ∃ res self',
    Cache.get m has_pdf now self = (Ret res, self')
    ∧ (∀ k, k ≠ Cache._generate_key m has_pdf →
         Cache.lookup k (Cache.cache self') = Cache.lookup k (Cache.cache self))
    ∧ (Cache.lookup (Cache._generate_key m has_pdf) (Cache.cache self) = None →
       res = None ∧ self' = self)
    ∧ (∀ p, res = Some p → self' = self)
    ∧ (length (Cache.cache self') ≤ length (Cache.cache self))%nat.
Proof.
  rewrite get_spec.
  destruct (Cache.lookup _ _) as [entry|] eqn:Hl.
  - destruct (Cache.expired now entry).
    + eexists _, _. split; [reflexivity|]. cbn [Cache.set_cache Cache.cache].
      split; [|split; [done|split; [done|]]].
      * intros k Hk. by apply lookup_remove_ne.
      * clear. induction (Cache.cache self) as [|[k' e'] d IH]; simpl; [done|].
        destruct (decide _); simpl; lia.
    + eexists _, _. split; [reflexivity|]. by repeat split.
  - eexists _, _. split; [reflexivity|]. by repeat split.
Qed.

(** X3. The statistics agree with the sweep: the counts of [get_stats] add up,
    and [active_entries] is the number of entries that a sweep at the same
    instant leaves in the cache. [get_stats] itself removes nothing. *)
Theorem stats_agree_with_sweep now self :
  Cache.wf (Cache.cache self) →
  ∃ total expired_count self',
    Cache._cleanup_expired now self = (Ret tt, self')
    ∧ Cache.get_stats now self !! "total_entries"
      = Some (VNum (inject_Z (Z.of_nat total)))
    ∧ Cache.get_stats now self !! "expired_entries"
      = Some (VNum (inject_Z (Z.of_nat expired_count)))
    ∧ Cache.get_stats now self !! "active_entries"
      = Some (VNum (inject_Z (Z.of_nat (length (Cache.cache self')))))
    ∧ total = length (Cache.cache self)
    ∧ (length (Cache.cache self') + expired_count = total)%nat.
Proof.
  intros Hwf.
  exists (length (Cache.cache self)),
    (length (List.filter (λ ke, Cache.expired now ke.2) (Cache.cache self))).
  eexists. split; [by apply cleanup_expired_spec|].
  cbn [Cache.set_cache Cache.cache].
  assert (length (List.filter (λ ke, negb (Cache.expired now ke.2)) (Cache.cache self))
          + length (List.filter (λ ke, Cache.expired now ke.2) (Cache.cache self))
          = length (Cache.cache self))%nat as Hsum.
  { clear. induction (Cache.cache self) as [|ke d IH]; simpl; [done|].
    destruct (Cache.expired now ke.2); simpl; lia. }
  split; [done|]. split; [done|]. split; [|done].
  unfold Cache.get_stats. cbv zeta.
  rewrite lookup_insert_ne by done. rewrite lookup_insert_ne by done.
  rewrite lookup_insert_eq. do 3 f_equal. lia.
Qed.

End CacheSweep.

Lemma sweep_keeps_exactly_live_witness :
  ∃ self',
    Cache._cleanup_expired 50 DemoCache.two_entries = (Ret tt, self')
    ∧ Cache.keys (Cache.cache self') = [lit "k2"].
Proof.
  destruct (sweep_keeps_exactly_live 50 DemoCache.two_entries)
    as (self' & Hrun & _).
  { apply (bool_decide_unpack _). vm_compute. exact I. }
  exists self'. split; [exact Hrun|].
  assert ((Cache._cleanup_expired 50 DemoCache.two_entries).1 = Ret tt
          ∧ Cache.keys (Cache.cache (Cache._cleanup_expired 50 DemoCache.two_entries).2)
            = [lit "k2"]) as Hc by (vm_compute; done).
  rewrite Hrun in Hc. exact (proj2 Hc).
Defined.

Lemma stats_agree_with_sweep_witness :
  ∃ self',
    Cache._cleanup_expired 50 DemoCache.two_entries = (Ret tt, self')
    ∧ Cache.get_stats 50 DemoCache.two_entries !! "active_entries"
      = Some (VNum (inject_Z (Z.of_nat (length (Cache.cache self'))))).
Proof.
  destruct (stats_agree_with_sweep 50 DemoCache.two_entries)
    as (total & expired_count & self' & Hrun & _ & _ & Hactive & _).
  { apply (bool_decide_unpack _). vm_compute. exact I. }
  exists self'. by split.
Defined.

Section CacheLimit.
Context `{PyRuntime}.
Implicit Types (k : str) (e : Cache.entry) (d : Cache.store)
  (self : Cache.BackendCache).

Lemma insert_by_timestamp_sorted x d :
  ts_sorted d → ts_sorted (Cache.insert_by_timestamp x d).
Proof.
  unfold ts_sorted. induction 1 as [|y d Hs IH Hall]; simpl.
  - repeat constructor.
  - destruct (Qle_bool _ _) eqn:Hle.
    + apply Qle_bool_iff in Hle. constructor; [by constructor|].
      constructor; [done|].
      eapply Forall_impl; [exact Hall|]. cbn beta. intros z Hz. lra.
    + assert (Cache.timestamp y.2 <= Cache.timestamp x.2)%Q as Hyx.
      { apply Qlt_le_weak, Qnot_le_lt. intros Hc%Qle_bool_iff. congruence. }
      constructor; [done|].
      rewrite insert_by_timestamp_perm. by constructor.
Qed.

(** [sorted] puts the items in timestamp order. *)
Lemma sorted_by_timestamp_sorted d : ts_sorted (Cache.sorted_by_timestamp d).
Proof.
  induction d as [|x d IH]; simpl; [constructor|].
  by apply insert_by_timestamp_sorted.
Qed.

Lemma StronglySorted_app_elem {A} (R : A → A → Prop) (l1 l2 : list A) x1 x2 :
  StronglySorted R (l1 ++ l2) → x1 ∈ l1 → x2 ∈ l2 → R x1 x2.
Proof.
  induction l1 as [|y l1 IH]; simpl; intros Hs H1 H2;
    [by apply elem_of_nil in H1|].
  apply StronglySorted_inv in Hs as [Hs Hall].
  apply elem_of_cons in H1 as [->|H1]; [|by apply IH].
  apply (proj1 (Forall_forall _ _) Hall). apply elem_of_app. by right.
Qed.

(** X4. The size limit evicts the oldest entries, and no more than needed. On
    a store with distinct keys and a limit that is not negative,
    [_enforce_size_limit] returns normally and leaves [min(len, max)]
    entries; what it keeps it keeps unchanged, and no entry it removed has
    a later timestamp than an entry it kept. *)
Theorem size_limit_drops_oldest self :
  Cache.wf (Cache.cache self) → 0 ≤ Cache.max_entries self →
  ∃ self',
    Cache._enforce_size_limit self = (Ret tt, self')
    ∧ Z.of_nat (length (Cache.cache self'))
      = Z.min (Z.of_nat (length (Cache.cache self))) (Cache.max_entries self)
    ∧ Cache.wf (Cache.cache self')
    ∧ (∀ k e, Cache.lookup k (Cache.cache self') = Some e →
              Cache.lookup k (Cache.cache self) = Some e)
    ∧ (∀ k e k' e',
         Cache.lookup k (Cache.cache self') = Some e →
         Cache.lookup k' (Cache.cache self) = Some e' →
         Cache.lookup k' (Cache.cache self') = None →
         (Cache.timestamp e' <= Cache.timestamp e)%Q).
Proof.
  intros Hwf Hmax. eexists. split; [by apply enforce_size_limit_spec|].
  destruct (_ <=? _) eqn:Hle.
  { apply Z.leb_le in Hle. split; [lia|]. split; [done|]. split; [done|].
    intros k e k' e' _ Hin Hout. congruence. }
  apply Z.leb_gt in Hle. cbn [Cache.set_cache Cache.cache].
  set (d := Cache.cache self) in *.
  set (n := Z.to_nat (Z.of_nat (length d) - Cache.max_entries self)).
  pose proof (sorted_by_timestamp_perm d) as Hperm.
  pose proof (sorted_by_timestamp_sorted d) as Hsorted.
  set (gone := take n (Cache.sorted_by_timestamp d)) in *.
  assert (NoDup (List.map fst (Cache.sorted_by_timestamp d))) as Hnd.
  { rewrite (Permutation_map fst Hperm). exact Hwf. }
  assert (∀ ke, ke ∈ gone → ke ∈ d) as Hsub.
  { intros ke Hke. rewrite <- Hperm.
    rewrite <- (take_drop n (Cache.sorted_by_timestamp d)).
    apply elem_of_app. by left. }
  split; [|split; [by apply wf_filter|split]].
  - assert (length (List.filter (λ ke, negb (bool_decide (ke.1 ∈ List.map fst gone))) d)
            + length (List.map fst gone) = length d)%nat as Hlen.
    { apply length_filter_notin; [done| |].
      - rewrite <- (take_drop n (Cache.sorted_by_timestamp d)) in Hnd.
        rewrite map_app in Hnd. by apply NoDup_app in Hnd as [Hnd _].
      - intros k Hk. apply list_elem_of_fmap in Hk as [ke [-> Hke]].
        apply list_elem_of_fmap. exists ke. split; [done|]. by apply Hsub. }
    rewrite length_map in Hlen. unfold gone in Hlen. rewrite length_take in Hlen.
    apply Permutation_length in Hperm. fold gone in Hlen. subst n. lia.
  - intros k e Hl. by apply lookup_filter_iff in Hl as [Hl _].
  - intros k e k' e' Hkept Hin Hout.
    apply lookup_filter_iff in Hkept as [Hk Hf]; [|done].
    apply negb_true_iff, bool_decide_eq_false in Hf. cbn [fst] in Hf.
    (* the entry that went is among the first [n] of the sorted items *)
    assert ((k', e') ∈ gone) as Hgone.
    { destruct (decide (k' ∈ List.map fst gone)) as [Hk'|Hk'].
      - apply list_elem_of_fmap in Hk' as [[k0 e0] [Heq Hke]]. cbn in Heq. subst k0.
        pose proof (lookup_elem_Some _ _ _ Hwf (Hsub _ Hke)) as Hl.
        assert (e0 = e') as -> by congruence. done.
      - exfalso.
        assert (Cache.lookup k'
                  (List.filter (λ ke, negb (bool_decide (ke.1 ∈ List.map fst gone))) d)
                = Some e') as Hl; [|congruence].
        apply lookup_filter_keep; [done|done|].
        by apply negb_true_iff, bool_decide_eq_false. }
    (* the entry that stayed is among the others *)
    assert ((k, e) ∈ drop n (Cache.sorted_by_timestamp d)) as Hstay.
    { apply lookup_Some_elem in Hk. rewrite <- Hperm in Hk.
      rewrite <- (take_drop n (Cache.sorted_by_timestamp d)) in Hk.
      apply elem_of_app in Hk as [Hk|Hk]; [|done].
      exfalso. apply Hf. apply list_elem_of_fmap. by exists (k, e). }
    unfold ts_sorted in Hsorted.
    rewrite <- (take_drop n (Cache.sorted_by_timestamp d)) in Hsorted.
    apply (StronglySorted_app_elem _ _ _ _ _ Hsorted Hgone Hstay).
Qed.

End CacheLimit.

Lemma size_limit_drops_oldest_witness :
  ∃ self',
    Cache._enforce_size_limit
      (Cache.set_cache (Cache.cache DemoCache.two_entries) (Cache.init 1 3600))
    = (Ret tt, self')
    ∧ Z.of_nat (length (Cache.cache self')) = 1.
Proof.
  destruct (size_limit_drops_oldest
              (Cache.set_cache (Cache.cache DemoCache.two_entries) (Cache.init 1 3600)))
    as (self' & Hrun & Hlen & _).
  - apply (bool_decide_unpack _). vm_compute. exact I.
  - cbn. lia.
  - exists self'. split; [exact Hrun|]. rewrite Hlen. reflexivity.
Defined.

Section CacheUse.
Context `{PyRuntime}.
Implicit Types (k : str) (e : Cache.entry) (d : Cache.store)
  (self : Cache.BackendCache).


Lemma last_cons {A} (a d : A) (l : list A) : List.last (a :: l) d = List.last l a.
Proof.
  revert a d. induction l as [|b l IH]; intros a d; [done|].
  change (List.last (a :: b :: l) d) with (List.last (b :: l) d).
  by rewrite (IH b d), (IH b a).
Qed.

(** X6. The invariant of the cache. Under a clock that never goes back, any
    sequence of insertions and look-ups keeps the cache well formed: every
    key held once, no more entries than the limit, no entry stamped later
    than the last clock reading; and the settings stay as they were. *)
Theorem cache_invariant_kept (ops : list op) self (t0 : Q) :
  cache_inv t0 self → 0 ≤ Cache.max_entries self →
  StronglySorted Qle (t0 :: clock_reads ops) →
  cache_inv (List.last (clock_reads ops) t0) (run_ops ops self)
  ∧ Cache.max_entries (run_ops ops self) = Cache.max_entries self
  ∧ Cache.default_ttl (run_ops ops self) = Cache.default_ttl self.
Proof.
  revert self t0. induction ops as [|o ops IH]; intros self t0 Hinv Hmax Hclock;
    [done|].
  change (run_ops (o :: ops) self) with (run_ops ops (step o self)).
  destruct o as [m r now now'|m now]; cbn [clock_reads flat_map app] in *.
  - apply StronglySorted_inv in Hclock as [Hclock H0].
    apply Forall_cons in H0 as [H0 _].
    apply StronglySorted_inv in Hclock as [Hclock H1].
    apply Forall_cons in H1 as [H1 _].
    destruct (put_total m r false None now now' self) as [s1 Hput].
    apply (cache_inv_later t0 now) in Hinv; [|done].
    destruct (cache_inv_put _ _ _ _ _ _ _ _ Hinv Hmax Hput) as (Hinv1 & Hmax1 & Httl1).
    apply (cache_inv_later now now') in Hinv1; [|done].
    unfold step. rewrite Hput. cbn [snd].
    rewrite !last_cons.
    destruct (IH s1 now' Hinv1 ltac:(lia) Hclock) as (Hk & Hm & Ht).
    split; [done|]. split; congruence.
  - apply StronglySorted_inv in Hclock as [Hclock H0].
    apply Forall_cons in H0 as [H0 _].
    apply (cache_inv_later t0 now) in Hinv; [|done].
    destruct (Cache.get m false now self) as [res s1] eqn:Hget.
    pose proof (cache_inv_get _ _ _ _ _ _ Hinv Hget) as Hinv1.
    assert (Cache.max_entries s1 = Cache.max_entries self
            ∧ Cache.default_ttl s1 = Cache.default_ttl self) as [Hmax1 Httl1].
    { rewrite get_spec in Hget. destruct (Cache.lookup _ _) as [e|].
      - destruct (Cache.expired now e); by injection Hget as <- <-.
      - by injection Hget as <- <-. }
    unfold step. rewrite Hget. cbn [snd]. rewrite last_cons.
    destruct (IH s1 now Hinv1 ltac:(lia) Hclock) as (Hk & Hm & Ht).
    split; [done|]. split; congruence.
Qed.

(** X7. Emptying the cache. After [clear] every look-up misses, the similarity
    search finds nothing, and the statistics count no entry; the settings
    are kept. *)
Theorem clear_forgets_everything self :
  ∃ self',
    Cache.clear self = (Ret tt, self')
    ∧ Cache.max_entries self' = Cache.max_entries self
    ∧ Cache.default_ttl self' = Cache.default_ttl self
    ∧ (∀ (m : str) has_pdf now, Cache.get m has_pdf now self' = (Ret None, self'))
    ∧ (∀ (q : str) threshold,
         Cache._find_similar_cached_response q threshold self' = (Ret None, self'))
    ∧ (∀ now, Cache.get_stats now self' !! "total_entries" = Some (VNum 0)).
Proof.
  eexists. split; [reflexivity|]. split; [done|]. split; [done|].
  split; [|split].
  - intros m has_pdf now. by rewrite get_spec.
  - done.
  - intros now. unfold Cache.get_stats. cbv zeta. by rewrite lookup_insert_eq.
Qed.

End CacheUse.


Lemma cache_invariant_kept_witness :
  cache_inv 5 (@run_ops Example.runtime Demo.demo_ops (Cache.init 2 3600)).
Proof.
  destruct (@cache_invariant_kept Example.runtime Demo.demo_ops
              (Cache.init 2 3600) 0) as (Hinv & _).
  - apply (cache_inv_init 2 3600 0). lia.
  - cbn. lia.
  - repeat constructor; q_order.
  - exact Hinv.
Defined.

Section CacheKeys.
Context `{PyRuntime}.
Implicit Types (k : str) (e : Cache.entry) (d : Cache.store)
  (self : Cache.BackendCache).

Lemma is_space_ascii_lower_char c : is_space (ascii_lower_char c) = is_space c.
Proof.
  unfold ascii_lower_char.
  destruct ((65 <=? c) && (c <=? 90))%N eqn:Hc; [|done].
  apply andb_true_iff in Hc as [Hlo%N.leb_le Hhi%N.leb_le].
  assert (∀ x, (65 <= x)%N → (x <= 122)%N → is_space x = false) as Hletter.
  { intros x H1 H2. unfold is_space.
    repeat (apply orb_false_iff; split);
      try (apply N.eqb_neq; lia);
      apply andb_false_iff;
      first [ left; apply N.leb_gt; lia | right; apply N.leb_gt; lia ]. }
  rewrite !Hletter; [done|lia..].
Qed.

Lemma lstrip_ascii_lower s : lstrip (ascii_lower s) = ascii_lower (lstrip s).
Proof.
  induction s as [|c s IH]; [done|]. cbn [ascii_lower List.map lstrip].
  rewrite is_space_ascii_lower_char. by destruct (is_space c).
Qed.

Lemma strip_ascii_lower s : strip (ascii_lower s) = ascii_lower (strip s).
Proof.
  assert (∀ x, rev (ascii_lower x) = ascii_lower (rev x)) as Hrev.
  { intros x. unfold ascii_lower. symmetry. apply map_rev. }
  unfold strip, rstrip.
  by rewrite lstrip_ascii_lower, Hrev, lstrip_ascii_lower, Hrev.
Qed.

(** On an ASCII message the normalization is: strip, lower the letters,
    turn newlines into spaces and drop carriage returns. *)
Lemma normalize_key_ascii (m : str) :
  is_ascii m →
  Cache._normalize_key m
  = replace_char CR [] (replace_char NL [SP] (ascii_lower (strip m))).
Proof.
  intros Hm. unfold Cache._normalize_key.
  destruct m as [|c m]; [done|]. cbn [truthy_str negb].
  by rewrite (lower_ascii _ Hm), strip_ascii_lower.
Qed.

(** X8. The cache key ignores letter case and surrounding whitespace: two ASCII
    messages that agree once stripped and lowered get the same key, with
    or without a document, so a look-up under one finds what was stored
    under the other. *)
Theorem key_ignores_case_and_margins (m1 m2 : str) :
  is_ascii m1 → is_ascii m2 →
  ascii_lower (strip m1) = ascii_lower (strip m2) →
  (∀ has_pdf, Cache._generate_key m1 has_pdf = Cache._generate_key m2 has_pdf)
  ∧ (∀ has_pdf now self,
       Cache.get m1 has_pdf now self = Cache.get m2 has_pdf now self).
Proof.
  intros H1 H2 Heq.
  assert (∀ has_pdf, Cache._generate_key m1 has_pdf = Cache._generate_key m2 has_pdf)
    as Hkey.
  { intros has_pdf. unfold Cache._generate_key.
    by rewrite (normalize_key_ascii m1 H1), (normalize_key_ascii m2 H2), Heq. }
  split; [done|]. intros has_pdf now self. unfold Cache.get. by rewrite Hkey.
Qed.

(** X9. The similarity of two word sets lies between 0 and 1, does not depend
    on the order of its arguments, and is 1 for a non-empty set against
    itself. So a stored message scores 1, above the threshold, against any
    query that has the same words after normalization, in whatever order
    and however often. *)
Theorem similarity_range (a b : gset str) :
  (0 <= Cache.jaccard a b)%Q ∧ (Cache.jaccard a b <= 1)%Q
  ∧ Cache.jaccard a b = Cache.jaccard b a
  ∧ (a ≠ ∅ → (Cache.jaccard a a == 1)%Q)
  ∧ (∀ (q m : str) e,
       Cache.original_message e = Some m →
       Cache.word_set (Cache._normalize_key q)
       = Cache.word_set (Cache._normalize_key m) →
       Cache.word_set (Cache._normalize_key q) ≠ ∅ →
       (score q e == 1)%Q ∧ (Cache.similarity_threshold <= score q e)%Q).
Proof.
  assert (∀ c : gset str, c ≠ ∅ → (Cache.jaccard c c == 1)%Q) as Hsame.
  { intros c Hc. unfold Cache.jaccard.
    rewrite (idemp_L (∪) c), (idemp_L (∩) c).
    destruct (decide (size c = 0%nat)) as [Hz|Hnz].
    - apply size_empty_iff, leibniz_equiv in Hz. done.
    - unfold Qdiv. apply Qmult_inv_r. unfold Qeq. simpl. lia. }
  split; [apply jaccard_nonneg|]. split; [|split; [|split]].
  - unfold Cache.jaccard. destruct (decide _) as [|Hne]; [done|].
    assert (size (a ∩ b) ≤ size (a ∪ b))%nat as Hle.
    { apply subseteq_size. etrans; [apply intersection_subseteq_l|].
      apply union_subseteq_l. }
    apply Qle_shift_div_r.
    + unfold Qlt. simpl. lia.
    + unfold Qle. simpl. lia.
  - unfold Cache.jaccard. by rewrite (comm_L (∪) a b), (comm_L (∩) a b).
  - apply Hsame.
  - intros q m e Horig Hwords Hne. unfold score. rewrite Horig, <- Hwords.
    rewrite (Hsame _ Hne). split; [done|]. unfold Qle. simpl. lia.
Qed.

End CacheKeys.

Lemma key_ignores_case_and_margins_witness :
  @Cache._generate_key Example.runtime (lit "  Hello World " ++ [NL]) false
  = @Cache._generate_key Example.runtime (lit "hello world") false.
Proof.
  destruct (@key_ignores_case_and_margins Example.runtime
              (lit "  Hello World " ++ [NL]) (lit "hello world")) as [Hkey _].
  - repeat constructor.
  - repeat constructor.
  - vm_compute. reflexivity.
  - apply Hkey.
Defined.

(** ** Content_Moderation_Agent.py *)

Section ModerationSafety.
Context `{PyRuntime} `{Services}.
Import Moderation.

Lemma validate_closed (text : str) :
  closed (_validate_input_node (initial_state text))
  ∧ input_text (_validate_input_node (initial_state text)) = text
  ∧ (has_error (_validate_input_node (initial_state text)) = true
     ↔ strip text = [] ∨ 10000 < Z.of_nat (length (strip text))).
Proof.
  unfold _validate_input_node, closed. cbn [input_text initial_state].
  destruct (strip text) as [|c s] eqn:Hs; cbn [truthy_str negb].
  { split; [done|]. split; [done|]. split; [by left|intros _; reflexivity]. }
  destruct (10000 <? Z.of_nat (length (c :: s))) eqn:Hlen.
  - apply Z.ltb_lt in Hlen. split; [done|]. split; [done|].
    split; [by right|intros _; reflexivity].
  - apply Z.ltb_ge in Hlen. split; [done|]. split; [done|].
    split; [done|]. intros [?|?]; [done|lia].
Qed.

Lemma classify_closed state :
  input_text (_classify_content_node state) = input_text state
  ∧ (closed state → closed (_classify_content_node state))
  ∧ (has_error state = true → has_error (_classify_content_node state) = true).
Proof.
  unfold _classify_content_node, closed.
  destruct (has_error state) eqn:Herr; [by auto|].
  destruct (moderation_result state) as [| | | | | | |d]; simpl; try done.
  destruct (format_2f_check _) as [[]|e]; simpl; [|done].
  destruct (py_len _) as [n|e]; simpl; [|done].
  unfold has_error in Herr |- *. simpl. by rewrite Herr.
Qed.

Lemma decision_closed state :
  input_text (_make_decision_node state) = input_text state
  ∧ (closed state → closed (_make_decision_node state))
  ∧ (has_error state = true → has_error (_make_decision_node state) = true).
Proof.
  unfold _make_decision_node, closed.
  destruct (has_error state) eqn:Herr; [by auto|].
  destruct (py_len _) as [n|e]; simpl; [|done].
  destruct (if Nat.eqb n 0 then _ else _) as [a|e]; simpl; [|done].
  unfold has_error in Herr |- *. simpl. by rewrite Herr.
Qed.

(** One run of the graph: it returns, calls the model at most once, on the
    input text, and ends in a closed state. *)
Lemma moderation_run (text : str) (w : World) :
  ∃ final w' calls,
    graph_invoke (initial_state text) w = (Ret final, w')
    ∧ w_trace w' = w_trace w ++ calls
    ∧ w_cache w' = w_cache w
    ∧ (calls = [] ∨ calls = [ModerationLLM text])
    ∧ closed final
    ∧ input_text final = text
    ∧ (strip text = [] ∨ 10000 < Z.of_nat (length (strip text)) →
       calls = [] ∧ has_error final = true).
Proof.
  destruct (validate_closed text) as (Hclosed & Hin & Hbad).
  set (v := _validate_input_node (initial_state text)) in *.
  assert (∃ analyzed w' calls,
    _analyze_content_node v w = (Ret analyzed, w')
    ∧ w_trace w' = w_trace w ++ calls
    ∧ w_cache w' = w_cache w
    ∧ (calls = [] ∨ calls = [ModerationLLM text])
    ∧ closed analyzed ∧ input_text analyzed = text
    ∧ (has_error v = true → calls = [] ∧ has_error analyzed = true))
    as (analyzed & w' & calls & Hrun & Htr & Hc & Hcalls & Hcl & Hin' & Hv).
  { unfold _analyze_content_node. destruct (has_error v) eqn:Herr.
    - exists v, w, []. rewrite app_nil_r. by repeat split; try left.
    - unfold try_except, bind. rewrite invoke_raising_eval, Hin.
      destruct (moderation_llm (w_trace w) text) as [content|e].
      + eexists _, _, [ModerationLLM text]. split; [reflexivity|].
        split; [done|]. split; [done|]. split; [by right|].
        split; [|split; [reflexivity|done]].
        intros Hc. change (has_error v = true) in Hc. congruence.
      + eexists _, _, [ModerationLLM text]. split; [reflexivity|].
        split; [done|]. split; [done|]. split; [by right|].
        split; [|split; [exact Hin|done]].
        intros _. reflexivity. }
  destruct (classify_closed analyzed) as (Hi1 & Hc1 & He1).
  destruct (decision_closed (_classify_content_node analyzed)) as (Hi2 & Hc2 & He2).
  exists (_finalize_result_node (_make_decision_node (_classify_content_node analyzed))),
    w', calls.
  split.
  { unfold graph_invoke. by rewrite (bind_eval _ _ _ _ _ Hrun). }
  split; [done|]. split; [done|]. split; [done|].
  split; [|split].
  - unfold closed in *. cbn. intros Herr. apply Hc2; [|exact Herr]. by apply Hc1.
  - cbn. by rewrite Hi2, Hi1.
  - intros Hblank. apply Hbad, Hv in Hblank as [-> Herr].
    split; [done|]. cbn. by apply He2, He1.
Qed.

(** What [moderate_content] returns, whatever the model answers. *)
Lemma moderate_content_cases (text : str) (w : World) :
  ∃ res w' calls,
    moderate_content text w = (Ret res, w')
    ∧ w_trace w' = w_trace w ++ calls
    ∧ w_cache w' = w_cache w
    ∧ (calls = [] ∨ calls = [ModerationLLM text])
    ∧ (r_success res = false → r_approved res = false)
    ∧ r_input_text res = text
    ∧ (strip text = [] ∨ 10000 < Z.of_nat (length (strip text)) →
       calls = [] ∧ r_success res = false).
Proof.
  destruct (moderation_run text w)
    as (final & w' & calls & Hrun & Htr & Hc & Hcalls & Hcl & Hin & Hbad).
  eexists _, w', calls. split.
  { unfold moderate_content. apply try_except_ret.
    by rewrite (bind_eval _ _ _ _ _ Hrun). }
  split; [done|]. split; [done|]. split; [done|]. cbn.
  split; [|split; [done|]].
  - intros Herr%negb_false_iff. by apply Hcl.
  - intros Hblank. apply Hbad in Hblank as [-> Herr]. by rewrite Herr.
Qed.

(** X10. Moderation fails closed. [moderate_content] never raises and never
    touches the cache; it calls the model at most once, on the text it was
    given; and whenever it reports no success (the input was refused, the
    model could not be reached, its reply could not be classified or
    decided on) the content is not approved. *)
Theorem moderation_fails_closed (text : str) (w : World) :
  ∃ res w' calls,
    moderate_content text w = (Ret res, w')
    ∧ w_trace w' = w_trace w ++ calls
    ∧ w_cache w' = w_cache w
    ∧ (calls = [] ∨ calls = [ModerationLLM text])
    ∧ (r_success res = false → r_approved res = false)
    ∧ r_input_text res = text.
Proof.
  destruct (moderate_content_cases text w)
    as (res & w' & calls & Hrun & Htr & Hc & Hcalls & Hclosed & Hin & _).
  by exists res, w', calls.
Qed.

(** X11. Input that is blank or longer than 10,000 characters once stripped is
    refused before the model is asked: no call is made, and the result is
    neither successful nor approved. *)
Theorem moderation_refuses_blank_and_oversized (text : str) (w : World) :
  strip text = [] ∨ 10000 < Z.of_nat (length (strip text)) →
  ∃ res,
    moderate_content text w = (Ret res, w)
    ∧ r_success res = false
    ∧ r_approved res = false
    ∧ r_processing_step res = lit "moderation_complete"
    ∧ ∃ msg, r_error res = Some msg ∧ msg ≠ [].
Proof.
  intros Hbad.
  destruct (validate_closed text) as (Hclosed & Hin & Hiff).
  apply Hiff in Hbad.
  set (v := _validate_input_node (initial_state text)) in *.
  assert (_classify_content_node v = v) as Hcl.
  { unfold _classify_content_node. by rewrite Hbad. }
  assert (_make_decision_node v = v) as Hdec.
  { unfold _make_decision_node. by rewrite Hbad. }
  assert (_analyze_content_node v w = (Ret v, w)) as Han.
  { unfold _analyze_content_node. by rewrite Hbad. }
  eexists. split.
  { unfold moderate_content. apply try_except_ret.
    erewrite bind_eval; [reflexivity|].
    unfold graph_invoke. fold v. rewrite (bind_eval _ _ _ _ _ Han).
    rewrite Hcl, Hdec. reflexivity. }
  cbn [r_success r_approved r_processing_step r_error].
  change (has_error (_finalize_result_node v)) with (has_error v).
  change (approved (_finalize_result_node v)) with (approved v).
  change (error (_finalize_result_node v)) with (error v).
  rewrite Hbad. split; [done|]. split; [by apply Hclosed|]. split; [done|].
  unfold has_error in Hbad. destruct (error v) as [msg|]; [|done].
  exists msg. split; [done|]. by destruct msg.
Qed.

End ModerationSafety.

Lemma moderation_refuses_blank_and_oversized_witness :
  ∃ res,
    @Moderation.moderate_content Example.runtime Example.online (lit "   ")
      initial_world = (Ret res, initial_world)
    ∧ Moderation.r_success res = false
    ∧ Moderation.r_approved res = false.
Proof.
  destruct (@moderation_refuses_blank_and_oversized Example.runtime Example.online
              (lit "   ") initial_world) as (res & Hrun & Hs & Ha & _).
  - left. reflexivity.
  - by exists res.
Defined.

(** ** Language_Bridge_Agent.py *)

Section BridgeEdges.
Context `{PyRuntime} `{Services}.
Import Bridge.

Lemma bridge_validate_error (text : str) :
  has_error (_validate_input_node (initial_state text)) = true
  ↔ strip text = [] ∨ 30000 < Z.of_nat (length (strip text)).
Proof.
  unfold _validate_input_node. cbn [input_text initial_state].
  destruct (strip text) as [|c s] eqn:Hs; cbn [truthy_str negb].
  { split; [by left|intros _; reflexivity]. }
  destruct (30000 <? Z.of_nat (length (c :: s))) eqn:Hlen.
  - apply Z.ltb_lt in Hlen. split; [by right|intros _; reflexivity].
  - apply Z.ltb_ge in Hlen. split; [done|]. intros [?|?]; [done|lia].
Qed.

Lemma bridge_validate_ok (text : str) :
  strip text ≠ [] → Z.of_nat (length (strip text)) ≤ 30000 →
  _validate_input_node (initial_state text)
  = {| input_text := text; detected_language := []; detected_language_code := [];
       confidence := 0%Q; translated_text := []; is_english := false;
       error := None; step := lit "input_validated";
       metadata := <["input_length" := of_nat (length (strip text))]>
                   {[ "input_preview" := VStr (take 100 (strip text)) ]} |}.
Proof.
  intros Hne Hlen. unfold _validate_input_node. cbn [input_text initial_state].
  destruct (strip text) as [|c s] eqn:Hs; [done|]. cbn [truthy_str negb].
  destruct (30000 <? Z.of_nat (length (c :: s))) eqn:Hlt; [|done].
  apply Z.ltb_lt in Hlt. lia.
Qed.

(** X12. Input that is blank or longer than 30,000 characters once stripped is
    refused before any service is called: the result reports an error, no
    language and no translation. *)
Theorem process_text_refuses_blank_and_oversized (text : str) (w : World) :
  strip text = [] ∨ 30000 < Z.of_nat (length (strip text)) →
  ∃ res,
    process_text text w = (Ret res, w)
    ∧ r_success res = false
    ∧ r_input_text res = text
    ∧ r_detected_language_code res = []
    ∧ r_translated_text res = []
    ∧ r_is_english res = false
    ∧ ∃ msg, r_error res = Some msg ∧ msg ≠ [].
Proof.
  intros Hbad%bridge_validate_error.
  destruct (validate_keeps (initial_state text)) as [Hin Hcode].
  set (v := _validate_input_node (initial_state text)) in *.
  assert (translated_text v = [] ∧ is_english v = false) as [Htr Heng].
  { unfold v, _validate_input_node.
    destruct (negb _); [done|]. by destruct (_ <? _). }
  assert (_detect_language_node v w = (Ret v, w)) as Hdet.
  { unfold _detect_language_node. by rewrite Hbad. }
  assert (_check_english_node v = v) as Hcheck.
  { unfold _check_english_node. by rewrite Hbad. }
  eexists. split.
  { unfold process_text. apply try_except_ret.
    erewrite bind_eval; [reflexivity|].
    unfold graph_invoke. fold v. rewrite (bind_eval _ _ _ _ _ Hdet). cbv zeta.
    rewrite Hcheck. unfold _routing_decision. rewrite Hbad. reflexivity. }
  cbn [r_success r_input_text r_detected_language_code r_translated_text
       r_is_english r_error].
  change (has_error (_finalize_output_node v)) with (has_error v).
  change (input_text (_finalize_output_node v)) with (input_text v).
  change (detected_language_code (_finalize_output_node v))
    with (detected_language_code v).
  change (translated_text (_finalize_output_node v)) with (translated_text v).
  change (is_english (_finalize_output_node v)) with (is_english v).
  change (error (_finalize_output_node v)) with (error v).
  rewrite Hbad, Hin, Hcode, Htr, Heng. repeat (split; [done|]).
  unfold has_error in Hbad. destruct (error v) as [msg|]; [|done].
  exists msg. split; [done|]. by destruct msg.
Qed.

Lemma detect_ok state (w : World) (code : str) (conf : Q)
    (languages : list (str * str)) :
  has_error state = false →
  detect_language (w_trace w) (input_text state) = Ret (code, conf) →
  get_languages (w_trace w ++ [DetectLanguage (input_text state)]) = Ret languages →
  ∃ s2,
    _detect_language_node state w
    = (Ret s2,
       {| w_cache := w_cache w;
          w_trace := w_trace w ++ [DetectLanguage (input_text state); GetLanguages];
          w_ticks := w_ticks w |})
    ∧ input_text s2 = input_text state
    ∧ detected_language_code s2 = code
    ∧ detected_language s2 = language_name languages code
    ∧ confidence s2 = conf
    ∧ translated_text s2 = translated_text state
    ∧ error s2 = error state.
Proof.
  intros Herr Hdet Hlang. unfold _detect_language_node. rewrite Herr.
  unfold try_except, bind. rewrite invoke_raising_eval, Hdet.
  rewrite invoke_raising_eval. cbn [w_trace w_cache w_ticks]. rewrite Hlang.
  rewrite <- app_assoc. eexists. split; [reflexivity|]. by repeat split.
Qed.

Lemma translate_node_ok state (w : World) :
  has_error state = false →
  ∃ s4,
    _translate_text_node state w
    = (Ret s4,
       {| w_cache := w_cache w;
          w_trace := w_trace w ++ [Translate (input_text state)
                                     (detected_language_code state) (lit "en")];
          w_ticks := w_ticks w |})
    ∧ input_text s4 = input_text state
    ∧ detected_language_code s4 = detected_language_code state
    ∧ detected_language s4 = detected_language state
    ∧ confidence s4 = confidence state
    ∧ is_english s4 = is_english state
    ∧ match translate (w_trace w) (input_text state)
              (detected_language_code state) (lit "en") with
      | Ret translated => error s4 = error state ∧ translated_text s4 = translated
      | Raise e =>
          error s4 = Some (lit "Translation failed: " ++ exn_message e)
          ∧ translated_text s4 = translated_text state
      end.
Proof.
  intros Herr. unfold _translate_text_node. rewrite Herr.
  unfold try_except, bind. rewrite invoke_raising_eval.
  destruct (translate _ _ _ _) as [translated|e];
    (eexists; split; [reflexivity|]; by repeat split).
Qed.

(** X13. A text in another language is translated once, from the detected
    language to English. When the text passes validation and the service
    detects a code other than "en", the calls made are the detection, the
    list of languages and one translation of the unchanged text from that
    code to "en"; the result carries the detected code, the name the
    service lists for it and the confidence, is not marked English, and
    holds the translation, or the error of the translation call. *)
Theorem process_text_translates_foreign (text code : str) (conf : Q)
    (languages : list (str * str)) (w : World) :
  strip text ≠ [] → Z.of_nat (length (strip text)) ≤ 30000 →
  detect_language (w_trace w) text = Ret (code, conf) →
  get_languages (w_trace w ++ [DetectLanguage text]) = Ret languages →
  lower code ≠ lit "en" →
  ∃ res w',
    process_text text w = (Ret res, w')
    ∧ w_trace w'
      = w_trace w ++ [DetectLanguage text; GetLanguages;
                      Translate text code (lit "en")]
    ∧ w_cache w' = w_cache w
    ∧ r_detected_language_code res = code
    ∧ r_detected_language res = language_name languages code
    ∧ r_confidence res = conf
    ∧ r_is_english res = false
    ∧ match translate (w_trace w ++ [DetectLanguage text; GetLanguages])
              text code (lit "en") with
      | Ret translated =>
          r_success res = true ∧ r_translated_text res = translated
      | Raise e =>
          r_success res = false ∧ r_translated_text res = []
          ∧ r_error res = Some (lit "Translation failed: " ++ exn_message e)
      end.
Proof.
  intros Hne Hlen Hdet Hlang Hcode.
  pose proof (bridge_validate_ok text Hne Hlen) as Hv.
  set (v := _validate_input_node (initial_state text)) in *.
  assert (has_error v = false) as Herr by (by rewrite Hv).
  assert (input_text v = text) as Hin by (by rewrite Hv).
  assert (translated_text v = []) as Htr0 by (by rewrite Hv).
  rewrite <- Hin in Hdet, Hlang.
  destruct (detect_ok v w code conf languages Herr Hdet Hlang)
    as (s2 & Hrun2 & Hin2 & Hcode2 & Hname2 & Hconf2 & Htr2 & Herr2).
  rewrite Hin in Hrun2.
  assert (has_error s2 = false) as Hok2.
  { unfold has_error in *. by rewrite Herr2. }
  assert (bool_decide (lower (detected_language_code s2) = lit "en") = false)
    as Hnot_en.
  { apply bool_decide_eq_false. by rewrite Hcode2. }
  set (checked := _check_english_node s2).
  assert (has_error checked = false ∧ is_english checked = false
          ∧ input_text checked = text ∧ detected_language_code checked = code
          ∧ detected_language checked = language_name languages code
          ∧ confidence checked = conf ∧ translated_text checked = []
          ∧ error checked = error s2)
    as (Hok3 & Heng3 & Hin3 & Hcode3 & Hname3 & Hconf3 & Htr3 & Herr3).
  { unfold checked, _check_english_node. rewrite Hok2. cbv zeta. rewrite Hnot_en.
    cbn [is_english input_text detected_language_code detected_language confidence
         translated_text error].
    unfold has_error in *. cbn [error]. rewrite Hin2, Hin, Htr2, Htr0.
    by repeat split. }
  destruct (translate_node_ok checked
              {| w_cache := w_cache w;
                 w_trace := w_trace w ++ [DetectLanguage text; GetLanguages];
                 w_ticks := w_ticks w |} Hok3)
    as (s4 & Hrun4 & Hin4 & Hcode4 & Hname4 & Hconf4 & Heng4 & Hres4).
  cbn [w_trace w_cache w_ticks] in Hrun4, Hres4.
  rewrite Hin3, Hcode3 in Hrun4, Hres4. rewrite <- app_assoc in Hrun4.
  eexists _, _. split.
  { unfold process_text. apply try_except_ret.
    erewrite bind_eval; [reflexivity|].
    unfold graph_invoke. fold v. rewrite (bind_eval _ _ _ _ _ Hrun2). cbv zeta.
    fold checked. unfold _routing_decision. rewrite Hok3, Heng3.
    rewrite (bind_eval _ _ _ _ _ Hrun4). reflexivity. }
  cbn [w_trace w_cache r_success r_detected_language_code r_detected_language
       r_confidence r_is_english r_translated_text r_error].
  change (has_error (_finalize_output_node s4)) with (has_error s4).
  change (detected_language_code (_finalize_output_node s4))
    with (detected_language_code s4).
  change (detected_language (_finalize_output_node s4)) with (detected_language s4).
  change (confidence (_finalize_output_node s4)) with (confidence s4).
  change (is_english (_finalize_output_node s4)) with (is_english s4).
  change (translated_text (_finalize_output_node s4)) with (translated_text s4).
  change (error (_finalize_output_node s4)) with (error s4).
  rewrite Hcode4, Hname4, Hconf4, Heng4, Hcode3, Hname3, Hconf3, Heng3.
  repeat (split; [done|]).
  destruct (translate _ _ _ _) as [translated|e].
  - destruct Hres4 as [He4 Ht4]. split; [|done].
    unfold has_error in *. by rewrite He4, Herr3, Hok2.
  - destruct Hres4 as [He4 Ht4]. unfold has_error. rewrite He4, Ht4, Htr3.
    by repeat split.
Qed.

End BridgeEdges.

Lemma process_text_refuses_blank_and_oversized_witness :
  ∃ res,
    @Bridge.process_text Example.runtime Example.online (lit "  " ++ [NL])
      initial_world = (Ret res, initial_world)
    ∧ Bridge.r_success res = false.
Proof.
  destruct (@process_text_refuses_blank_and_oversized Example.runtime
              Example.online (lit "  " ++ [NL]) initial_world)
    as (res & Hrun & Hs & _).
  - left. reflexivity.
  - by exists res.
Defined.

Lemma process_text_translates_foreign_witness :
  ∃ res w',
    @Bridge.process_text Example.runtime Example.online (lit "Hola amigos")
      initial_world = (Ret res, w')
    ∧ w_trace w' = [DetectLanguage (lit "Hola amigos"); GetLanguages;
                    Translate (lit "Hola amigos") (lit "es") (lit "en")]
    ∧ Bridge.r_detected_language res = lit "Spanish"
    ∧ Bridge.r_success res = true
    ∧ Bridge.r_translated_text res = lit "<en> Hola amigos".
Proof.
  destruct (@process_text_translates_foreign Example.runtime Example.online
              (lit "Hola amigos") (lit "es") (98 # 100)%Q
              [(lit "en", lit "English"); (lit "es", lit "Spanish")] initial_world)
    as (res & w' & Hrun & Htr & _ & _ & Hname & _ & _ & Hs & Ht).
  - vm_compute. discriminate.
  - vm_compute. discriminate.
  - reflexivity.
  - reflexivity.
  - vm_compute. discriminate.
  - exists res, w'. split; [exact Hrun|]. split; [exact Htr|].
    split; [exact Hname|]. split; [exact Hs|]. exact Ht.
Defined.

Section BridgeTranslate.
Context `{PyRuntime} `{Services}.
Import Bridge.

(** [translate_to_language] returns and calls the service at most once. *)
Lemma translate_to_language_returns (text target source : str) (w : World) :
  ∃ res w' calls,
    translate_to_language text target source w = (Ret res, w')
    ∧ w_trace w' = w_trace w ++ calls
    ∧ w_cache w' = w_cache w
    ∧ (calls = [] ∨ calls = [Translate text source target]).
Proof.
  unfold translate_to_language, try_except.
  destruct (negb (truthy_str text) || negb (truthy_str (strip text))).
  { eexists _, w, []. split; [reflexivity|]. rewrite app_nil_r.
    repeat split; try done; by left. }
  destruct (bool_decide (lower source = lower target)).
  { eexists _, w, []. split; [reflexivity|]. rewrite app_nil_r.
    repeat split; try done; by left. }
  unfold bind. rewrite invoke_raising_eval.
  destruct (translate _ _ _ _) as [translated|e];
    eexists _, _, [Translate text source target];
    (split; [reflexivity|]); repeat split; try done; by right.
Qed.

(** X14. [translate_to_language] never raises, never touches the cache and
    calls the service at most once. A blank text fails without a call; a
    target equal to the source up to letter case returns the text as it is,
    marked as skipped, without a call; otherwise the text is sent once, and
    when the service fails the caller gets the original text back. *)
Theorem translate_to_language_guards (text target source : str) (w : World) :
  ∃ res w' calls,
    translate_to_language text target source w = (Ret res, w')
    ∧ w_trace w' = w_trace w ++ calls
    ∧ w_cache w' = w_cache w
    ∧ (calls = [] ∨ calls = [Translate text source target])
    ∧ (strip text = [] → calls = [] ∧ t_success res = false)
    ∧ (strip text ≠ [] → lower source = lower target →
       calls = [] ∧ t_success res = true ∧ t_skipped res = true
       ∧ t_translated_text res = text)
    ∧ (strip text ≠ [] → lower source ≠ lower target →
       calls = [Translate text source target]
       ∧ t_skipped res = false
       ∧ match translate (w_trace w) text source target with
         | Ret translated =>
             t_success res = true ∧ t_translated_text res = translated
         | Raise e => t_success res = false ∧ t_translated_text res = text
         end).
Proof.
  unfold translate_to_language, try_except.
  destruct (negb (truthy_str text) || negb (truthy_str (strip text))) eqn:Hblank.
  { assert (strip text = []) as Hs.
    { apply orb_true_iff in Hblank as [Hb|Hb].
      - by destruct text.
      - by destruct (strip text). }
    eexists _, w, []. split; [reflexivity|]. rewrite app_nil_r.
    repeat split; try done; by left. }
  assert (strip text ≠ []) as Hs.
  { apply orb_false_iff in Hblank as [_ Hb]. by destruct (strip text). }
  destruct (bool_decide (lower source = lower target)) eqn:Hsame.
  { apply bool_decide_eq_true in Hsame.
    eexists _, w, []. split; [reflexivity|]. rewrite app_nil_r.
    repeat split; try done; by left. }
  apply bool_decide_eq_false in Hsame.
  unfold bind. rewrite invoke_raising_eval.
  destruct (translate _ _ _ _) as [translated|e];
    eexists _, _, [Translate text source target];
    (split; [reflexivity|]); repeat split; try done; by right.
Qed.

(** [translate_response_to_user_language] returns, leaves the cache alone
    and calls nothing but the translation client and service. *)
Lemma translate_response_returns (response target : str) (w : World) :
  ∃ res w' calls,
    translate_response_to_user_language response target w = (Ret res, w')
    ∧ w_trace w' = w_trace w ++ calls
    ∧ w_cache w' = w_cache w
    ∧ Forall (λ c, c = NewTranslateClient ∨ is_translate c = true) calls.
Proof.
  unfold translate_response_to_user_language, create_language_bridge_agent.
  unfold try_except at 1. unfold bind at 1. rewrite invoke_raising_eval.
  destruct (new_translate_client (w_trace w)) as [[]|e].
  2:{ eexists _, _, [NewTranslateClient]. split; [reflexivity|].
      repeat split; try done. by repeat constructor. }
  destruct (is_english_target target).
  { eexists _, _, [NewTranslateClient]. split; [reflexivity|].
    repeat split; try done. by repeat constructor. }
  destruct (negb (truthy_str target) || Nat.eqb (length (strip target)) 0).
  { eexists _, _, [NewTranslateClient]. split; [reflexivity|].
    repeat split; try done. by repeat constructor. }
  match goal with
  | |- context [translate_to_language ?t ?tg ?src ?w0] =>
      destruct (translate_to_language_returns t tg src w0)
        as (res & w' & calls & Hrun & Htr & Hc & Hcalls)
  end.
  rewrite Hrun. exists res, w', (NewTranslateClient :: calls).
  split; [done|]. cbn [w_trace w_cache] in Htr, Hc.
  rewrite Htr, <- app_assoc. split; [done|]. split; [done|].
  constructor; [by left|].
  destruct Hcalls as [->| ->]; [constructor|].
  constructor; [by right|constructor].
Qed.

End BridgeTranslate.

Section BridgeReturns.
Context `{PyRuntime} `{Services}.
Import Bridge.

(** [process_text] returns for every text and leaves the cache alone. *)
Lemma process_text_returns (text : str) (w : World) :
  ∃ res w', process_text text w = (Ret res, w') ∧ w_cache w' = w_cache w.
Proof.
  assert (∃ final w', graph_invoke (initial_state text) w = (Ret final, w')
                      ∧ w_cache w' = w_cache w) as (final & w' & Hrun & Hc).
  { unfold graph_invoke.
    destruct (detect_cases (_validate_input_node (initial_state text)) w)
      as (s2 & w2 & calls2 & Hdet & _ & Hc2 & _).
    rewrite (bind_eval _ _ _ _ _ Hdet). cbv zeta.
    destruct (_routing_decision (_check_english_node s2)).
    - destruct (translate_node_cases (_check_english_node s2) w2)
        as (s4 & w4 & calls4 & Htrn & _ & Hc4 & _).
      rewrite (bind_eval _ _ _ _ _ Htrn). eexists _, _. split; [reflexivity|].
      congruence.
    - by eexists _, _.
    - by eexists _, _. }
  eexists _, w'. split; [|done].
  unfold process_text. apply try_except_ret. by rewrite (bind_eval _ _ _ _ _ Hrun).
Qed.

End BridgeReturns.

(** ** The integrated pipeline *)

Section PipelineOutcome.
Context `{PyRuntime} `{Services}.
Import Integration.

(** X15. The translation and moderation pipeline has two outcomes.
    [process_with_moderation] never raises and never touches the cache.
    A result without success is not approved, carries an error and no
    processed fields. A result with success comes from a translation and a
    moderation that both succeeded, the moderation having been run on the
    translated text; it is approved exactly when the moderation approved,
    and its processed fields repeat the translation and the verdict. *)
Theorem pipeline_outcomes (text : str) (w : World) :
  ∃ res w',
    process_with_moderation text w = (Ret res, w')
    ∧ w_cache w' = w_cache w
    ∧ input_text res = text
    ∧ (success res = false →
       final_approved res = false ∧ processed res = None ∧ is_Some (error res))
    ∧ (success res = true →
       ∃ t m p,
         translation_result res = Some t ∧ moderation_result res = Some m
         ∧ processed res = Some p ∧ error res = None
         ∧ Bridge.r_success t = true ∧ Moderation.r_success m = true
         ∧ Moderation.r_input_text m = Bridge.r_translated_text t
         ∧ final_approved res = Moderation.r_approved m
         ∧ moderation_approved p = Moderation.r_approved m
         ∧ translated_text p = Bridge.r_translated_text t
         ∧ original_language_code p = Bridge.r_detected_language_code t
         ∧ is_english p = Bridge.r_is_english t).
Proof.
  unfold process_with_moderation.
  pose proof (invoke_raising_eval NewTranslateClient new_translate_client w) as Hc1.
  fold Bridge.create_language_bridge_agent in Hc1.
  destruct (new_translate_client (w_trace w)) as [[]|e1].
  2:{ eexists _, _. split.
      { erewrite try_except_raise; [reflexivity|].
        by rewrite (bind_raise _ _ _ _ _ Hc1). }
      cbn. repeat split; try done. }
  set (w1 := {| w_cache := w_cache w; w_trace := w_trace w ++ [NewTranslateClient];
                w_ticks := w_ticks w |}) in *.
  pose proof (invoke_raising_eval NewChatLLM new_chat_llm w1) as Hc2.
  fold Moderation.create_content_moderation_agent in Hc2.
  destruct (new_chat_llm (w_trace w1)) as [[]|e2].
  2:{ eexists _, _. split.
      { erewrite try_except_raise; [reflexivity|].
        rewrite (bind_eval _ _ _ _ _ Hc1). by rewrite (bind_raise _ _ _ _ _ Hc2). }
      cbn. repeat split; try done. }
  set (w2 := {| w_cache := w_cache w1; w_trace := w_trace w1 ++ [NewChatLLM];
                w_ticks := w_ticks w1 |}) in *.
  destruct (process_text_returns text w2) as (t & w3 & Ht & Hcache3).
  destruct (Bridge.r_success t) eqn:Hts.
  2:{ eexists _, _. split.
      { apply try_except_ret.
        rewrite (bind_eval _ _ _ _ _ Hc1), (bind_eval _ _ _ _ _ Hc2),
          (bind_eval _ _ _ _ _ Ht), Hts. reflexivity. }
      cbn. repeat split; try done. }
  destruct (moderate_content_cases (Bridge.r_translated_text t) w3)
    as (m & w4 & calls & Hm & _ & Hcache4 & _ & _ & Hmin & _).
  destruct (Moderation.r_success m) eqn:Hms.
  2:{ eexists _, _. split.
      { apply try_except_ret.
        rewrite (bind_eval _ _ _ _ _ Hc1), (bind_eval _ _ _ _ _ Hc2),
          (bind_eval _ _ _ _ _ Ht), Hts. cbn [negb]. cbv zeta.
        rewrite (bind_eval _ _ _ _ _ Hm), Hms. reflexivity. }
      cbn. rewrite Hcache4, Hcache3. repeat split; try done. }
  eexists _, _. split.
  { apply try_except_ret.
    rewrite (bind_eval _ _ _ _ _ Hc1), (bind_eval _ _ _ _ _ Hc2),
      (bind_eval _ _ _ _ _ Ht), Hts. cbn [negb]. cbv zeta.
    rewrite (bind_eval _ _ _ _ _ Hm), Hms. reflexivity. }
  cbn. rewrite Hcache4, Hcache3. split; [done|]. split; [done|].
  split; [done|]. intros _. eexists t, m, _. by repeat split.
Qed.

End PipelineOutcome.

(** ** api_server.py *)

Section Intent.
Context `{PyRuntime} `{Services}.
Import Chat.

Lemma clamp01_range (x : pyval) : (0 <= clamp01 x)%Q ∧ (clamp01 x <= 1)%Q.
Proof.
  destruct x as [| | q| |[]| | |]; simpl; try (split; lra).
  destruct (Qle_bool 1 q) eqn:Hle1; [split; lra|].
  destruct (Qle_bool q 0) eqn:Hle0; [split; lra|].
  assert (q < 1)%Q by (apply Qnot_le_lt; intros Hc%Qle_bool_iff; congruence).
  assert (0 < q)%Q by (apply Qnot_le_lt; intros Hc%Qle_bool_iff; congruence).
  split; lra.
Qed.

(** What [classify_user_intent] returns, case by case. *)
Lemma classify_user_intent_cases (msg : str) (w : World) :
  ∃ res w' calls,
    classify_user_intent msg w = (Ret res, w')
    ∧ w_trace w' = w_trace w ++ calls
    ∧ w_cache w' = w_cache w
    ∧ (calls = [] ∨ calls = [IntentLLM msg])
    ∧ (0 <= confidence res)%Q ∧ (confidence res <= 1)%Q
    ∧ (intent_llm = None →
       calls = [] ∧ intent res = VStr (lit "unknown") ∧ confidence res = 0%Q)
    ∧ (∀ completion,
         intent_llm = Some completion →
         calls = [IntentLLM msg]
         ∧ match completion (w_trace w) msg with
           | Raise e =>
               intent res = VStr (lit "general") ∧ confidence res = 0%Q
               ∧ reasoning res
                 = VStr (lit "Classification failed: " ++ exn_message e)
           | Ret content =>
               json_loads content = None →
               intent res = VStr (lit "general") ∧ confidence res = 0%Q
           end).
Proof.
  unfold classify_user_intent.
  destruct intent_llm as [completion|] eqn:Hllm.
  2:{ eexists _, w, []. split; [reflexivity|]. rewrite app_nil_r.
      cbn [intent confidence reasoning].
      repeat split; try done; try lra. by left. }
  unfold try_except. unfold bind at 1. rewrite invoke_raising_eval.
  set (w1 := {| w_cache := w_cache w; w_trace := w_trace w ++ [IntentLLM msg];
                w_ticks := w_ticks w |}).
  destruct (completion (w_trace w) msg) as [content|e] eqn:Hreply.
  2:{ eexists _, w1, [IntentLLM msg]. split; [reflexivity|].
      cbn [intent confidence reasoning].
      split; [done|]. split; [done|]. split; [by right|].
      split; [lra|]. split; [lra|]. split; [done|].
      intros c [= <-]. split; [done|]. by rewrite Hreply. }
  (* the reply is read without touching the world *)
  match goal with
  | |- context [match ?body w1 with _ => _ end] =>
      assert (∃ r, body w1 = (r, w1)
                   ∧ (∀ res, r = Ret res →
                        (0 <= confidence res)%Q ∧ (confidence res <= 1)%Q)
                   ∧ (json_loads content = None → ∃ e, r = Raise e))
        as (r & -> & Hrange & Hbad)
  end.
  { unfold bind, lift, ret, raise.
    destruct (json_loads content) as [v|]; [|by eexists; repeat split; eauto].
    destruct (py_contains v "intent") as [[]|]; [| |by eexists; repeat split].
    - destruct (py_contains v "confidence") as [[]|]; cbn [negb];
        [| |]; try (by eexists; repeat split).
      destruct (py_get v "confidence" (VNum (1 # 2))) as [raw|];
        [|by eexists; repeat split].
      destruct (py_float raw) as [x|]; [|by eexists; repeat split].
      destruct (py_get v "intent" VNone) as [i|]; [|by eexists; repeat split].
      destruct (py_get v "reasoning" (VStr [])) as [re|];
        [|by eexists; repeat split].
      eexists. split; [reflexivity|]. split; [|done].
      intros res [= <-]. apply clamp01_range.
    - cbn [negb]. by eexists; repeat split. }
  destruct r as [res|e].
  - exists res, w1, [IntentLLM msg]. split; [done|].
    destruct (Hrange res eq_refl) as [Hlo Hhi].
    split; [done|]. split; [done|]. split; [by right|].
    split; [done|]. split; [done|]. split; [done|].
    intros c [= <-]. split; [done|]. rewrite Hreply.
    intros Hnone. by destruct (Hbad Hnone).
  - eexists _, w1, [IntentLLM msg]. split; [reflexivity|].
    cbn [intent confidence reasoning].
    split; [done|]. split; [done|]. split; [by right|].
    split; [lra|]. split; [lra|]. split; [done|].
    intros c [= <-]. split; [done|]. by rewrite Hreply.
Qed.

(** X16. Intent classification is safe to call. [classify_user_intent] never
    raises and never touches the cache; it asks the model at most once,
    about the message it was given; and the confidence it reports lies
    between 0 and 1. Without a client the intent is "unknown" with
    confidence 0 and nothing is called; when the call fails or the reply
    is not JSON the intent is "general" with confidence 0. *)
Theorem classify_user_intent_safe (msg : str) (w : World) :
  ∃ res w' calls,
    classify_user_intent msg w = (Ret res, w')
    ∧ w_trace w' = w_trace w ++ calls
    ∧ w_cache w' = w_cache w
    ∧ (calls = [] ∨ calls = [IntentLLM msg])
    ∧ (0 <= confidence res)%Q ∧ (confidence res <= 1)%Q
    ∧ (intent_llm = None →
       calls = [] ∧ intent res = VStr (lit "unknown") ∧ confidence res = 0%Q)
    ∧ (∀ completion,
         intent_llm = Some completion →
         calls = [IntentLLM msg]
         ∧ match completion (w_trace w) msg with
           | Raise e =>
               intent res = VStr (lit "general") ∧ confidence res = 0%Q
               ∧ reasoning res
                 = VStr (lit "Classification failed: " ++ exn_message e)
           | Ret content =>
               json_loads content = None →
               intent res = VStr (lit "general") ∧ confidence res = 0%Q
           end).
Proof.
  destruct (classify_user_intent_cases msg w)
    as (res & w' & calls & Hrun & Hrest).
  by exists res, w', calls.
Qed.

End Intent.

Section EndpointTotal.
Context `{PyRuntime} `{Services}.
Import Chat.

Lemma now_iso_eval (w : World) :
  now_iso w
  = (Ret (isoformat (clock (w_ticks w))),
     {| w_cache := w_cache w; w_trace := w_trace w; w_ticks := S (w_ticks w) |}).
Proof. done. Qed.

(** The [except] branch always produces a response. *)
Lemma error_fallback_returns (request : ChatMessage) (e : exn) (w : World) :
  ∃ res w', error_fallback request e w = (Ret res, w').
Proof.
  unfold error_fallback. cbv zeta.
  match goal with
  | |- context [bind (try_except ?m ?h) _] =>
      destruct (try_except_total m h w) as (attempt & w1 & Hattempt)
  end.
  { intros e' s'. by eexists _, _. }
  rewrite (bind_eval _ _ _ _ _ Hattempt).
  destruct attempt as [response|]; [by eexists _, _|].
  unfold bind. rewrite now_iso_eval. by eexists _, _.
Qed.

(** X17. The endpoint never raises: for every request, every state of the cache
    and every behaviour of the collaborators, [chat_endpoint] returns a
    response. *)
Theorem chat_endpoint_never_raises (request : ChatMessage) (w : World) :
  ∃ res w', chat_endpoint request w = (Ret res, w').
Proof.
  unfold chat_endpoint. apply try_except_total.
  intros e s'. apply error_fallback_returns.
Qed.

Lemma lookup_contains k e d :
  Cache.lookup k d = Some e → Cache.contains k d = true.
Proof.
  intros Hl. apply contains_true.
  destruct (decide (k ∈ Cache.keys d)) as [|Hn]; [done|].
  apply lookup_None in Hn. congruence.
Qed.

(** A live entry is read back with one reading of the clock, and nothing
    else changes. *)
Lemma cache_get_live (m : str) (w : World) (e : Cache.entry) :
  Cache.lookup (Cache._generate_key m false) (Cache.cache (w_cache w)) = Some e →
  Cache.expired (clock (w_ticks w)) e = false →
  cache_get m w
  = (Ret (Some (Cache.value e)),
     {| w_cache := w_cache w; w_trace := w_trace w; w_ticks := S (w_ticks w) |}).
Proof.
  intros Hl Hlive. unfold cache_get. rewrite bind_get_state.
  rewrite (lookup_contains _ _ _ Hl).
  unfold bind, read_clock, on_cache. cbn [w_cache w_trace w_ticks].
  by rewrite get_spec, Hl, Hlive.
Qed.

(** X18. A reply in the cache is served without any collaborator. For a text
    request without a document whose key holds a live entry that the
    endpoint stored, the response is the stored text behind the banner
    "**[Cached Response]** ", with the stored translation and explanation
    fields; no collaborator is called and the cache is unchanged: only the
    clock is read, twice. *)
Theorem cache_hit_short_circuit (request : ChatMessage) (w : World)
    (e : Cache.entry) (text : str) (translation explanation : pyval) :
  has_text (message request) = true →
  truthy_opt (pdf_file request) = false →
  Cache.lookup (Cache._generate_key (message request) false)
    (Cache.cache (w_cache w)) = Some e →
  Cache.expired (clock (w_ticks w)) e = false →
  Cache.value e
  = Cache.cached_response_of (response_data text translation explanation true) →
  optional_dict translation → optional_dict explanation →
  ∃ res,
    chat_endpoint request w
    = (Ret res,
       {| w_cache := w_cache w; w_trace := w_trace w;
          w_ticks := S (S (w_ticks w)) |})
    ∧ bot_response res = lit "**[Cached Response]** " ++ text
    ∧ success res = true
    ∧ final_approved res = true
    ∧ user_message res = message request
    ∧ translation_info res = translation
    ∧ explanation_result res = explanation
    ∧ moderation_info res = VNone
    ∧ grading_result res = VNone.
Proof.
  intros Htext Hpdf Hl Hlive Hval Htr Hex.
  pose proof (cache_get_live _ _ _ Hl Hlive) as Hget.
  set (v := Cache.value e) in *.
  assert (v !! "bot_response" = Some (VStr text)) as Hbot by (by rewrite Hval).
  assert (dict_get v "success" (VBool true) = VBool true) as Hsucc
    by (by rewrite Hval).
  assert (dict_get v "final_approved" (VBool true) = VBool true) as Happ
    by (by rewrite Hval).
  assert (dict_get v "translation_info" VNone = translation) as Hti
    by (by rewrite Hval).
  assert (dict_get v "explanation_result" VNone = explanation) as Her
    by (by rewrite Hval).
  assert (Cache.truthy_payload (Some v) = Some v) as Htruthy.
  { unfold Cache.truthy_payload.
    assert (size v ≠ 0%nat) as Hsize.
    { rewrite Hval. apply map_size_non_empty_iff. apply insert_non_empty. }
    by destruct (size v). }
  assert (∀ x, optional_dict x → validate_optional_dict x = Ret x) as Hvalid.
  { intros x [->|[d ->]]; done. }
  eexists. split.
  { unfold chat_endpoint. apply try_except_ret.
    rewrite Htext, Hpdf. cbn [negb andb]. rewrite (has_text_strip _ Htext).
    cbn [andb]. rewrite (bind_eval _ _ _ _ _ Hget), Htruthy.
    unfold cached_reply. rewrite Hbot, Hsucc, Happ, Hti, Her.
    rewrite (Hvalid _ Htr), (Hvalid _ Hex).
    cbn [need lift validate_bool]. rewrite bind_ret. cbv beta.
    unfold bind at 1. rewrite now_iso_eval. reflexivity. }
  by repeat split.
Qed.

End EndpointTotal.

Lemma cache_hit_short_circuit_witness :
  ∃ res w',
    @Chat.chat_endpoint Example.runtime Example.online DemoWorld.hello
      DemoWorld.warm = (Ret res, w')
    ∧ Chat.bot_response res = lit "**[Cached Response]** hi there"
    ∧ w_trace w' = [].
Proof.
  destruct (@cache_hit_short_circuit Example.runtime Example.online
              DemoWorld.hello DemoWorld.warm DemoWorld.stored (lit "hi there")
              VNone VNone) as (res & Hrun & Hbot & _).
  - reflexivity.
  - reflexivity.
  - vm_compute. reflexivity.
  - vm_compute. reflexivity.
  - reflexivity.
  - by left.
  - by left.
  - eexists res, _. split; [exact Hrun|]. split; [exact Hbot|]. reflexivity.
Defined.

Section Rejected.
Context `{PyRuntime} `{Services}.
Import Chat.

(** The calls that a reply to rejected content may still make. *)
Lemma message_step_rejected (request : ChatMessage) (w w1 : World)
    (result : Integration.ProcessResult) (p : Integration.Processed) :
  has_text (message request) = true →
  Integration.process_with_moderation (message request) w = (Ret result, w1) →
  Integration.success result = true →
  Integration.final_approved result = false →
  Integration.processed result = Some p →
  ∃ l w2 calls,
    message_step request initial_locals w = (Ret l, w2)
    ∧ w_trace w2 = w_trace w1 ++ calls
    ∧ w_cache w2 = w_cache w1
    ∧ Forall (λ c, c = IntentLLM (Integration.translated_text p)) calls
    ∧ l_final_approved l = false
    ∧ l_should_grade_pdf l = false
    ∧ l_grading_result l = VNone
    ∧ l_explanation_result l = VNone
    ∧ l_bot_response_parts l = [rejected_notice]
    ∧ (Integration.is_english p = true → l_translation_info l = VNone).
Proof.
  intros Htext Hrun Hok Hrej Hp. unfold message_step.
  rewrite Htext, (bind_eval _ _ _ _ _ Hrun), Hok, Hp.
  cbn [need]. rewrite bind_ret. cbv beta zeta.
  destruct (classify_user_intent_cases (Integration.translated_text p) w1)
    as (i & w2 & calls & Hi & Htr & Hc & Hcalls & _).
  rewrite (bind_eval _ _ _ _ _ Hi), Hrej.
  eexists _, w2, calls. split; [reflexivity|].
  cbn [l_final_approved l_should_grade_pdf l_grading_result l_explanation_result
       l_bot_response_parts l_translation_info initial_locals app].
  split; [done|]. split; [done|].
  split; [destruct Hcalls as [->| ->]; by repeat constructor|].
  repeat (split; [done|]). by intros ->.
Qed.

(** X19. Rejected content is neither cached, graded nor explained. When the
    moderation does not approve a text message, the endpoint answers with
    [final_approved = False] and without grading or explanation result;
    the cache is left as the pipeline left it; and after the pipeline the
    only calls are the intent classification and, for a message in another
    language, the translation of the reply. For an English message the
    reply is the rejection notice (followed by the note on the attached
    document, if there is one). *)
Theorem rejected_content_not_cached (request : ChatMessage) (w w1 : World)
    (result : Integration.ProcessResult) (p : Integration.Processed) :
  has_text (message request) = true →
  Cache.lookup (Cache._generate_key (message request) false)
    (Cache.cache (w_cache w)) = None →
  Integration.process_with_moderation (message request) w = (Ret result, w1) →
  Integration.success result = true →
  Integration.final_approved result = false →
  Integration.processed result = Some p →
  ∃ res w' calls,
    chat_endpoint request w = (Ret res, w')
    ∧ success res = true
    ∧ final_approved res = false
    ∧ grading_result res = VNone
    ∧ explanation_result res = VNone
    ∧ w_cache w' = w_cache w1
    ∧ w_trace w' = w_trace w1 ++ calls
    ∧ Forall (λ c, c = IntentLLM (Integration.translated_text p)
                   ∨ c = NewTranslateClient ∨ is_translate c = true) calls
    ∧ (Integration.is_english p = true →
       bot_response res
       = if truthy_opt (pdf_file request)
         then rejected_notice ++ [NL; NL] ++ pdf_seen
         else rejected_notice).
Proof.
  intros Htext Habsent Hrun Hok Hrej Hp.
  assert ((if negb (truthy_opt (pdf_file request))
           then cache_get (message request) else ret None) w = (Ret None, w))
    as Hcached.
  { destruct (truthy_opt (pdf_file request)); [done|]. by apply cache_get_absent. }
  destruct (message_step_rejected request w w1 result p Htext Hrun Hok Hrej Hp)
    as (l & w2 & calls & Hstep & Htr2 & Hc2 & Hcalls2 & Happ & Hgrade & Hgr & Hex
        & Hparts & Heng).
  pose proof (pdf_step_not_graded request l w2 Htext Hgrade) as Hpdf.
  remember (if truthy_opt (pdf_file request) then append_part pdf_seen l else l)
    as l' eqn:Hl'.
  assert (l_final_approved l' = false ∧ l_grading_result l' = VNone
          ∧ l_explanation_result l' = VNone
          ∧ l_translation_info l' = l_translation_info l
          ∧ l_original_language_code l' = l_original_language_code l
          ∧ l_bot_response_parts l'
            = if truthy_opt (pdf_file request)
              then [rejected_notice; pdf_seen] else [rejected_notice])
    as (Happ' & Hgr' & Hex' & Hti' & Hcode' & Hparts').
  { rewrite Hl'. destruct (truthy_opt (pdf_file request)); cbn; by rewrite ?Hparts. }
  (* the reply, before it is translated back *)
  set (reply := if truthy_opt (pdf_file request)
                then rejected_notice ++ [NL; NL] ++ pdf_seen else rejected_notice).
  assert ((if (1 <? length (l_bot_response_parts l'))%nat
           then join [NL; NL] (l_bot_response_parts l')
           else match l_bot_response_parts l' with
                | [part] => part
                | _ => processing_completed
                end) = reply) as Hreply.
  { rewrite Hparts'. unfold reply. by destruct (truthy_opt (pdf_file request)). }
  (* the translation of the reply, if any *)
  assert (∃ final w3 calls3,
    (if needs_back_translation (l_translation_info l') then
       try_except
         (match l_original_language_code l' with
          | Some code =>
              if truthy_str code then
                (let! response_translation :=
                   Bridge.translate_response_to_user_language reply code in
                 ret (if Bridge.t_success response_translation
                         && negb (Bridge.t_skipped response_translation)
                      then Bridge.t_translated_text response_translation
                      else reply))%M
              else ret reply
          | None => ret reply
          end)
         (λ _, ret reply)
     else ret reply) w2 = (Ret final, w3)
    ∧ w_trace w3 = w_trace w2 ++ calls3
    ∧ w_cache w3 = w_cache w2
    ∧ Forall (λ c, c = NewTranslateClient ∨ is_translate c = true) calls3
    ∧ (needs_back_translation (l_translation_info l') = false → final = reply))
    as (final & w3 & calls3 & Hback & Htr3 & Hc3 & Hcalls3 & Hsame).
  { destruct (needs_back_translation (l_translation_info l')).
    2:{ exists reply, w2, []. rewrite app_nil_r. by repeat split. }
    destruct (l_original_language_code l') as [code|].
    2:{ exists reply, w2, []. rewrite app_nil_r. by repeat split. }
    destruct (truthy_str code).
    2:{ exists reply, w2, []. rewrite app_nil_r. by repeat split. }
    destruct (translate_response_returns reply code w2)
      as (rt & w3 & calls3 & Hrt & Htr3 & Hc3 & Hcalls3).
    eexists _, w3, calls3. split.
    { apply try_except_ret. by rewrite (bind_eval _ _ _ _ _ Hrt). }
    by repeat split. }
  eexists _, _, (calls ++ calls3). split.
  { unfold chat_endpoint. apply try_except_ret.
    rewrite Htext. cbn [negb andb]. rewrite (has_text_strip _ Htext).
    cbn [andb]. rewrite (bind_eval _ _ _ _ _ Hcached). cbn [Cache.truthy_payload].
    unfold run_pipeline. cbv zeta.
    rewrite (bind_eval _ _ _ _ _ Hstep), (bind_eval _ _ _ _ _ Hpdf).
    rewrite Hreply. rewrite (bind_eval _ _ _ _ _ Hback).
    rewrite Happ', andb_false_r. rewrite bind_ret. cbv beta.
    unfold bind. rewrite now_iso_eval. reflexivity. }
  cbn [success final_approved grading_result explanation_result bot_response
       w_cache w_trace].
  rewrite ?Happ', Hgr', Hex', Hc3, Hc2, Htr3, Htr2, app_assoc.
  repeat (split; [done|]). split.
  - apply Forall_app. split.
    + eapply Forall_impl; [exact Hcalls2|]. intros c ->. by left.
    + eapply Forall_impl; [exact Hcalls3|]. intros c Hc. by right.
  - intros Henglish. apply Hsame. rewrite Hti', (Heng Henglish). done.
Qed.

End Rejected.

Lemma rejected_content_not_cached_witness :
  ∃ res w',
    @Chat.chat_endpoint DemoWorld.strict Example.online DemoWorld.hello
      initial_world = (Ret res, w')
    ∧ Chat.final_approved res = false
    ∧ Chat.bot_response res = Chat.rejected_notice
    ∧ w_cache w' = Cache.cache_instance.
Proof.
  assert (∃ result w1 p,
            @Integration.process_with_moderation DemoWorld.strict Example.online
              (lit "hello") initial_world = (Ret result, w1)
            ∧ Integration.success result = true
            ∧ Integration.final_approved result = false
            ∧ Integration.processed result = Some p
            ∧ Integration.is_english p = true
            ∧ w_cache w1 = Cache.cache_instance)
    as (result & w1 & p & Hrun & Hok & Hrej & Hp & Heng & Hcache).
  { vm_compute. eexists _, _, _. repeat split; reflexivity. }
  destruct (@rejected_content_not_cached DemoWorld.strict Example.online
              DemoWorld.hello initial_world w1 result p)
    as (res & w' & calls & Hres & _ & Happ & _ & _ & Hc & _ & _ & Hbot).
  - reflexivity.
  - reflexivity.
  - exact Hrun.
  - exact Hok.
  - exact Hrej.
  - exact Hp.
  - exists res, w'. split; [exact Hres|]. split; [exact Happ|].
    split; [exact (Hbot Heng)|]. by rewrite Hc.
Defined.

Section Documents.
Context `{PyRuntime} `{Services}.
Import Chat.

(** The document step of a request without text. *)
Lemma pdf_step_document_only (request : ChatMessage) (blob : str) (w : World) :
  has_text (message request) = false →
  pdf_file request = Some blob → truthy_str blob = true →
  ∃ l w',
    pdf_step request initial_locals w = (Ret l, w')
    ∧ w_cache w' = w_cache w
    ∧ l_final_approved l = true
    ∧ l_translation_info l = VNone ∧ l_moderation_info l = VNone
    ∧ l_explanation_result l = VNone
    ∧ (validate_pdf_blob (w_trace w) blob = false →
       w_trace w' = w_trace w ++ [ValidatePdf blob]
       ∧ l_grading_result l = VNone
       ∧ l_bot_response_parts l = [pdf_received; invalid_pdf])
    ∧ (validate_pdf_blob (w_trace w) blob = true →
       w_trace w' = w_trace w ++ [ValidatePdf blob; GradePdf blob default_rubric]
       ∧ match grade_assignment_from_blob (w_trace w ++ [ValidatePdf blob]) blob
                 default_rubric with
         | Raise _ =>
             l_grading_result l = VNone
             ∧ l_bot_response_parts l = [pdf_received; pdf_failed]
         | Ret (marks_obtained, total_marks, ai_feedback) =>
             l_grading_result l
             = VDict [ ("marks_obtained", marks_obtained);
                       ("total_marks", total_marks);
                       ("ai_feedback", ai_feedback) ]
             ∧ ∃ part, l_bot_response_parts l = [pdf_received; part]
         end).
Proof.
  intros Htext Hpdf Hblob. unfold pdf_step. rewrite Hpdf, Hblob, Htext.
  cbn [negb l_should_grade_pdf set_should_grade append_part andb].
  unfold try_except, bind, invoke. cbn [w_trace w_cache w_ticks].
  destruct (validate_pdf_blob (w_trace w) blob) eqn:Hvalid; cbn [negb].
  2:{ eexists _, _. split; [reflexivity|]. by repeat split. }
  unfold ret at 1. cbn [w_trace w_cache w_ticks].
  rewrite <- app_assoc. cbn [app].
  destruct (grade_assignment_from_blob _ blob default_rubric)
    as [[[marks_obtained total_marks] ai_feedback]|e].
  2:{ eexists _, _. split; [reflexivity|]. by repeat split. }
  destruct (percentage_of marks_obtained total_marks) as [percentage|e].
  2:{ eexists _, _. split; [reflexivity|]. repeat split; try done. by eexists. }
  destruct (grade_band percentage) as [grade_emoji grade_level].
  eexists _, _. split; [reflexivity|]. repeat split; try done. by eexists.
Qed.

(** X20. A document sent without text. The request is not translated,
    moderated or cached: the only calls are the validation of the document
    and, when it is valid, one grading against the default rubric. An
    invalid document is answered with the invalid-document notice and is
    not graded; a graded document comes back with the marks, the total and
    the feedback of the grader; a grader that fails leaves no grading
    result. The response is always successful and approved. *)
Theorem document_only_request (request : ChatMessage) (blob : str) (w : World) :
  has_text (message request) = false →
  pdf_file request = Some blob → truthy_str blob = true →
  ∃ res w',
    chat_endpoint request w = (Ret res, w')
    ∧ success res = true ∧ final_approved res = true
    ∧ translation_info res = VNone ∧ moderation_info res = VNone
    ∧ explanation_result res = VNone
    ∧ w_cache w' = w_cache w
    ∧ (validate_pdf_blob (w_trace w) blob = false →
       w_trace w' = w_trace w ++ [ValidatePdf blob]
       ∧ grading_result res = VNone
       ∧ bot_response res = pdf_received ++ [NL; NL] ++ invalid_pdf)
    ∧ (validate_pdf_blob (w_trace w) blob = true →
       w_trace w' = w_trace w ++ [ValidatePdf blob; GradePdf blob default_rubric]
       ∧ match grade_assignment_from_blob (w_trace w ++ [ValidatePdf blob]) blob
                 default_rubric with
         | Raise _ =>
             grading_result res = VNone
             ∧ bot_response res = pdf_received ++ [NL; NL] ++ pdf_failed
         | Ret (marks_obtained, total_marks, ai_feedback) =>
             grading_result res
             = VDict [ ("marks_obtained", marks_obtained);
                       ("total_marks", total_marks);
                       ("ai_feedback", ai_feedback) ]
         end).
Proof.
  intros Htext Hpdf Hblob.
  destruct (pdf_step_document_only request blob w Htext Hpdf Hblob)
    as (l & w1 & Hstep & Hc & Happ & Hti & Hmi & Hex & Hinvalid & Hvalid).
  assert (truthy_opt (pdf_file request) = true) as Hhas by (by rewrite Hpdf).
  assert (message_step request initial_locals w = (Ret initial_locals, w)) as Hmsg.
  { unfold message_step. by rewrite Htext. }
  eexists _, _. split.
  { unfold chat_endpoint. apply try_except_ret.
    rewrite Htext, Hhas. cbn [negb andb]. rewrite andb_false_r.
    rewrite bind_ret. cbv beta. cbn [Cache.truthy_payload].
    unfold run_pipeline. cbv zeta.
    rewrite (bind_eval _ _ _ _ _ Hmsg), (bind_eval _ _ _ _ _ Hstep).
    rewrite Hti. cbn [needs_back_translation]. rewrite bind_ret. cbv beta.
    rewrite Hhas. cbn [negb]. rewrite andb_false_r. cbn [andb].
    rewrite bind_ret. cbv beta. unfold bind. rewrite now_iso_eval.
    reflexivity. }
  cbn [success final_approved translation_info moderation_info explanation_result
       grading_result bot_response w_cache w_trace].
  rewrite ?Happ, ?Hti, Hmi, Hex, Hc. repeat (split; [done|]). split.
  - intros Hv. destruct (Hinvalid Hv) as (Htr & Hgr & Hparts).
    by rewrite Htr, Hgr, Hparts.
  - intros Hv. destruct (Hvalid Hv) as (Htr & Hgraded). split; [done|].
    destruct (grade_assignment_from_blob _ blob default_rubric)
      as [[[marks_obtained total_marks] ai_feedback]|e].
    + by destruct Hgraded as [-> _].
    + destruct Hgraded as [-> ->]. done.
Qed.

End Documents.

Lemma document_only_request_witness :
  ∃ res w',
    @Chat.chat_endpoint Example.runtime Example.online
      {| Chat.message := []; Chat.user_id := Some (lit "anonymous");
         Chat.session_id := None; Chat.pdf_file := Some (lit "bm90IGEgcGRm") |}
      initial_world = (Ret res, w')
    ∧ Chat.bot_response res = Chat.pdf_received ++ [NL; NL] ++ Chat.invalid_pdf
    ∧ w_trace w' = [ValidatePdf (lit "bm90IGEgcGRm")].
Proof.
  destruct (@document_only_request Example.runtime Example.online
              {| Chat.message := []; Chat.user_id := Some (lit "anonymous");
                 Chat.session_id := None;
                 Chat.pdf_file := Some (lit "bm90IGEgcGRm") |}
              (lit "bm90IGEgcGRm") initial_world)
    as (res & w' & Hrun & _ & _ & _ & _ & _ & _ & Hinvalid & _).
  - reflexivity.
  - reflexivity.
  - reflexivity.
  - destruct (Hinvalid eq_refl) as (Htr & _ & Hbot).
    exists res, w'. split; [exact Hrun|]. split; [exact Hbot|]. exact Htr.
Defined.

Section ModerationUnparsed.
Context `{PyRuntime} `{Services}.
Import Moderation.

Lemma moderation_validate_ok (text : str) :
  strip text ≠ [] → Z.of_nat (length (strip text)) ≤ 10000 →
  _validate_input_node (initial_state text)
  = {| input_text := text; moderation_result := VDict []; approved := false;
       confidence := VNum 0; flagged_categories := VList [];
       explanation := VStr []; error := None; step := lit "input_validated";
       metadata := <["input_length" := of_nat (length (strip text))]>
                   {[ "input_preview" := VStr (take 100 (strip text)) ]} |}.
Proof.
  intros Hne Hlen. unfold _validate_input_node. cbn [input_text initial_state].
  destruct (strip text) as [|c s] eqn:Hs; [done|]. cbn [truthy_str negb].
  destruct (10000 <? Z.of_nat (length (c :: s))) eqn:Hlt; [|done].
  apply Z.ltb_lt in Hlt. lia.
Qed.

(** X21. A reply of the model that is not JSON counts as a clean verdict. When
    the text passes validation and the model answers with something that
    [json.loads] rejects, the moderation succeeds and approves the text,
    with no flagged category, confidence 0.5 and the explanation that the
    response format was unexpected. *)
Theorem unparsed_reply_is_approved (text content : str) (w : World) :
  strip text ≠ [] → Z.of_nat (length (strip text)) ≤ 10000 →
  moderation_llm (w_trace w) text = Ret content →
  json_loads content = None →
  ∃ res w',
    moderate_content text w = (Ret res, w')
    ∧ w_trace w' = w_trace w ++ [ModerationLLM text]
    ∧ r_success res = true
    ∧ r_approved res = true
    ∧ r_flagged_categories res = VList []
    ∧ r_confidence res = VNum (1 # 2)
    ∧ r_explanation res
      = VStr (lit "Analysis completed but response format was unexpected").
Proof.
  intros Hne Hlen Hreply Hjson.
  eexists _, _. split.
  { unfold moderate_content. apply try_except_ret.
    erewrite bind_eval; [reflexivity|].
    unfold graph_invoke. rewrite (moderation_validate_ok text Hne Hlen).
    erewrite bind_eval; [reflexivity|].
    unfold _analyze_content_node. cbn [has_error error input_text].
    apply try_except_ret. unfold bind. rewrite invoke_raising_eval, Hreply.
    unfold ret at 1. rewrite Hjson. reflexivity. }
  by repeat split.
Qed.

End ModerationUnparsed.

Lemma unparsed_reply_is_approved_witness :
  ∃ res w',
    @Moderation.moderate_content Example.runtime DemoServices.chatty
      (lit "hello") initial_world = (Ret res, w')
    ∧ Moderation.r_success res = true
    ∧ Moderation.r_approved res = true.
Proof.
  destruct (@unparsed_reply_is_approved Example.runtime DemoServices.chatty
              (lit "hello") (lit "Looks fine to me.") initial_world)
    as (res & w' & Hrun & _ & Hs & Ha & _).
  - vm_compute. discriminate.
  - vm_compute. discriminate.
  - reflexivity.
  - vm_compute. reflexivity.
  - by exists res, w'.
Defined.

(** ** Tidy output of the cleaning *)

Section Tidy.
Import Bridge.

Lemma lstrip_idem s : lstrip (lstrip s) = lstrip s.
Proof.
  induction s as [|c s IH]; [done|]. simpl.
  destruct (is_space c) eqn:Hc; [done|]. simpl. by rewrite Hc.
Qed.

Lemma lstrip_app_nonspace l c :
  is_space c = false → lstrip (l ++ [c]) = lstrip l ++ [c].
Proof.
  intros Hc. induction l as [|a l IH]; simpl; [by rewrite Hc|].
  by destruct (is_space a).
Qed.

Lemma rstrip_idem s : rstrip (rstrip s) = rstrip s.
Proof. unfold rstrip. by rewrite rev_involutive, lstrip_idem. Qed.

(** Stripping on the right keeps a head that is not whitespace. *)
Lemma rstrip_cons_nonspace c s :
  is_space c = false → rstrip (c :: s) = c :: rstrip s.
Proof.
  intros Hc. unfold rstrip. cbn [rev].
  by rewrite (lstrip_app_nonspace _ _ Hc), rev_app_distr.
Qed.

Lemma lstrip_rstrip_lstrip s : lstrip (rstrip (lstrip s)) = rstrip (lstrip s).
Proof.
  induction s as [|c s IH]; [done|]. cbn [lstrip].
  destruct (is_space c) eqn:Hc; [done|].
  rewrite (rstrip_cons_nonspace _ _ Hc). simpl. by rewrite Hc.
Qed.

Lemma strip_idem s : strip (strip s) = strip s.
Proof. unfold strip. by rewrite lstrip_rstrip_lstrip, rstrip_idem. Qed.

Lemma rstrip_prefix s : ∃ post, s = rstrip s ++ post.
Proof.
  unfold rstrip. destruct (lstrip_suffix (rev s)) as [pre Hpre].
  exists (rev pre). apply (f_equal (@rev char)) in Hpre.
  by rewrite rev_involutive, rev_app_distr in Hpre.
Qed.

Lemma single_spaced_strip s : single_spaced s → single_spaced (strip s).
Proof.
  intros Hs pre post Heq. unfold strip in Heq.
  destruct (lstrip_suffix s) as [a Ha].
  destruct (rstrip_prefix (lstrip s)) as [b Hb].
  apply (Hs (a ++ pre) (post ++ b)).
  rewrite Ha, Hb, Heq. by rewrite <- !app_assoc.
Qed.

Lemma single_spaced_cons c s :
  single_spaced s → (c ≠ SP ∨ head s ≠ Some SP) → single_spaced (c :: s).
Proof.
  intros Hs Hc pre post Heq. destruct pre as [|a pre].
  - injection Heq as -> ->. destruct Hc as [Hc|Hc]; by apply Hc.
  - injection Heq as -> Heq. by apply (Hs pre post).
Qed.

Lemma drop_spaces_head s : head (drop_spaces s) ≠ Some SP.
Proof.
  induction s as [|c s IH]; [done|]. simpl.
  destruct (c =? SP)%N eqn:Hc; [done|]. simpl. intros [= ->]. done.
Qed.

Lemma drop_spaces_length s : (length (drop_spaces s) ≤ length s)%nat.
Proof.
  induction s as [|c s IH]; [done|]. simpl. destruct (c =? SP)%N; simpl; lia.
Qed.

(** The substitution of [ +] leaves single spaces, and a text that does
    not begin with a space still does not. *)
Lemma re_sub_spaces_single n s :
  (length s ≤ n)%nat →
  single_spaced (re_sub_fuel spaces_at n s)
  ∧ (head s ≠ Some SP → head (re_sub_fuel spaces_at n s) ≠ Some SP).
Proof.
  revert s. induction n as [|n IH]; intros s Hlen.
  { destruct s; [|simpl in Hlen; lia]. split; [|done].
    intros [|??] ? ?; done. }
  destruct s as [|c s]; [split; [intros [|??] ? ?; done|done]|].
  cbn [re_sub_fuel spaces_at]. simpl in Hlen.
  destruct (c =? SP)%N eqn:Hc.
  - apply N.eqb_eq in Hc. subst c.
    destruct (IH (drop_spaces s)) as [Hs Hh].
    { pose proof (drop_spaces_length s). lia. }
    split; [|done]. cbn [app].
    apply single_spaced_cons; [done|]. right. apply Hh, drop_spaces_head.
  - apply N.eqb_neq in Hc. destruct (IH s ltac:(lia)) as [Hs _].
    split; [|simpl; congruence].
    apply single_spaced_cons; [done|by left].
Qed.

(** X22. What the cleaning leaves is tidy: the cleaned text has no whitespace
    at either end, so stripping it again changes nothing, and it never
    holds two spaces in a row. *)
Theorem cleaned_text_is_tidy (text : str) :
  strip (clean_formatting_for_translation text)
  = clean_formatting_for_translation text
  ∧ single_spaced (clean_formatting_for_translation text)
  ∧ (∀ c rest, clean_formatting_for_translation text = c :: rest →
       is_space c = false).
Proof.
  unfold clean_formatting_for_translation. cbv zeta.
  split; [apply strip_idem|]. split.
  - apply single_spaced_strip. unfold re_sub. by apply re_sub_spaces_single.
  - intros c rest Heq.
    assert (lstrip (c :: rest) = c :: rest) as Hl.
    { rewrite <- Heq. unfold strip. apply lstrip_rstrip_lstrip. }
    simpl in Hl. destruct (is_space c) eqn:Hc; [|done].
    exfalso. destruct (lstrip_suffix rest) as [pre Hpre].
    apply (f_equal (@length char)) in Hl, Hpre.
    rewrite length_app in Hpre. simpl in Hl. lia.
Qed.

End Tidy.

(** ** Requests that bypass the cache *)

Section KeepsCache.
Context `{PyRuntime} `{Services}.

Lemma keeps_ret {A} (a : A) : keeps_cache (ret a).
Proof. done. Qed.

Lemma keeps_raise {A} (e : exn) : keeps_cache (@raise World A e).
Proof. done. Qed.

Lemma keeps_bind {A B} (m : M World A) (k : A → M World B) :
  keeps_cache m → (∀ a, keeps_cache (k a)) → keeps_cache (bind m k).
Proof.
  intros Hm Hk w. unfold bind. specialize (Hm w).
  destruct (m w) as [[a|e] w1]; cbn [snd] in *; [|done].
  by rewrite Hk.
Qed.

Lemma keeps_try {A} (m : M World A) (h : exn → M World A) :
  keeps_cache m → (∀ e, keeps_cache (h e)) → keeps_cache (try_except m h).
Proof.
  intros Hm Hh w. unfold try_except. specialize (Hm w).
  destruct (m w) as [[a|e] w1]; cbn [snd] in *; [done|].
  by rewrite Hh.
Qed.

Lemma keeps_lift {A} (r : outcome A) : keeps_cache (Chat.lift r).
Proof. by destruct r. Qed.

Lemma keeps_need {A} (x : option A) : keeps_cache (Chat.need x).
Proof. by destruct x. Qed.

Lemma keeps_invoke {A} (c : call) (answer : list call → A) :
  keeps_cache (invoke c answer).
Proof. done. Qed.

Lemma keeps_invoke_raising {A} (c : call) (answer : list call → outcome A) :
  keeps_cache (invoke_raising c answer).
Proof. intros w. rewrite invoke_raising_eval. done. Qed.

Lemma keeps_now_iso : keeps_cache Chat.now_iso.
Proof. done. Qed.

End KeepsCache.

(** Goals [keeps_cache m] by the structure of [m]. *)
Ltac keeps_step :=
  lazymatch goal with
  | |- keeps_cache (ret _) => apply keeps_ret
  | |- keeps_cache (raise _) => apply keeps_raise
  | |- keeps_cache (Chat.lift _) => apply keeps_lift
  | |- keeps_cache (Chat.need _) => apply keeps_need
  | |- keeps_cache (invoke _ _) => apply keeps_invoke
  | |- keeps_cache (invoke_raising _ _) => apply keeps_invoke_raising
  | |- keeps_cache Chat.now_iso => apply keeps_now_iso
  | |- keeps_cache (bind _ _) => apply keeps_bind; [|intros ?]
  | |- keeps_cache (try_except _ _) => apply keeps_try; [|intros ?]
  | |- keeps_cache (if ?b then _ else _) => destruct b
  | |- keeps_cache (match ?x with _ => _ end) => destruct x
  end.

Ltac keeps := cbv zeta; repeat (keeps_step; cbv zeta); try done.

Section Bypass.
Context `{PyRuntime} `{Services}.
Import Chat.

Lemma keeps_process_text (text : str) : keeps_cache (Bridge.process_text text).
Proof.
  unfold Bridge.process_text, Bridge.graph_invoke,
    Bridge._detect_language_node, Bridge._translate_text_node.
  keeps.
Qed.

Lemma keeps_moderate_content (text : str) :
  keeps_cache (Moderation.moderate_content text).
Proof.
  unfold Moderation.moderate_content, Moderation.graph_invoke,
    Moderation._analyze_content_node.
  keeps.
Qed.

Lemma keeps_process_with_moderation (text : str) :
  keeps_cache (Integration.process_with_moderation text).
Proof.
  unfold Integration.process_with_moderation,
    Bridge.create_language_bridge_agent,
    Moderation.create_content_moderation_agent.
  keeps; first [apply keeps_process_text | apply keeps_moderate_content].
Qed.

Lemma keeps_translate_response (response target : str) :
  keeps_cache (Bridge.translate_response_to_user_language response target).
Proof.
  unfold Bridge.translate_response_to_user_language,
    Bridge.create_language_bridge_agent, Bridge.translate_to_language.
  keeps.
Qed.

Lemma keeps_classify (msg : str) : keeps_cache (classify_user_intent msg).
Proof. unfold classify_user_intent. keeps. Qed.

Lemma keeps_explanation_step should_explain intent_result (text : str) code :
  keeps_cache (explanation_step should_explain intent_result text code).
Proof.
  unfold explanation_step. keeps; apply keeps_translate_response.
Qed.

Lemma keeps_message_step (request : ChatMessage) (l : Locals) :
  keeps_cache (message_step request l).
Proof.
  unfold message_step.
  keeps; first [ apply keeps_process_with_moderation | apply keeps_classify
               | apply keeps_explanation_step ].
Qed.

Lemma keeps_pdf_step (request : ChatMessage) (l : Locals) :
  keeps_cache (pdf_step request l).
Proof. unfold pdf_step. keeps. Qed.

Lemma keeps_cached_reply (prefix user_message : str) (success : option bool)
    (cached_response : payload) :
  keeps_cache (cached_reply prefix user_message success cached_response).
Proof. unfold cached_reply. keeps. Qed.

(** X23. A request that carries a document bypasses the cache. Whatever the
    message, the state of the cache and the answers of the collaborators,
    and whether the pipeline completes or ends in the fallback, the
    endpoint neither stores nor deletes anything: it leaves the cache
    exactly as it was. *)
Theorem document_requests_bypass_cache (request : ChatMessage) (w : World) :
  truthy_opt (pdf_file request) = true →
  w_cache (chat_endpoint request w).2 = w_cache w.
Proof.
  intros Hpdf. revert w. change (keeps_cache (chat_endpoint request)).
  unfold chat_endpoint, run_pipeline, error_fallback. cbv zeta.
  rewrite Hpdf. cbn [negb]. rewrite !andb_false_r. cbn [andb]. cbv iota.
  keeps; first [ apply keeps_message_step | apply keeps_pdf_step
               | apply keeps_translate_response | apply keeps_cached_reply ].
Qed.

End Bypass.

Lemma document_requests_bypass_cache_witness :
  w_cache
    (@Chat.chat_endpoint Example.runtime Example.online
       {| Chat.message := lit "please grade this";
          Chat.user_id := Some (lit "anonymous"); Chat.session_id := None;
          Chat.pdf_file := Some (lit "bm90IGEgcGRm") |} DemoWorld.warm).2
  = w_cache DemoWorld.warm.
Proof.
  apply (@document_requests_bypass_cache Example.runtime Example.online).
  reflexivity.
Defined.

(** ** The fallback of the endpoint *)

Section CrashFallback.
Context `{PyRuntime} `{Services}.
Import Chat.

(** The fallback payload always has a reply. *)
Lemma fallback_has_reply (m error_context now_iso : str) self :
  ∃ p v,
    Cache.get_fallback_response m error_context now_iso self = (Ret p, self)
    ∧ p !! "bot_response" = Some v.
Proof.
  destruct (find_similar_returns self m) as (res & Hfind).
  unfold Cache.get_fallback_response, try_except.
  rewrite (bind_eval _ _ _ _ _ Hfind).
  destruct (Cache.truthy_payload res) as [similar|].
  - destruct (similar !! "bot_response") as [previous|].
    + eexists _, _. split; [reflexivity|]. apply lookup_insert_eq.
    + eexists _, _. split; [reflexivity|]. reflexivity.
  - rewrite bind_get_state.
    destruct (json_dumps _) as [status_json|e].
    + eexists _, _. split; [reflexivity|]. reflexivity.
    + eexists _, _. split; [reflexivity|]. reflexivity.
Qed.

(** X24. When the pipeline crashes. The [except] branch of the endpoint never
    raises. For a request with a document it gives the last-resort answer:
    no success, no approval, the technical-difficulties text and the text
    of the exception. For a text request without a document and without a
    cached reply it answers with the fallback payload of the cache, as a
    successful and approved response. Either way no collaborator is called
    and the cache is unchanged. *)
Theorem crash_fallback (request : ChatMessage) (e : exn) (w : World) :
  (truthy_opt (pdf_file request) = true →
   ∃ res,
     error_fallback request e w
     = (Ret res,
        {| w_cache := w_cache w; w_trace := w_trace w;
           w_ticks := S (w_ticks w) |})
     ∧ success res = false ∧ final_approved res = false
     ∧ bot_response res = technical_difficulties
     ∧ error res = Some (exn_message e))
  ∧ (has_text (message request) = true →
     truthy_opt (pdf_file request) = false →
     Cache.lookup (Cache._generate_key (message request) false)
       (Cache.cache (w_cache w)) = None →
     ∃ res w' p v,
       error_fallback request e w = (Ret res, w')
       ∧ w_trace w' = w_trace w ∧ w_cache w' = w_cache w
       ∧ Cache.get_fallback_response (message request) (lit "service_error")
           (isoformat (clock (w_ticks w))) (w_cache w)
         = (Ret p, w_cache w)
       ∧ p !! "bot_response" = Some v
       ∧ bot_response res = format_value v
       ∧ success res = true ∧ final_approved res = true
       ∧ error res = None).
Proof.
  split.
  - intros Hpdf. unfold error_fallback. cbv zeta. rewrite Hpdf.
    cbn [negb]. rewrite andb_false_r.
    eexists. split; [reflexivity|]. by repeat split.
  - intros Htext Hpdf Habsent.
    assert (truthy_str (message request) = true) as Hmsg.
    { unfold has_text in Htext. by apply andb_true_iff in Htext as [? _]. }
    destruct (fallback_has_reply (message request) (lit "service_error")
                (isoformat (clock (w_ticks w))) (w_cache w))
      as (p & v & Hfb & Hv).
    exists
      {| success := true; user_message := message request;
         bot_response := format_value v; translation_info := VNone;
         moderation_info := VNone; grading_result := VNone;
         explanation_result := VNone; final_approved := true;
         timestamp := isoformat (clock (S (w_ticks w))); error := None |},
      {| w_cache := w_cache w; w_trace := w_trace w;
         w_ticks := S (S (w_ticks w)) |}, p, v.
    split; [|by repeat split].
    unfold error_fallback. cbv zeta. rewrite Hmsg, Hpdf.
    rewrite (has_text_strip _ Htext). cbn [negb andb].
    match goal with
    | |- bind ?m _ w = (Ret ?res, ?w') =>
        assert (m w = (Ret (Some res), w')) as Hattempt
    end.
    { apply try_except_ret.
      rewrite (bind_eval _ _ _ _ _ (cache_get_absent _ _ Habsent)).
      cbn [Cache.truthy_payload]. unfold bind at 1. rewrite now_iso_eval.
      unfold bind at 1, on_cache at 1. cbn [w_cache w_trace w_ticks].
      rewrite Hfb, Hv. cbn [need]. rewrite bind_ret. cbv beta.
      unfold bind. rewrite now_iso_eval. reflexivity. }
    by rewrite (bind_eval _ _ _ _ _ Hattempt).
Qed.

End CrashFallback.

Lemma crash_fallback_witness :
  ∃ res w',
    @Chat.error_fallback Example.runtime Example.online DemoWorld.hello KeyError
      initial_world = (Ret res, w')
    ∧ Chat.success res = true ∧ Chat.final_approved res = true
    ∧ w_trace w' = [].
Proof.
  destruct (@crash_fallback Example.runtime Example.online DemoWorld.hello
              KeyError initial_world) as [_ Htext].
  destruct Htext as (res & w' & p & v & Hrun & Htr & _ & _ & _ & _ & Hs & Ha & _).
  - reflexivity.
  - reflexivity.
  - reflexivity.
  - by exists res, w'.
Defined.

Section Explanation.
Context `{PyRuntime} `{Services}.
Import Chat.

(** X25. The explanation branch. [explanation_step] never raises and leaves
    the cache alone. Without a confident explanation intent nothing is
    called. With one, an agent that is missing or not healthy gives the
    service-unavailable notice without a call; otherwise the agent is
    asked once, about the translated text, before anything else: if it
    fails the reply is the could-not-explain notice and there is no
    explanation result, and if it answers, the result holds the topic and
    the explanation, which for an English message is the agent's answer
    as it is. *)
Theorem explanation_step_cases (should_explain : bool)
    (intent_result : IntentResult) (text : str) (code : option str) (w : World) :
  ∃ res parts w' calls,
    explanation_step should_explain intent_result text code w
    = (Ret (res, parts), w')
    ∧ w_trace w' = w_trace w ++ calls
    ∧ w_cache w' = w_cache w
    ∧ (should_explain = false → calls = [] ∧ res = VNone)
    ∧ (should_explain = true →
       explanation_agent = None ∨ explanation_healthy = false →
       calls = [] ∧ res = VNone ∧ parts = [explain_unavailable])
    ∧ (∀ get_explanation,
         should_explain = true → explanation_healthy = true →
         explanation_agent = Some get_explanation →
         ∃ rest,
           calls = Explain text :: rest
           ∧ Forall (λ c, c = NewTranslateClient ∨ is_translate c = true) rest
           ∧ match get_explanation (w_trace w) text with
             | Raise _ => res = VNone ∧ parts = [explain_failed] ∧ rest = []
             | Ret explanation =>
                 ∃ shown,
                   res = VDict [ ("topic", VStr text);
                                 ("explanation", VStr shown);
                                 ("intent_confidence",
                                  VNum (confidence intent_result));
                                 ("reasoning", reasoning intent_result) ]
                   ∧ parts = [explain_head ++ text ++ explain_sep ++ shown]
                   ∧ (code = None → shown = explanation ∧ rest = [])
             end).
Proof.
  unfold explanation_step.
  destruct should_explain; cbn [andb].
  2:{ (* no confident explanation intent *)
    destruct (is_str (intent intent_result) (lit "explanation")
              && Qle_bool (confidence intent_result) (1 # 2));
      [|destruct (is_str (intent intent_result) (lit "general"))];
      eexists _, _, w, []; (split; [reflexivity|]); rewrite app_nil_r;
      repeat split; done. }
  destruct explanation_healthy eqn:Hhealthy.
  2:{ eexists _, _, w, []. split; [reflexivity|]. rewrite app_nil_r.
      repeat split; done. }
  destruct explanation_agent as [get|] eqn:Hagent.
  2:{ eexists _, _, w, []. split; [reflexivity|]. rewrite app_nil_r.
      repeat split; done. }
  unfold try_except at 1. unfold bind at 1. rewrite invoke_raising_eval.
  set (w1 := {| w_cache := w_cache w; w_trace := w_trace w ++ [Explain text];
                w_ticks := w_ticks w |}).
  destruct (get (w_trace w) text) as [explanation|e] eqn:Hget.
  2:{ eexists _, _, w1, [Explain text]. split; [reflexivity|].
      split; [done|]. split; [done|]. split; [done|]. split; [by intros _ [|]|].
      intros g _ _ [= <-]. exists []. rewrite Hget. by repeat split. }
  (* the explanation, translated back when the message was not English *)
  assert (∃ shown w2 rest,
    match code with
    | Some c =>
        if truthy_str c then
          try_except
            (let! explanation_translation :=
               Bridge.translate_response_to_user_language explanation c in
             ret (if Bridge.t_success explanation_translation
                     && negb (Bridge.t_skipped explanation_translation)
                  then Bridge.t_translated_text explanation_translation
                  else explanation))%M
            (λ _, ret explanation)
        else ret explanation
    | None => ret explanation
    end w1 = (Ret shown, w2)
    ∧ w_trace w2 = w_trace w1 ++ rest
    ∧ w_cache w2 = w_cache w1
    ∧ Forall (λ c, c = NewTranslateClient ∨ is_translate c = true) rest
    ∧ (code = None → shown = explanation ∧ rest = []))
    as (shown & w2 & rest & Hshown & Htr & Hc & Hrest & Hnone).
  { destruct code as [c|].
    2:{ exists explanation, w1, []. rewrite app_nil_r. by repeat split. }
    destruct (truthy_str c).
    2:{ exists explanation, w1, []. rewrite app_nil_r. by repeat split. }
    destruct (translate_response_returns explanation c w1)
      as (rt & w2 & rest & Hrt & Htr & Hc & Hrest).
    eexists _, w2, rest. split.
    { apply try_except_ret. by rewrite (bind_eval _ _ _ _ _ Hrt). }
    by repeat split. }
  eexists _, _, w2, (Explain text :: rest). split.
  { rewrite (bind_eval _ _ _ _ _ Hshown). reflexivity. }
  rewrite Htr, Hc. cbn [w_trace w_cache w1]. rewrite <- app_assoc.
  split; [done|]. split; [done|]. split; [done|]. split; [by intros _ [|]|].
  intros g _ _ [= <-]. exists rest. rewrite Hget.
  split; [done|]. split; [done|]. by exists shown.
Qed.

End Explanation.

(** ** A blank target language *)

Section BlankTarget.
Context `{PyRuntime} `{Services}.
Import Bridge.

Lemma strip_nil_spaces s : strip s = [] → Forall (λ c, is_space c = true) s.
Proof.
  unfold strip, rstrip. intros Hs.
  assert (lstrip s = []) as Hl.
  { destruct (lstrip_suffix (rev (lstrip s))) as [pre Hpre].
    apply (f_equal (@rev char)) in Hs. rewrite rev_involutive in Hs.
    simpl in Hs. rewrite Hs, app_nil_r in Hpre.
    destruct (lstrip s) as [|c l] eqn:Hls; [done|].
    exfalso.
    assert (is_space c = false) as Hc.
    { clear -Hls. induction s as [|a s IH]; [done|]. simpl in Hls.
      destruct (is_space a) eqn:Ha; [by apply IH|]. by injection Hls as <- _. }
    cbn [rev] in Hs. rewrite (lstrip_app_nonspace _ _ Hc) in Hs.
    by destruct (lstrip (rev l)). }
  clear Hs. induction s as [|c s IH]; [constructor|].
  simpl in Hl. destruct (is_space c) eqn:Hc; [|done].
  constructor; [done|by apply IH].
Qed.

(** An ASCII text of whitespace only is no name of English. *)
Lemma blank_is_not_english (target : str) :
  is_ascii target → strip target = [] → is_english_target target = false.
Proof.
  intros Hascii Hblank%strip_nil_spaces. unfold is_english_target.
  rewrite (lower_ascii _ Hascii).
  assert (∀ name c rest, name = c :: rest → is_space c = false →
            bool_decide (ascii_lower target = name) = false) as Hno.
  { intros name c rest -> Hc. apply bool_decide_eq_false. intros Heq.
    destruct target as [|a target]; [done|]. cbn in Heq. injection Heq as Ha _.
    apply Forall_cons in Hblank as [Hsp _].
    rewrite <- (is_space_ascii_lower_char a), Ha in Hsp. congruence. }
  rewrite (Hno (lit "en") 101%N (lit "n")), (Hno (lit "english") 101%N (lit "nglish"));
    done.
Qed.

(** X26. A blank target language is refused. For an ASCII target code that
    is empty or whitespace only, [translate_response_to_user_language]
    builds the client and stops: nothing is translated, the result has no
    success and gives the response text back as it was, and when the
    client could be built the error is "Invalid target language code". *)
Theorem blank_target_is_refused (response target : str) (w : World) :
  is_ascii target → strip target = [] →
  ∃ res w',
    translate_response_to_user_language response target w = (Ret res, w')
    ∧ w_trace w' = w_trace w ++ [NewTranslateClient]
    ∧ w_cache w' = w_cache w
    ∧ t_success res = false
    ∧ t_translated_text res = response
    ∧ (new_translate_client (w_trace w) = Ret tt →
       t_error res = Some (lit "Invalid target language code")).
Proof.
  intros Hascii Hblank.
  unfold translate_response_to_user_language, create_language_bridge_agent.
  unfold try_except, bind. rewrite invoke_raising_eval.
  destruct (new_translate_client (w_trace w)) as [[]|e].
  2:{ eexists _, _. split; [reflexivity|]. by repeat split. }
  rewrite (blank_is_not_english _ Hascii Hblank), Hblank.
  cbn [length Nat.eqb]. rewrite orb_true_r.
  eexists _, _. split; [reflexivity|]. by repeat split.
Qed.

End BlankTarget.

Lemma blank_target_is_refused_witness :
  ∃ res w',
    @Bridge.translate_response_to_user_language Example.runtime Example.online
      (lit "Well done!") (lit "  ") initial_world = (Ret res, w')
    ∧ Bridge.t_success res = false
    ∧ Bridge.t_translated_text res = lit "Well done!"
    ∧ Bridge.t_error res = Some (lit "Invalid target language code").
Proof.
  destruct (@blank_target_is_refused Example.runtime Example.online
              (lit "Well done!") (lit "  ") initial_world)
    as (res & w' & Hrun & _ & _ & Hs & Ht & He).
  - repeat constructor.
  - reflexivity.
  - exists res, w'. split; [exact Hrun|]. split; [exact Hs|].
    split; [exact Ht|]. by apply He.
Defined.
